(** * Kala Sahayak: the listing pipeline (app.py) and the tools of the
      agentic variant (crew_mvp.py), embedded in Rocq.

    Python values are an inductive type, a Python [str] is a Rocq [string]
    (characters are the code points 0..255), a [dict] is an association list
    in insertion order, a Python [float] is a binary64 [float].  Code that
    may raise returns a [result]; code that talks to the outside world takes
    the world as a record of oracles and returns the events it caused; the
    page of app.py is a state and error monad over [final_results], the
    widgets drawn and the effects of the tools.

    What is left out: the decorator [tool] (calling a tool calls its
    function), [print], [time.sleep] and the layout of the page; a widget
    call never raises.  The recursion limit of the interpreter is not
    modelled; its limit on the digits of an [int] is, where [json] converts
    integers.  The text [str(e)] of a [JSONDecodeError] is kept without the
    position that follows the message.  The digits that the format [.2f]
    produces are not computed: a formatted price is kept as the prefix and
    the value, and only whether formatting raises is modelled. *)

From Stdlib Require Import ZArith List Bool Ascii String Lia PrimFloat.
From Stdlib Require Decimal DecimalString DecimalZ DecimalFacts DecimalPos.
From Stdlib Require FloatOps SpecFloat Uint63.
Import ListNotations.
Local Open Scope string_scope.
Local Open Scope Z_scope.

(** ** Exceptions and the error monad *)

(** The exception classes that occur in the two scripts.  [JSONDecodeError]
    is a subclass of [ValueError]; all of them derive from [Exception]. *)
Inductive exn_class : Type :=
| ValueError | SyntaxError | TypeError | JSONDecodeError | AttributeError
| KeyError | HTTPError | RequestError | OSError | RecursionError
| MemoryError | OverflowError | OtherError.

(** The reply of an HTTP server, as [requests] presents it. *)
Record response : Type := {
  status_code : Z;
  text : string;
  content : string
}.

(** An exception: its class, [str(e)], and for an [HTTPError] the reply it
    was raised for ([e.response]). *)
Record exn : Type := MkExn {
  exn_cls : exn_class;
  exn_msg : string;
  exn_response : option response
}.

Definition Exn (c : exn_class) (msg : string) : exn := MkExn c msg None.

Inductive result (A : Type) : Type :=
| Ok (a : A)
| Raise (e : exn).
Arguments Ok {A} a.
Arguments Raise {A} e.

Definition bind {A B : Type} (m : result A) (k : A -> result B) : result B :=
  match m with
  | Ok a => k a
  | Raise e => Raise e
  end.

Notation "x <- m ;; k" := (bind m (fun x => k))
  (at level 61, m at next level, right associativity).
Notation "' p <- m ;; k" := (bind m (fun x => match x with p => k end))
  (at level 61, p pattern, m at next level, right associativity).

Definition exn_class_eqb (a b : exn_class) : bool :=
  match a, b with
  | ValueError, ValueError | SyntaxError, SyntaxError | TypeError, TypeError
  | JSONDecodeError, JSONDecodeError | AttributeError, AttributeError
  | KeyError, KeyError | HTTPError, HTTPError | RequestError, RequestError
  | OSError, OSError | RecursionError, RecursionError
  | MemoryError, MemoryError | OverflowError, OverflowError
  | OtherError, OtherError => true
  | _, _ => false
  end.

(** [issubclass c base] for the classes above. *)
Definition issubclass (c base : exn_class) : bool :=
  exn_class_eqb c base
  || match c, base with
     | JSONDecodeError, ValueError => true
     | HTTPError, RequestError => true
     | HTTPError, OSError => true
     | RequestError, OSError => true
     | _, _ => false
     end.

(** ** Python values *)

Unset Elimination Schemes.
Inductive pyval : Type :=
| VNone
| VBool (b : bool)
| VInt (z : Z)
| VFloat (f : float)
| VStr (s : string)
| VBytes (s : string)
| VList (l : list pyval)
| VTuple (l : list pyval)
| VSet (l : list pyval)
| VDict (d : list (pyval * pyval))
| VComplex (re im : float)
| VEllipsis.
Set Elimination Schemes.

Definition dict : Type := list (pyval * pyval).

(** ** Strings *)

Definition chr (n : nat) : ascii := ascii_of_nat n.
Definition ord (c : ascii) : nat := nat_of_ascii c.

(** The double quote. *)
Definition DQ : ascii :=
  Ascii false true false false false true false false.

Definition LF : ascii := chr 10.
Definition CR : ascii := chr 13.
Definition TAB : ascii := chr 9.
Definition BS : ascii := chr 8.
Definition FF : ascii := chr 12.

Definition chars (s : string) : list ascii := list_ascii_of_string s.
Definition str (l : list ascii) : string := string_of_list_ascii l.

(** [str(z)] for an [int]. *)
Definition str_of_Z (z : Z) : string :=
  DecimalString.NilZero.string_of_int (Z.to_int z).

(** The longest decimal text an [int] is converted to or from
    ([sys.get_int_max_str_digits()], 4300 unless the process changes it; the
    two scripts do not), and the number of digits of an [int], its sign not
    counted. *)
Definition max_str_digits : Z := 4300.

Definition int_digits (z : Z) : Z :=
  Z.of_nat (String.length (str_of_Z (Z.abs z))).

Definition int_fits (z : Z) : bool := int_digits z <=? max_str_digits.

(** [s[:n]] *)
Definition str_take (n : nat) (s : string) : string := substring 0 n s.

(** [str.isspace] on one character, for the code points 0..255. *)
Definition isspace (c : ascii) : bool :=
  let n := ord c in
  ((9 <=? n) && (n <=? 13) || (28 <=? n) && (n <=? 32)
   || (n =? 133) || (n =? 160))%nat.

Fixpoint lstrip (l : list ascii) : list ascii :=
  match l with
  | c :: r => if isspace c then lstrip r else l
  | [] => []
  end.

(** [s.strip()] *)
Definition strip (s : string) : string :=
  str (rev (lstrip (rev (lstrip (chars s))))).

(** [s.replace(old, new)] for a non-empty [old]: every occurrence found
    scanning from the left, occurrences do not overlap.  [skip] counts the
    characters of the current occurrence still to be dropped. *)
Fixpoint replace_from (old new : string) (skip : nat) (s : string) : string :=
  match s with
  | EmptyString => EmptyString
  | String c r =>
      match skip with
      | S k => replace_from old new k r
      | O =>
          if prefix old s
          then new ++ replace_from old new (pred (String.length old)) r
          else String c (replace_from old new O r)
      end
  end.

Definition replace (old new s : string) : string := replace_from old new O s.

(** [old in s] for two strings. *)
Fixpoint str_contains (old s : string) : bool :=
  prefix old s
  || match s with
     | EmptyString => false
     | String _ r => str_contains old r
     end.

(** [sep.join(l)] *)
Definition join (sep : string) (l : list string) : string := concat sep l.

(** [os.path.basename] and [os.path.join] on a POSIX system. *)
Fixpoint basename_from (acc : string) (s : string) : string :=
  match s with
  | EmptyString => acc
  | String c r =>
      if Ascii.eqb c "/" then basename_from r r
      else basename_from acc r
  end.

Definition basename (p : string) : string := basename_from p p.

Definition isabs (p : string) : bool := prefix "/" p.

Definition endswith_slash (p : string) : bool :=
  match rev (chars p) with
  | c :: _ => Ascii.eqb c "/"
  | [] => false
  end.

Definition path_join (a b : string) : string :=
  if isabs b then b
  else if (String.eqb a "") || endswith_slash a then a ++ b
  else a ++ "/" ++ b.

(** ** The Python runtime

    What the interpreter and its standard library decide, and this
    development does not compute: the hash of a [str] (seeded once per
    process; CPython gives the empty string the hash 0), the hash of the
    other hashable values that are not [int] or [bool], the text of a float,
    the float of a number literal, the text of the values whose [repr] is
    not modelled, and [ast.literal_eval]. *)
Record Runtime : Type := {
  str_hash : string -> Z;
  str_hash_empty : str_hash "" = 0;
  value_hash : pyval -> Z;
  float_repr : float -> string;
  float_of_literal : string -> float;
  repr_other : pyval -> string;
  literal_eval : string -> result pyval
}.

(** ** Operations on values *)

(** [isinstance(v, (int, float))]: [bool] is a subclass of [int]. *)
Definition isinstance_int_float (v : pyval) : bool :=
  match v with
  | VInt _ | VBool _ | VFloat _ => true
  | _ => false
  end.

Definition isinstance_dict (v : pyval) : bool :=
  match v with VDict _ => true | _ => false end.

Definition float_is_zero (f : float) : bool := PrimFloat.eqb f 0%float.

(** [bool(v)] *)
Definition truthy (v : pyval) : bool :=
  match v with
  | VNone => false
  | VBool b => b
  | VInt z => negb (z =? 0)
  | VFloat f => negb (float_is_zero f)
  | VStr s | VBytes s => negb (String.eqb s "")
  | VList l | VTuple l | VSet l => match l with [] => false | _ => true end
  | VDict d => match d with [] => false | _ => true end
  | VComplex re im => negb (float_is_zero re && float_is_zero im)
  | VEllipsis => true
  end.

(** The exact integer value of a float, when it has one. *)
Definition float_as_Z (f : float) : option Z :=
  match FloatOps.Prim2SF f with
  | SpecFloat.S754_zero _ => Some 0
  | SpecFloat.S754_finite s m e =>
      let v :=
        if 0 <=? e then Some (Z.pos m * 2 ^ e)
        else if (Z.pos m) mod (2 ^ (- e)) =? 0
             then Some (Z.pos m / 2 ^ (- e)) else None in
      if s then option_map Z.opp v else v
  | _ => None
  end.

(** The value of an [int] or [bool]. *)
Definition int_value (v : pyval) : option Z :=
  match v with
  | VInt z => Some z
  | VBool c => Some (if c then 1 else 0)
  | _ => None
  end.

Definition opt_Z_eqb (x y : option Z) : bool :=
  match x, y with
  | Some a, Some b => a =? b
  | _, _ => false
  end.

(** [a == b] on the values that can be dictionary keys: numbers compare by
    value across [bool], [int] and [float]. *)
Fixpoint key_eqb (a b : pyval) {struct a} : bool :=
  match a, b with
  | VNone, VNone => true
  | VEllipsis, VEllipsis => true
  | VStr s, VStr t => String.eqb s t
  | VBytes s, VBytes t => String.eqb s t
  | VFloat f, VFloat g => PrimFloat.eqb f g
  | VFloat f, _ => opt_Z_eqb (float_as_Z f) (int_value b)
  | _, VFloat g => opt_Z_eqb (int_value a) (float_as_Z g)
  | VTuple l, VTuple m =>
      (fix all2 (l m : list pyval) {struct l} : bool :=
         match l, m with
         | [], [] => true
         | x :: l', y :: m' => key_eqb x y && all2 l' m'
         | _, _ => false
         end) l m
  | _, _ => opt_Z_eqb (int_value a) (int_value b)
  end.

(** Lists, dictionaries and sets are unhashable. *)
Fixpoint hashable (v : pyval) : bool :=
  match v with
  | VList _ | VSet _ | VDict _ => false
  | VTuple l => forallb hashable l
  | _ => true
  end.

(** *** Dictionaries: association lists in insertion order *)

Fixpoint dict_get (k : pyval) (d : dict) : option pyval :=
  match d with
  | [] => None
  | (k', v) :: r => if key_eqb k k' then Some v else dict_get k r
  end.

Definition dict_has (k : pyval) (d : dict) : bool :=
  match dict_get k d with Some _ => true | None => false end.

(** [d[k] = v]: an existing key keeps its place, a new one goes last. *)
Fixpoint dict_set (k v : pyval) (d : dict) : dict :=
  match d with
  | [] => [(k, v)]
  | (k', v') :: r =>
      if key_eqb k k' then (k', v) :: r else (k', v') :: dict_set k v r
  end.

(** [dict(pairs)] *)
Definition dict_of_pairs (l : list (pyval * pyval)) : dict :=
  fold_left (fun d kv => dict_set (fst kv) (snd kv) d) l [].

(** [results.get(k)] and [results.get(k, default)] for a string key. *)
Definition get_or_none (k : string) (d : dict) : pyval :=
  match dict_get (VStr k) d with Some v => v | None => VNone end.

Definition get_default (k : string) (default : pyval) (d : dict) : pyval :=
  match dict_get (VStr k) d with Some v => v | None => default end.

(** The name of a value's type, as error messages print it. *)
Definition type_name (v : pyval) : string :=
  match v with
  | VNone => "NoneType" | VBool _ => "bool" | VInt _ => "int"
  | VFloat _ => "float" | VStr _ => "str" | VBytes _ => "bytes"
  | VList _ => "list" | VTuple _ => "tuple" | VSet _ => "set"
  | VDict _ => "dict" | VComplex _ _ => "complex" | VEllipsis => "ellipsis"
  end.

(** [k in v] for a string [k]: a key of a dictionary, an element of a
    sequence or set, a substring of a string; other values are not
    containers. *)
Definition str_in (k : string) (v : pyval) : result bool :=
  match v with
  | VDict d => Ok (dict_has (VStr k) d)
  | VList l | VTuple l | VSet l => Ok (existsb (key_eqb (VStr k)) l)
  | VStr s => Ok (str_contains k s)
  | VBytes _ =>
      Raise (Exn TypeError "a bytes-like object is required, not 'str'")
  | _ => Raise (Exn TypeError
                  ("argument of type '" ++ type_name v ++ "' is not iterable"))
  end.

(** [v[k]] for a string [k]. *)
Definition getitem_str (v : pyval) (k : string) : result pyval :=
  match v with
  | VDict d =>
      match dict_get (VStr k) d with
      | Some x => Ok x
      | None => Raise (Exn KeyError ("'" ++ k ++ "'"))
      end
  | VList _ | VTuple _ | VStr _ | VBytes _ =>
      Raise (Exn TypeError
               (type_name v ++ " indices must be integers or slices, not str"))
  | _ => Raise (Exn TypeError
                  ("'" ++ type_name v ++ "' object is not subscriptable"))
  end.

(** The items a value yields when iterated, [None] when it cannot be. *)
Definition iter_items (v : pyval) : option (list pyval) :=
  match v with
  | VList l | VTuple l | VSet l => Some l
  | VDict d => Some (map fst d)
  | VStr s => Some (map (fun c => VStr (String c "")) (chars s))
  | VBytes s => Some (map (fun c => VInt (Z.of_nat (ord c))) (chars s))
  | _ => None
  end.

(** One element of the sequence given to [dict.update]: it must itself
    yield exactly two items, the first of them hashable. *)
Definition update_pair (x : pyval) : result (pyval * pyval) :=
  match iter_items x with
  | None =>
      Raise (Exn TypeError
               "cannot convert dictionary update sequence element to a sequence")
  | Some [k; v] =>
      if hashable k then Ok (k, v)
      else Raise (Exn TypeError ("unhashable type: '" ++ type_name k ++ "'"))
  | Some _ =>
      Raise (Exn ValueError
               "dictionary update sequence element has the wrong length; 2 is required")
  end.

Fixpoint update_pairs (d : dict) (l : list pyval) : dict * result unit :=
  match l with
  | [] => (d, Ok tt)
  | x :: r =>
      match update_pair x with
      | Ok (k, v) => update_pairs (dict_set k v d) r
      | Raise e => (d, Raise e)
      end
  end.

(** [d.update(v)]: a dictionary is merged key by key; any other iterable
    is read as a sequence of pairs; the entries set before an error stay. *)
Definition dict_update (d : dict) (v : pyval) : dict * result unit :=
  match v with
  | VDict d2 =>
      (fold_left (fun acc kv => dict_set (fst kv) (snd kv) acc) d2 d, Ok tt)
  | _ =>
      match iter_items v with
      | Some l => update_pairs d l
      | None =>
          (d, Raise (Exn TypeError
                       ("'" ++ type_name v ++ "' object is not iterable")))
      end
  end.

(** [hash(z)] for an [int]: reduction modulo the Mersenne prime 2^61 - 1,
    with -1 replaced by -2. *)
Definition int_hash (z : Z) : Z :=
  let h := Z.sgn z * (Z.abs z mod (2 ^ 61 - 1)) in
  if h =? -1 then -2 else h.

(** [hash(v)] *)
Definition py_hash (rt : Runtime) (v : pyval) : result Z :=
  if hashable v then
    match v with
    | VStr s => Ok (str_hash rt s)
    | VInt z => Ok (int_hash z)
    | VBool b => Ok (if b then 1 else 0)
    | _ => Ok (value_hash rt v)
    end
  else Raise (Exn TypeError ("unhashable type: '" ++ type_name v ++ "'")).

(** *** [repr] and [str] *)

Definition hex_digit (n : nat) : ascii :=
  if (n <? 10)%nat then chr (48 + n) else chr (87 + n).

(** A character that [repr] prints as it is: the printable characters of
    Latin-1. *)
Definition isprintable (c : ascii) : bool :=
  let n := ord c in
  ((32 <=? n) && (n <=? 126) || (161 <=? n) && negb (n =? 173))%nat.

Definition repr_char (quote c : ascii) : list ascii :=
  if Ascii.eqb c "\" then ["\"; "\"]%char
  else if Ascii.eqb c quote then ["\"%char; quote]
  else if Ascii.eqb c LF then ["\"; "n"]%char
  else if Ascii.eqb c CR then ["\"; "r"]%char
  else if Ascii.eqb c TAB then ["\"; "t"]%char
  else if isprintable c then [c]
  else ["\"%char; "x"%char; hex_digit (ord c / 16); hex_digit (ord c mod 16)].

(** [repr(s)] for a [str]: single quotes, unless the text has a single
    quote and no double quote. *)
Definition repr_str (s : string) : string :=
  let l := chars s in
  let has q := existsb (Ascii.eqb q) l in
  let quote : ascii :=
    if has "'"%char && negb (has DQ) then DQ else "'"%char in
  str (quote :: flat_map (repr_char quote) l ++ [quote]).

Definition float_isnan (f : float) : bool := negb (PrimFloat.eqb f f).

(** [repr(v)].  The scripts print values read by [json.loads], hashes and
    status codes: integers whose decimal text is within the limit on
    digits. *)
Fixpoint py_repr (rt : Runtime) (v : pyval) : string :=
  match v with
  | VNone => "None"
  | VBool true => "True"
  | VBool false => "False"
  | VInt z => str_of_Z z
  | VFloat f =>
      if float_isnan f then "nan"
      else if PrimFloat.eqb f infinity then "inf"
      else if PrimFloat.eqb f neg_infinity then "-inf"
      else float_repr rt f
  | VStr s => repr_str s
  | VList l => "[" ++ join ", " (map (py_repr rt) l) ++ "]"
  | VTuple l =>
      match l with
      | [x] => "(" ++ py_repr rt x ++ ",)"
      | _ => "(" ++ join ", " (map (py_repr rt) l) ++ ")"
      end
  | VDict d =>
      "{" ++ join ", "
               (map (fun kv => py_repr rt (fst kv) ++ ": " ++ py_repr rt (snd kv))
                    d)
          ++ "}"
  | _ => repr_other rt v
  end.

(** [str(v)], which is also what [f"{v}"] inserts. *)
Definition py_str (rt : Runtime) (v : pyval) : string :=
  match v with
  | VStr s => s
  | _ => py_repr rt v
  end.

(** ** The [json] module

    [json.dumps] with its defaults ([ensure_ascii], separators [", "] and
    [": "], [allow_nan]) and [json.loads].  Both work on lists of
    characters. *)

Local Open Scope list_scope.

Definition escape_char (c : ascii) : list ascii :=
  if Ascii.eqb c DQ then ["\"%char; DQ]
  else if Ascii.eqb c "\" then ["\"; "\"]%char
  else if Ascii.eqb c LF then ["\"; "n"]%char
  else if Ascii.eqb c CR then ["\"; "r"]%char
  else if Ascii.eqb c TAB then ["\"; "t"]%char
  else if Ascii.eqb c BS then ["\"; "b"]%char
  else if Ascii.eqb c FF then ["\"; "f"]%char
  else if ((32 <=? ord c) && (ord c <=? 126))%nat then [c]
  else ["\"%char; "u"%char; "0"%char; "0"%char;
        hex_digit (ord c / 16); hex_digit (ord c mod 16)].

(** [py_encode_basestring_ascii]: the text between double quotes, every
    character outside the printable ASCII range escaped. *)
Definition encode_basestring_ascii (s : string) : list ascii :=
  DQ :: flat_map escape_char (chars s) ++ [DQ].

(** [floatstr]: the three special floats have names, the others their
    [repr]. *)
Definition floatstr (rt : Runtime) (f : float) : string :=
  if float_isnan f then "NaN"
  else if PrimFloat.eqb f infinity then "Infinity"
  else if PrimFloat.eqb f neg_infinity then "-Infinity"
  else float_repr rt f.

(** The decimal text of an [int] inside the encoder: an [int] of more than
    [max_str_digits] digits has none. *)
Definition int_text (z : Z) : result string :=
  if int_fits z then Ok (str_of_Z z)
  else Raise (Exn ValueError
                "Exceeds the limit (4300 digits) for integer string conversion; use sys.set_int_max_str_digits() to increase the limit").

(** A dictionary key is written as a string. *)
Definition encode_key (rt : Runtime) (k : pyval) : result (list ascii) :=
  match k with
  | VStr s => Ok (encode_basestring_ascii s)
  | VFloat f => Ok (encode_basestring_ascii (floatstr rt f))
  | VBool true => Ok (encode_basestring_ascii "true")
  | VBool false => Ok (encode_basestring_ascii "false")
  | VNone => Ok (encode_basestring_ascii "null")
  | VInt z => t <- int_text z ;; Ok (encode_basestring_ascii t)
  | _ => Raise (Exn TypeError
                  ("keys must be str, int, float, bool or None, not "
                   ++ type_name k)%string)
  end.

Definition sep_item : list ascii := chars ", ".
Definition sep_key : list ascii := chars ": ".

(** The items of a list and the members of a dictionary, separated by
    [sep_item]; [enc] writes one value. *)
Definition encode_items (enc : pyval -> result (list ascii))
  : bool -> list pyval -> result (list ascii) :=
  fix items (first : bool) (l : list pyval) : result (list ascii) :=
    match l with
    | [] => Ok []
    | x :: r =>
        a <- enc x ;;
        b <- items false r ;;
        Ok ((if first then [] else sep_item) ++ a ++ b)
    end.

Definition encode_members (enck enc : pyval -> result (list ascii))
  : bool -> list (pyval * pyval) -> result (list ascii) :=
  fix members (first : bool) (d : list (pyval * pyval))
    : result (list ascii) :=
    match d with
    | [] => Ok []
    | kv :: r =>
        ek <- enck (fst kv) ;;
        a <- enc (snd kv) ;;
        b <- members false r ;;
        Ok ((if first then [] else sep_item) ++ ek ++ sep_key ++ a ++ b)
    end.

Fixpoint encode (rt : Runtime) (v : pyval) : result (list ascii) :=
  match v with
  | VNone => Ok (chars "null")
  | VBool true => Ok (chars "true")
  | VBool false => Ok (chars "false")
  | VInt z => t <- int_text z ;; Ok (chars t)
  | VFloat f => Ok (chars (floatstr rt f))
  | VStr s => Ok (encode_basestring_ascii s)
  | VList l | VTuple l =>
      b <- encode_items (encode rt) true l ;; Ok ("["%char :: b ++ ["]"%char])
  | VDict d =>
      b <- encode_members (encode_key rt) (encode rt) true d ;;
      Ok ("{"%char :: b ++ ["}"%char])
  | _ => Raise (Exn TypeError
                  ("Object of type " ++ type_name v
                   ++ " is not JSON serializable")%string)
  end.

(** [json.dumps(v)] *)
Definition json_dumps (rt : Runtime) (v : pyval) : result string :=
  l <- encode rt v ;; Ok (str l).

(** *** The decoder *)

Definition decode_error (msg : string) : exn := Exn JSONDecodeError msg.

Definition is_ws (c : ascii) : bool :=
  Ascii.eqb c " " || Ascii.eqb c TAB || Ascii.eqb c LF || Ascii.eqb c CR.

Fixpoint skip_ws (l : list ascii) : list ascii :=
  match l with
  | c :: r => if is_ws c then skip_ws r else l
  | [] => []
  end.

Definition is_digit (c : ascii) : bool :=
  ((48 <=? ord c) && (ord c <=? 57))%nat.

Definition hex_value (c : ascii) : option N :=
  let n := N_of_ascii c in
  if ((48 <=? n) && (n <=? 57))%N then Some (n - 48)%N
  else if ((97 <=? n) && (n <=? 102))%N then Some (n - 87)%N
  else if ((65 <=? n) && (n <=? 70))%N then Some (n - 55)%N
  else None.

(** The character after a backslash, other than [u]. *)
Definition simple_escape (c : ascii) : option ascii :=
  if Ascii.eqb c DQ then Some DQ
  else if Ascii.eqb c "\" then Some "\"%char
  else if Ascii.eqb c "/" then Some "/"%char
  else if Ascii.eqb c "b" then Some BS
  else if Ascii.eqb c "f" then Some FF
  else if Ascii.eqb c "n" then Some LF
  else if Ascii.eqb c "r" then Some CR
  else if Ascii.eqb c "t" then Some TAB
  else None.

(** A code point as a character of the model: those above 255 have no
    character here and are replaced by a question mark, as encoding to
    Latin-1 with replacement does. *)
Definition latin1 (cp : N) : ascii :=
  if (cp <? 256)%N then ascii_of_N cp else "?"%char.

Definition is_high_surrogate (cp : N) : bool :=
  ((55296 <=? cp) && (cp <=? 56319))%N.
Definition is_low_surrogate (cp : N) : bool :=
  ((56320 <=? cp) && (cp <=? 57343))%N.

(** Where the string scanner is: in plain text, after a backslash, or
    inside a [\uXXXX] escape with [k + 1] digits to read and the value
    [acc] so far. *)
Inductive scan_mode : Type :=
| Plain
| Esc
| Hex (k : nat) (acc : N).

(** A high surrogate waits for a low one ([pend]); alone, it is one code
    point above 255. *)
Definition flush (pend : bool) (l : list ascii) : list ascii :=
  if pend then "?"%char :: l else l.

Definition emit (pend : bool) (c : ascii)
  (k : result (list ascii * list ascii)) : result (list ascii * list ascii) :=
  '(s, r) <- k ;; Ok (flush pend (c :: s), r).

(** [scanstring] (strict), from the character after the opening quote:
    the text up to the closing quote, and what follows it. *)
Fixpoint scanstring (m : scan_mode) (pend : bool) (l : list ascii)
  : result (list ascii * list ascii) :=
  match l with
  | [] => Raise (decode_error "Unterminated string starting at")
  | c :: r =>
      match m with
      | Plain =>
          if Ascii.eqb c DQ then Ok (flush pend [], r)
          else if Ascii.eqb c "\" then scanstring Esc pend r
          else if (ord c <? 32)%nat
               then Raise (decode_error "Invalid control character at")
               else emit pend c (scanstring Plain false r)
      | Esc =>
          if Ascii.eqb c "u" then scanstring (Hex 3 0) pend r
          else match simple_escape c with
               | Some x => emit pend x (scanstring Plain false r)
               | None => Raise (decode_error "Invalid \escape")
               end
      | Hex k acc =>
          match hex_value c with
          | None => Raise (decode_error "Invalid \uXXXX escape")
          | Some d =>
              let cp := (16 * acc + d)%N in
              match k with
              | S k' => scanstring (Hex k' cp) pend r
              | O =>
                  if pend && is_low_surrogate cp
                  then emit false "?"%char (scanstring Plain false r)
                  else if is_high_surrogate cp
                  then '(s, r') <- scanstring Plain true r ;;
                       Ok (flush pend s, r')
                  else emit pend (latin1 cp) (scanstring Plain false r)
              end
          end
      end
  end.

Fixpoint span_digits (l : list ascii) : list ascii * list ascii :=
  match l with
  | c :: r =>
      if is_digit c
      then let (ds, r') := span_digits r in (c :: ds, r')
      else ([], l)
  | [] => ([], [])
  end.

(** [int(text)] on a run of decimal digits. *)
Definition int_of_digits (ds : list ascii) : Z :=
  match DecimalString.NilEmpty.uint_of_string (str ds) with
  | Some u => Z.of_uint u
  | None => 0
  end.

(** The integer part of a number, from its first digit [d]: [0] alone, or
    a run of digits. *)
Definition int_part (d : ascii) (r : list ascii) : list ascii * list ascii :=
  if Ascii.eqb d "0" then ([d], r) else span_digits (d :: r).

(** The fraction: a point and at least one digit, or nothing. *)
Definition frac_part (r1 : list ascii) : list ascii * list ascii :=
  match r1 with
  | c :: r' =>
      if Ascii.eqb c "." then
        match span_digits r' with
        | ([], _) => ([], r1)
        | (fs, r'') => (c :: fs, r'')
        end
      else ([], r1)
  | [] => ([], r1)
  end.

(** The exponent: [e] or [E], an optional sign and at least one digit, or
    nothing. *)
Definition exp_part (r2 : list ascii) : list ascii * list ascii :=
  match r2 with
  | c :: r' =>
      if Ascii.eqb c "e" || Ascii.eqb c "E" then
        let (sign, r'') :=
          match r' with
          | s :: t =>
              if Ascii.eqb s "+" || Ascii.eqb s "-"
              then ([s], t) else ([], r')
          | [] => ([], r')
          end in
        match span_digits r'' with
        | ([], _) => ([], r2)
        | (es, r3) => (c :: sign ++ es, r3)
        end
      else ([], r2)
  | [] => ([], r2)
  end.

(** The number pattern: an optional minus sign, the integer part, then an
    optional fraction and an optional exponent.  Without fraction and
    exponent the literal is an [int], otherwise a [float]. *)
Definition scan_number (rt : Runtime) (l : list ascii)
  : option (pyval * list ascii) :=
  let (neg, l1) :=
    match l with
    | c :: r => if Ascii.eqb c "-" then (true, r) else (false, l)
    | [] => (false, l)
    end in
  match l1 with
  | d :: r =>
      if is_digit d then
        let (ds, r1) := int_part d r in
        let (frac, r2) := frac_part r1 in
        let (ex, r3) := exp_part r2 in
        match frac, ex with
        | [], [] =>
            let z := int_of_digits ds in
            Some (VInt (if neg then - z else z), r3)
        | _, _ =>
            let text := (if neg then ["-"%char] else []) ++ ds ++ frac ++ ex in
            Some (VFloat (float_of_literal rt (str text)), r3)
        end
      else None
  | [] => None
  end.

(** [int(text)] refuses an integer literal of more than [max_str_digits]
    digits; a JSON integer has no leading zeros, so the digits of the
    literal are those of its value. *)
Definition int_limit (res : pyval * list ascii)
  : result (pyval * list ascii) :=
  match fst res with
  | VInt z =>
      if int_fits z then Ok res
      else Raise (Exn ValueError
                    ("Exceeds the limit (4300 digits) for integer string conversion: value has "
                     ++ str_of_Z (int_digits z)
                     ++ " digits; use sys.set_int_max_str_digits() to increase the limit"))
  | _ => Ok res
  end.

(** [l] without the prefix [p], when it starts with it. *)
Fixpoint drop_prefix (p l : list ascii) : option (list ascii) :=
  match p, l with
  | [], _ => Some l
  | a :: p', b :: l' => if Ascii.eqb a b then drop_prefix p' l' else None
  | _ :: _, [] => None
  end.

Definition expecting_value : exn := decode_error "Expecting value".

(** [scan_once], [JSONArray] and [JSONObject].  [fuel] bounds the calls,
    every one of which follows at least one character read by a caller two
    steps up; [json_loads] gives enough.  [JSONArray] starts at the first
    character of an element, [JSONObject] at the opening quote of a key. *)
Fixpoint scan_once (rt : Runtime) (fuel : nat) (l : list ascii)
  {struct fuel} : result (pyval * list ascii) :=
  match fuel with
  | O => Raise (Exn RecursionError "maximum recursion depth exceeded")
  | S n =>
      match l with
      | [] => Raise expecting_value
      | c :: r =>
          if Ascii.eqb c DQ then
            '(s, r') <- scanstring Plain false r ;; Ok (VStr (str s), r')
          else if Ascii.eqb c "{" then
            match skip_ws r with
            | c' :: r' =>
                if Ascii.eqb c' "}" then Ok (VDict [], r')
                else '(kvs, r'') <- JSONObject rt n (c' :: r') ;;
                     Ok (VDict (dict_of_pairs kvs), r'')
            | [] => Raise (decode_error
                             "Expecting property name enclosed in double quotes")
            end
          else if Ascii.eqb c "[" then
            match skip_ws r with
            | c' :: r' =>
                if Ascii.eqb c' "]" then Ok (VList [], r')
                else '(vs, r'') <- JSONArray rt n (c' :: r') ;;
                     Ok (VList vs, r'')
            | [] => Raise expecting_value
            end
          else
            match drop_prefix (chars "null") l with
            | Some r' => Ok (VNone, r')
            | None =>
            match drop_prefix (chars "true") l with
            | Some r' => Ok (VBool true, r')
            | None =>
            match drop_prefix (chars "false") l with
            | Some r' => Ok (VBool false, r')
            | None =>
            match scan_number rt l with
            | Some res => int_limit res
            | None =>
            match drop_prefix (chars "NaN") l with
            | Some r' => Ok (VFloat nan, r')
            | None =>
            match drop_prefix (chars "Infinity") l with
            | Some r' => Ok (VFloat infinity, r')
            | None =>
            match drop_prefix (chars "-Infinity") l with
            | Some r' => Ok (VFloat neg_infinity, r')
            | None => Raise expecting_value
            end end end end end end end
      end
  end

with JSONArray (rt : Runtime) (fuel : nat) (l : list ascii)
  {struct fuel} : result (list pyval * list ascii) :=
  match fuel with
  | O => Raise (Exn RecursionError "maximum recursion depth exceeded")
  | S n =>
      '(v, r) <- scan_once rt n l ;;
      match skip_ws r with
      | c :: r' =>
          if Ascii.eqb c "]" then Ok ([v], r')
          else if Ascii.eqb c "," then
            '(vs, r'') <- JSONArray rt n (skip_ws r') ;; Ok (v :: vs, r'')
          else Raise (decode_error "Expecting ',' delimiter")
      | [] => Raise (decode_error "Expecting ',' delimiter")
      end
  end

with JSONObject (rt : Runtime) (fuel : nat) (l : list ascii)
  {struct fuel} : result (list (pyval * pyval) * list ascii) :=
  match fuel with
  | O => Raise (Exn RecursionError "maximum recursion depth exceeded")
  | S n =>
      match l with
      | c :: r =>
          if Ascii.eqb c DQ then
            '(k, r1) <- scanstring Plain false r ;;
            match skip_ws r1 with
            | c1 :: r2 =>
                if Ascii.eqb c1 ":" then
                  '(v, r3) <- scan_once rt n (skip_ws r2) ;;
                  match skip_ws r3 with
                  | c3 :: r4 =>
                      if Ascii.eqb c3 "}" then Ok ([(VStr (str k), v)], r4)
                      else if Ascii.eqb c3 "," then
                        '(kvs, r5) <- JSONObject rt n (skip_ws r4) ;;
                        Ok ((VStr (str k), v) :: kvs, r5)
                      else Raise (decode_error "Expecting ',' delimiter")
                  | [] => Raise (decode_error "Expecting ',' delimiter")
                  end
                else Raise (decode_error "Expecting ':' delimiter")
            | [] => Raise (decode_error "Expecting ':' delimiter")
            end
          else Raise (decode_error
                        "Expecting property name enclosed in double quotes")
      | [] => Raise (decode_error
                       "Expecting property name enclosed in double quotes")
      end
  end.

(** [json.loads(s)]: one value between optional white space, and nothing
    after it. *)
Definition json_loads (rt : Runtime) (s : string) : result pyval :=
  let l := skip_ws (chars s) in
  '(v, r) <- scan_once rt (2 * List.length l + 2) l ;;
  match skip_ws r with
  | [] => Ok v
  | _ => Raise (decode_error "Extra data")
  end.

Local Open Scope string_scope.

(** ** The outside world of app.py

    The environment, the file system, the two hosted services.  The chain
    [prompt | llm] is one oracle from the artisan's note to the text of the
    reply ([result.content]) or to the exception raised on the way. *)
Record World : Type := {
  getenv : string -> option string;
  path_exists : string -> bool;
  fd_exists : Z -> bool;
  open_rb : string -> result string;
  requests_post : string -> string -> string -> string -> result response;
  open_wb : string -> result unit;
  file_write : string -> string -> result unit;
  chain_invoke : string -> result string
}.

(** What a tool does to the world.  [open(path, 'wb')] creates the file
    or empties it: from then on the path exists, whether or not the write
    that follows succeeds. *)
Inductive event : Type :=
| HttpPost (url filename body api_key : string)
| FileOpened (path : string)
| FileWritten (path body : string)
| LlmInvoked (note : string).

Definition is_network (e : event) : bool :=
  match e with
  | HttpPost _ _ _ _ | LlmInvoked _ => true
  | FileOpened _ | FileWritten _ _ => false
  end.

(** [{"error": msg}] and [{"processed_image_path": p}] *)
Definition error_record (msg : string) : pyval :=
  VDict [(VStr "error", VStr msg)].

Definition processed_record (p : string) : pyval :=
  VDict [(VStr "processed_image_path", VStr p)].

(** [response.raise_for_status()] *)
Definition raise_for_status (r : response) : result unit :=
  if ((400 <=? status_code r) && (status_code r <? 600))%Z
  then Raise (MkExn HTTPError "HTTP error" (Some r))
  else Ok tt.

Definition clipdrop_url : string :=
  "https://clipdrop-api.co/remove-background/v1".

Definition invalid_key_message : string :=
  "Clipdrop API Error: Invalid API Key. Please re-copy the key from the official website and paste it in the sidebar.".

(** The body of the [try] of [remove_background]. *)
Definition remove_background_try (w : World) (rt : Runtime)
  (api_key image_path : string) : list event * result string :=
  if negb (path_exists w image_path) then
    ([], json_dumps rt
           (error_record
              ("The file path '" ++ image_path ++ "' does not exist.")))
  else
    match open_rb w image_path with
    | Raise e => ([], Raise e)
    | Ok f =>
        let post := HttpPost clipdrop_url (basename image_path) f api_key in
        match requests_post w clipdrop_url (basename image_path) f api_key with
        | Raise e => ([post], Raise e)
        | Ok resp =>
            match raise_for_status resp with
            | Raise e => ([post], Raise e)
            | Ok _ =>
                let processed_filename := "processed_" ++ basename image_path in
                let processed_path :=
                  path_join "temp_uploads" processed_filename in
                match open_wb w processed_path with
                | Raise e => ([post], Raise e)
                | Ok _ =>
                    let opened := FileOpened processed_path in
                    match file_write w processed_path (content resp) with
                    | Raise e => ([post; opened], Raise e)
                    | Ok _ =>
                        ([post; opened;
                          FileWritten processed_path (content resp)],
                         json_dumps rt (processed_record processed_path))
                    end
                end
            end
        end
    end.

(** The two handlers of [remove_background]. *)
Definition remove_background_except (rt : Runtime) (e : exn) : result string :=
  if issubclass (exn_cls e) HTTPError then
    match exn_response e with
    | Some r =>
        if ((status_code r =? 401) || (status_code r =? 403))%Z
        then json_dumps rt (error_record invalid_key_message)
        else json_dumps rt
               (error_record
                  ("Clipdrop API Error: " ++ str_of_Z (status_code r)
                   ++ " - " ++ text r))
    | None =>
        Raise (Exn AttributeError
                 "'NoneType' object has no attribute 'status_code'")
    end
  else
    json_dumps rt
      (error_record
         ("An unexpected error occurred during background removal: "
          ++ exn_msg e)).

(** [remove_background(image_path)]: a JSON string with
    ['processed_image_path'] on success or ['error'] on failure. *)
Definition remove_background (w : World) (rt : Runtime) (image_path : string)
  : list event * result string :=
  match getenv w "CLIPDROP_API_KEY" with
  | Some (String c k) =>
      let api_key := String c k in
      match remove_background_try w rt api_key image_path with
      | (evs, Ok s) => (evs, Ok s)
      | (evs, Raise e) => (evs, remove_background_except rt e)
      end
  | _ =>
      ([], json_dumps rt
             (error_record
                "Clipdrop API Key is missing. Please add it in the sidebar."))
  end.

(** [generate_creative_content(artisan_note)]: the reply of the model
    without its code fences, or a JSON string with ['error']. *)
Definition generate_creative_content (w : World) (rt : Runtime)
  (artisan_note : string) : list event * result string :=
  ([LlmInvoked artisan_note],
   match chain_invoke w artisan_note with
   | Ok reply =>
       let cleaned_result :=
         replace "```" "" (replace "```json" "" (strip reply)) in
       Ok cleaned_result
   | Raise e =>
       json_dumps rt
         (error_record ("Error generating creative content: " ++ exn_msg e))
   end).

(** ** The page of app.py *)

(** A text handed to a widget: a literal, or [f"{prefix}{v:.2f}"], whose
    digits are the float formatter's and are not computed here. *)
Inductive rendered : Type :=
| Lit (s : string)
| Fmt2f (prefix : string) (v : pyval).

(** The widget calls of the page, in the order they are made (pictographs
    in the labels are left out). *)
Inductive ui : Type :=
| StatusWrite (s : string)
| StatusWarning (s : string)
| StatusUpdate (label state : string)
| Subheader (s : string)
| Markdown (s : string)
| Error (s : string)
| Warning (s : string)
| Info (t : rendered)
| Image (path : pyval) (caption : string)
| Metric (label : string) (value : rendered)
| Write (v : pyval)
| Code (v : pyval).

(** What a run of the page has mutated so far: the [final_results]
    dictionary, the widgets drawn, the effects of the tools. *)
Record state : Type := {
  final_results : dict;
  screen : list ui;
  effects : list event
}.

(** A statement of the page: it changes the state and returns or raises;
    the changes made before an exception stay. *)
Definition M (A : Type) : Type := state -> state * result A.

Definition ret {A : Type} (a : A) : M A := fun s => (s, Ok a).

Definition bindM {A B : Type} (m : M A) (k : A -> M B) : M B :=
  fun s =>
    match m s with
    | (s', Ok a) => k a s'
    | (s', Raise e) => (s', Raise e)
    end.

Declare Scope M_scope.
Delimit Scope M_scope with M.
Notation "x <- m ;; k" := (bindM m (fun x => k))
  (at level 61, m at next level, right associativity) : M_scope.
Notation "m ;; k" := (bindM m (fun _ => k))
  (at level 61, right associativity) : M_scope.

Definition lift {A : Type} (r : result A) : M A := fun s => (s, r).

Definition draw (u : ui) : M unit :=
  fun s => ({| final_results := final_results s;
               screen := (screen s ++ [u])%list;
               effects := effects s |}, Ok tt).

(** A call of a tool: its effects are recorded, its result passed on. *)
Definition call {A : Type} (t : list event * result A) : M A :=
  fun s => ({| final_results := final_results s;
               screen := screen s;
               effects := (effects s ++ fst t)%list |}, snd t).

(** [final_results[k] = v] *)
Definition setitem (k : string) (v : pyval) : M unit :=
  fun s => ({| final_results := dict_set (VStr k) v (final_results s);
               screen := screen s;
               effects := effects s |}, Ok tt).

(** [final_results.update(v)] *)
Definition update (v : pyval) : M unit :=
  fun s =>
    let (d, r) := dict_update (final_results s) v in
    ({| final_results := d; screen := screen s; effects := effects s |}, r).

(** [try: body except Exception as e: handler(e)] *)
Definition try_except {A : Type} (body : M A) (handler : exn -> M A) : M A :=
  fun s =>
    match body s with
    | (s', Ok a) => (s', Ok a)
    | (s', Raise e) => handler e s'
    end.

(** A file created earlier in the run. *)
Definition written (p : string) (evs : list event) : bool :=
  existsb (fun e => match e with
                    | FileOpened q | FileWritten q _ => String.eqb p q
                    | _ => false
                    end) evs.

(** [os.path.exists(v)], after the effects [evs]. *)
Definition os_path_exists (w : World) (evs : list event) (v : pyval)
  : result bool :=
  match v with
  | VStr p | VBytes p => Ok (path_exists w p || written p evs)
  | VInt fd => Ok (fd_exists w fd)
  | VBool b => Ok (fd_exists w (if b then 1 else 0)%Z)
  | _ => Raise (Exn TypeError
                  ("stat: path should be string, bytes, os.PathLike or integer, not "
                   ++ type_name v))
  end.

(** [' '.join(l)]: every item must be a [str]. *)
Fixpoint str_items (l : list pyval) : result (list string) :=
  match l with
  | [] => Ok []
  | VStr s :: r => t <- str_items r ;; Ok (s :: t)
  | v :: _ =>
      Raise (Exn TypeError
               ("sequence item: expected str instance, " ++ type_name v
                ++ " found"))
  end.

(** The largest magnitude an [int] may have to be converted to a float:
    from [2^1024 - 2^970] on, rounding to nearest gives no finite float. *)
Definition float_limit : Z := (2 ^ 1024 - 2 ^ 970)%Z.

(** [f"{prefix}{v:.2f}"]: a float is formatted whatever it is, a [bool] or
    an [int] is converted to a float first, which a large [int] does not
    allow; the other types do not take the format. *)
Definition format_2f (prefix : string) (v : pyval) : result rendered :=
  match v with
  | VFloat _ | VBool _ | VComplex _ _ => Ok (Fmt2f prefix v)
  | VInt z =>
      if (Z.abs z <? float_limit)%Z then Ok (Fmt2f prefix v)
      else Raise (Exn OverflowError "int too large to convert to float")
  | VStr _ =>
      Raise (Exn ValueError "Unknown format code 'f' for object of type 'str'")
  | _ =>
      Raise (Exn TypeError
               ("unsupported format string passed to " ++ type_name v
                ++ ".__format__"))
  end.

(** The pricing block of [display_results]. *)
Definition display_pricing (results : dict) (user_price : float) : M unit :=
  let ai_price := get_or_none "price" results in
  (draw (Markdown "##### Pricing") ;;
   if PrimFloat.ltb 0 user_price then
     value <- lift (format_2f "Rs " (VFloat user_price)) ;;
     draw (Metric "Your Selling Price" value) ;;
     if isinstance_int_float ai_price then
       suggestion <- lift (format_2f "AI Suggestion: Rs " ai_price) ;;
       draw (Info suggestion)
     else ret tt
   else if isinstance_int_float ai_price then
     value <- lift (format_2f "Rs" ai_price) ;;
     draw (Metric "AI Recommended Price" value)
   else
     draw (Metric "Recommended Price" (Lit "N/A")))%M.

(** The left column of [display_results]: the enhanced photo, or the
    original one; [original_image_path] is the path kept in the session. *)
Definition display_photo (w : World) (rt : Runtime)
  (original_image_path : string) (results : dict) : M unit :=
  (draw (Markdown "##### Enhanced Photo") ;;
   if dict_has (VStr "error_bg_removal") results then
     draw (Error ("Background Removal Failed: "
                  ++ py_str rt (get_or_none "error_bg_removal" results))) ;;
     draw (Image (VStr original_image_path) "Original Image (Unprocessed)")
   else
     let processed_path := get_or_none "processed_image_path" results in
     found <- (fun s => lift (if truthy processed_path
                              then os_path_exists w (effects s) processed_path
                              else Ok false) s) ;;
     if found then draw (Image processed_path "Background Removed")
     else
       draw (Warning "Could not locate the processed image.") ;;
       draw (Image (VStr original_image_path) "Original Image"))%M.

(** The right column: price, story, hashtags, URL. *)
Definition display_details (results : dict) (user_price : float) : M unit :=
  (display_pricing results user_price ;;
   draw (Markdown "---") ;;
   draw (Write (get_default "description"
                  (VStr "Creative content generation failed.") results)) ;;
   (let hashtags := get_or_none "hashtags" results in
    match hashtags with
    | VList l =>
        if truthy hashtags then
          draw (Markdown "##### Social Media Hashtags") ;;
          items <- lift (str_items l) ;;
          draw (Info (Lit (join " " items)))
        else ret tt
    | _ => ret tt
    end) ;;
   draw (Markdown "##### Mock URL") ;;
   draw (Code (get_default "mock_url" (VStr "N/A") results)))%M.

(** [display_results(results, user_price)] *)
Definition display_results (w : World) (rt : Runtime)
  (original_image_path : string) (results : dict) (user_price : float)
  : M unit :=
  (draw (Subheader "Your Professional Listing is Ready!") ;;
   display_photo w rt original_image_path results ;;
   display_details results user_price)%M.

(** The mock URL of the finalisation step:
    [f".../product_{str(hash(artisan_note))[:6]}"]. *)
Definition mock_url (rt : Runtime) (artisan_note : string) : string :=
  "https://kalasahayk.com/gallery/artisan123/product_"
  ++ str_take 6 (str_of_Z (str_hash rt artisan_note)).

(** Task 1 of [main]. *)
Definition task_photo (w : World) (rt : Runtime)
  (original_image_path : string) : M unit :=
  (draw (StatusWrite "Task 1: Enhancing product photo...") ;;
   bg_result_str <- call (remove_background w rt original_image_path) ;;
   bg_result <- lift (json_loads rt bg_result_str) ;;
   failed <- lift (str_in "error" bg_result) ;;
   if failed then
     draw (StatusWarning "Photo enhancement failed.") ;;
     setitem "processed_image_path" (VStr original_image_path) ;;
     msg <- lift (getitem_str bg_result "error") ;;
     setitem "error_bg_removal" msg
   else
     draw (StatusWrite "Photo enhanced successfully.") ;;
     p <- lift (getitem_str bg_result "processed_image_path") ;;
     setitem "processed_image_path" p)%M.

(** What Task 2 puts in place of the content when the tool reports an
    error. *)
Definition content_fallback : dict :=
  [(VStr "description", VStr "N/A"); (VStr "hashtags", VList []);
   (VStr "price", VInt 0)].

(** Task 2 of [main]. *)
Definition task_content (w : World) (rt : Runtime) (artisan_note : string)
  : M unit :=
  (draw (StatusWrite "Task 2: Crafting product story, hashtags, and price...") ;;
   content_result_str <- call (generate_creative_content w rt artisan_note) ;;
   content_result <- lift (json_loads rt content_result_str) ;;
   failed <- lift (str_in "error" content_result) ;;
   if failed then
     draw (StatusWarning "Content generation failed.") ;;
     update (VDict content_fallback)
   else
     draw (StatusWrite "Creative content generated.") ;;
     update content_result)%M.

(** Task 3 of [main]. *)
Definition task_finalize (rt : Runtime) (artisan_note : string) : M unit :=
  (draw (StatusWrite "Task 3: Finalizing listing...") ;;
   setitem "mock_url" (VStr (mock_url rt artisan_note)) ;;
   draw (StatusUpdate "Orchestration Complete!" "complete"))%M.

(** The handler of the [try] of [main]. *)
Definition workflow_failed (e : exn) : M unit :=
  (draw (StatusUpdate "Workflow Failed!" "error") ;;
   draw (Error ("A critical error occurred: " ++ exn_msg e)))%M.

(** The [try] of [main] with its handler. *)
Definition orchestrate (w : World) (rt : Runtime)
  (original_image_path artisan_note : string) : M unit :=
  try_except
    (task_photo w rt original_image_path ;;
     task_content w rt artisan_note ;;
     task_finalize rt artisan_note)%M
    workflow_failed.

Definition empty_state : state :=
  {| final_results := []; screen := []; effects := [] |}.

(** An environment variable that is set and not empty. *)
Definition env_set (w : World) (name : string) : bool :=
  match getenv w name with
  | Some (String _ _) => true
  | _ => false
  end.

(** [main] once a photo is uploaded and the button pressed.  Without the
    two keys the page stops at a warning; without a note there is no button;
    otherwise the three tasks run, and the listing is shown if
    [final_results] is not empty. *)
Definition main (w : World) (rt : Runtime)
  (original_image_path artisan_note : string) (user_price : float)
  : state * result unit :=
  if negb (env_set w "GOOGLE_API_KEY" && env_set w "CLIPDROP_API_KEY") then
    draw (Warning "Please enter your API keys in the sidebar to begin.")
      empty_state
  else if String.eqb artisan_note "" then (empty_state, Ok tt)
  else
    (draw (Subheader "2. AI Co-pilot at Work") ;;
     orchestrate w rt original_image_path artisan_note ;;
     draw (Markdown "---") ;;
     fun s =>
       match final_results s with
       | [] => ret tt s
       | _ => display_results w rt original_image_path (final_results s)
                user_price s
       end)%M empty_state.

(** ** The tools of crew_mvp.py *)

Definition required_keys : list string :=
  ["artisan_id"; "enhanced_image_path"; "description"; "hashtags"; "price"].

Definition missing_keys_message (rt : Runtime) : string :=
  "Error: The parsed dictionary is missing one of the required keys: "
  ++ py_repr rt (VList (map VStr required_keys)).

(** [consolidate_data(data_string)] *)
Definition consolidate_data (rt : Runtime) (data_string : string)
  : result string :=
  let parsed : result dict :=
    data <- literal_eval rt data_string ;;
    match data with
    | VDict d => Ok d
    | _ => Raise (Exn TypeError "Input is not a dictionary.")
    end in
  match parsed with
  | Raise e =>
      if issubclass (exn_cls e) ValueError
         || issubclass (exn_cls e) SyntaxError
         || issubclass (exn_cls e) TypeError
      then Ok ("Error: Input is not a valid Python dictionary string. Details: "
               ++ exn_msg e)
      else Raise e
  | Ok data =>
      if negb (forallb (fun key => dict_has (VStr key) data) required_keys)
      then Ok (missing_keys_message rt)
      else json_dumps rt (VDict data)
  end.

(** [data.get(k, default)]: only a dictionary has the method. *)
Definition py_get (data : pyval) (k : string) (default : pyval)
  : result pyval :=
  match data with
  | VDict d => Ok (get_default k default d)
  | _ => Raise (Exn AttributeError
                  ("'" ++ type_name data ++ "' object has no attribute 'get'"))
  end.

Definition gallery_url (artisan_id : string) (product_id : Z) : string :=
  "https://www.kalasahayk.com/gallery/" ++ artisan_id ++ "/product"
  ++ str_of_Z product_id.

(** The [try] of [publish_to_web_gallery]; the data are serialised once
    more for the log line. *)
Definition publish_try (rt : Runtime) (final_product_json : string)
  : result string :=
  data <- json_loads rt final_product_json ;;
  artisan_id <- py_get data "artisan_id" (VStr "unknown_artisan") ;;
  description <- py_get data "description" (VStr "") ;;
  h <- py_hash rt description ;;
  let product_id := (h mod 10000)%Z in
  let public_url := gallery_url (py_str rt artisan_id) product_id in
  _ <- json_dumps rt data ;;
  Ok ("SUCCESS: Product live at " ++ public_url).

(** [publish_to_web_gallery(final_product_json)] *)
Definition publish_to_web_gallery (rt : Runtime) (final_product_json : string)
  : string :=
  match publish_try rt final_product_json with
  | Ok s => s
  | Raise e => "Error publishing: " ++ exn_msg e
  end.

(** ** Classes of values used in the statements *)

Definition is_str (v : pyval) : bool :=
  match v with VStr _ => true | _ => false end.

(** No key of the dictionary occurs twice. *)
Fixpoint distinct_keys (d : dict) : bool :=
  match d with
  | [] => true
  | (k, _) :: r => negb (dict_has k r) && distinct_keys r
  end.

(** The runtime prints the float [f] as a number literal that reads back
    as [f].  CPython does so for every finite float. *)
Definition float_literal (rt : Runtime) (f : float) : Prop :=
  scan_number rt (chars (floatstr rt f)) = Some (VFloat f, []).

(** The values that JSON has a form of its own for: [None], booleans,
    integers within the limit on digits, floats printed as above, strings,
    lists of such values, and dictionaries from distinct strings to such
    values. *)
Fixpoint json_native (rt : Runtime) (v : pyval) : Prop :=
  match v with
  | VNone | VBool _ | VStr _ => True
  | VInt z => int_fits z = true
  | VFloat f => float_literal rt f
  | VList l =>
      (fix all (l : list pyval) : Prop :=
         match l with
         | [] => True
         | x :: r => json_native rt x /\ all r
         end) l
  | VDict d =>
      (fix all (d : list (pyval * pyval)) : Prop :=
         match d with
         | [] => True
         | kv :: r =>
             (is_str (fst kv) = true /\ json_native rt (snd kv)) /\ all r
         end) d
      /\ distinct_keys d = true
  | _ => False
  end.

(** The values [json.loads] can return: as above, with any float, and
    without the condition on the keys being distinct. *)
Fixpoint json_shaped (v : pyval) : bool :=
  match v with
  | VNone | VBool _ | VFloat _ | VStr _ => true
  | VInt z => int_fits z
  | VList l => forallb json_shaped l
  | VDict d => forallb (fun kv => is_str (fst kv) && json_shaped (snd kv)) d
  | _ => false
  end.

(** The string [json.dumps] writes a key as, and the value it writes a
    value as: a tuple is written as a list is. *)
Definition key_as_json (rt : Runtime) (k : pyval) : pyval :=
  match k with
  | VInt z => VStr (str_of_Z z)
  | VFloat f => VStr (floatstr rt f)
  | VBool true => VStr "true"
  | VBool false => VStr "false"
  | VNone => VStr "null"
  | _ => k
  end.

Fixpoint as_json (rt : Runtime) (v : pyval) : pyval :=
  match v with
  | VList l | VTuple l => VList (map (as_json rt) l)
  | VDict d =>
      VDict (map (fun kv => (key_as_json rt (fst kv), as_json rt (snd kv))) d)
  | _ => v
  end.

(** What the decoder raises: a [JSONDecodeError], or the [ValueError] of
    an integer literal with too many digits. *)
Definition decoder_error (e : exn) : Prop :=
  exn_cls e = JSONDecodeError \/ exn_cls e = ValueError.

(** What may follow a value inside a JSON text written by [encode]: the
    end, a comma, or a closing bracket. *)
Definition follows (rest : list ascii) : bool :=
  match rest with
  | [] => true
  | c :: _ => Ascii.eqb c "," || Ascii.eqb c "]" || Ascii.eqb c "}"
  end.

(** [v] is read back from its encoding, whatever follows it, with fuel
    for twice the length of the encoding. *)
Definition reads_back (rt : Runtime) (v : pyval) : Prop :=
  forall fuel out rest,
    encode rt v = Ok out -> follows rest = true ->
    (2 * List.length out <= fuel)%nat ->
    scan_once rt fuel (out ++ rest) = Ok (v, rest).

Definition member_shaped (kv : pyval * pyval) : bool :=
  is_str (fst kv) && json_shaped (snd kv).

(** All the required keys of the consolidation step are in [d]. *)
Definition has_required_keys (d : dict) : bool :=
  forallb (fun key => dict_has (VStr key) d) required_keys.

(** ** Frame conditions on the statements of the page *)

(** [m] only adds to the screen and never removes a key of
    [final_results]. *)
Definition monotone {A : Type} (m : M A) : Prop :=
  forall s,
    (exists more, screen (fst (m s)) = (screen s ++ more)%list)
    /\ (forall k, dict_has k (final_results s) = true ->
                  dict_has k (final_results (fst (m s))) = true).

(** [m] leaves the entry of the key [k] as it is. *)
Definition leaves (k : string) {A : Type} (m : M A) : Prop :=
  forall s,
    dict_get (VStr k) (final_results (fst (m s)))
    = dict_get (VStr k) (final_results s).

(** The widgets of [screen s'] that [screen s] did not have yet. *)
Definition drawn_since (s s' : state) : list ui :=
  skipn (List.length (screen s)) (screen s').

(** [m] changes neither [final_results] nor the effects: it only draws. *)
Definition read_only {A : Type} (m : M A) : Prop :=
  forall s,
    final_results (fst (m s)) = final_results s
    /\ effects (fst (m s)) = effects s.

(** A line of the status that gives the verdict on the run, and a widget
    that shows a price: a metric, or a note made of a formatted number. *)
Definition is_verdict (u : ui) : bool :=
  match u with StatusUpdate _ _ => true | _ => false end.


(** [m] adds to the screen only widgets for which [keep] is false. *)
Definition draws_no (keep : ui -> bool) {A : Type} (m : M A) : Prop :=
  forall s,
    exists more,
      screen (fst (m s)) = (screen s ++ more)%list
      /\ filter keep more = [].

(** ** The exceptions of the world *)

(** An [HTTPError] carries the reply it was raised for, as those that
    [requests] raises do. *)
Definition carries_response (e : exn) : Prop :=
  issubclass (exn_cls e) HTTPError = true -> exn_response e <> None.

(** No call of the world raises an [HTTPError] without a reply. *)
Definition errors_carry_response (w : World) : Prop :=
  (forall p e, open_rb w p = Raise e -> carries_response e)
  /\ (forall url name body key e,
         requests_post w url name body key = Raise e -> carries_response e)
  /\ (forall p e, open_wb w p = Raise e -> carries_response e)
  /\ (forall p body e, file_write w p body = Raise e -> carries_response e).

(** ** A reference runtime and a reference world

    One runtime and one family of worlds on which the statements below are
    run: the string hash is CPython's classic unseeded one (multiply by
    1000003 and xor, on 64 bits), floats are printed by their exact decimal
    expansion and read by correct rounding, and [literal_eval] reads a fragment of the literals: [None],
    [True], [False], decimal integers and floats without exponent, quoted
    strings with the escapes of
    the backslash, the two quotes, [n] and [t], lists, tuples and
    dictionaries. *)
Module Reference.

Local Open Scope Z_scope.

Definition wrap64 (x : Z) : Z := x mod 2 ^ 64.

Definition signed64 (x : Z) : Z :=
  let y := wrap64 x in if y <? 2 ^ 63 then y else y - 2 ^ 64.

Definition classic_hash (s : string) : Z :=
  match chars s with
  | [] => 0
  | c :: _ =>
      let x0 := wrap64 (Z.shiftl (Z.of_nat (ord c)) 7) in
      let x :=
        fold_left
          (fun x c => wrap64 (Z.lxor (wrap64 (1000003 * x)) (Z.of_nat (ord c))))
          (chars s) x0 in
      let h := signed64 (Z.lxor x (Z.of_nat (String.length s))) in
      if h =? -1 then -2 else h
  end.

(** The string hash of CPython 3.3, which seeds the classic hash with two
    secrets drawn when the process starts: [prefix] before the first
    character, [suffix] after the length. *)
Definition seeded_hash (prefix suffix : Z) (s : string) : Z :=
  match chars s with
  | [] => 0
  | c :: _ =>
      let x0 := wrap64 (Z.lxor prefix (Z.shiftl (Z.of_nat (ord c)) 7)) in
      let x :=
        fold_left
          (fun x c => wrap64 (Z.lxor (wrap64 (1000003 * x)) (Z.of_nat (ord c))))
          (chars s) x0 in
      let h :=
        signed64
          (Z.lxor (Z.lxor x (Z.of_nat (String.length s))) (wrap64 suffix)) in
      if h =? -1 then -2 else h
  end.

Fixpoint drop_zeros (l : list ascii) : list ascii :=
  match l with
  | c :: r => if Ascii.eqb c "0" then drop_zeros r else l
  | [] => []
  end.

(** The exact decimal expansion of a finite float; [nan] otherwise. *)
Definition exact_repr (f : float) : string :=
  match FloatOps.Prim2SF f with
  | SpecFloat.S754_zero s => if s then "-0.0" else "0.0"
  | SpecFloat.S754_finite s m e =>
      let sign := if s then "-" else "" in
      if 0 <=? e then (sign ++ str_of_Z (Z.pos m * 2 ^ e) ++ ".0")%string
      else
        let k := - e in
        let scaled := Z.pos m * 5 ^ k in
        let ip := scaled / 10 ^ k in
        let fp := scaled mod 10 ^ k in
        let digits := tl (chars (str_of_Z (10 ^ k + fp))) in
        let frac := rev (drop_zeros (rev digits)) in
        (sign ++ str_of_Z ip ++ "."
         ++ str (match frac with [] => ["0"%char] | _ => frac end))%string
  | _ => "nan"
  end.

(** The float nearest to a decimal literal (digits, an optional fraction,
    an optional exponent): the literal is a quotient of two integers, which
    one division rounds to the nearest float, ties to even. *)
Definition simple_float (s : string) : float :=
  let l := chars s in
  let (neg, l1) :=
    match l with
    | c :: r => if Ascii.eqb c "-" then (true, r) else (false, l)
    | [] => (false, l)
    end in
  let (ip, r1) := span_digits l1 in
  let (frac, r2) := frac_part r1 in
  let (ex, _) := exp_part r2 in
  let fp := tl frac in
  let e10 :=
    match tl ex with
    | c :: ds =>
        if Ascii.eqb c "-" then - int_of_digits ds
        else if Ascii.eqb c "+" then int_of_digits ds
        else int_of_digits (c :: ds)
    | [] => 0
    end in
  let k := e10 - Z.of_nat (List.length fp) in
  let digits := int_of_digits (ip ++ fp) in
  let (num, den) :=
    if 0 <=? k then (digits * 10 ^ k, 1) else (digits, 10 ^ (- k)) in
  match num, den with
  | Z.pos n, Z.pos d =>
      FloatOps.SF2Prim
        (SpecFloat.SFdiv FloatOps.prec FloatOps.emax
           (SpecFloat.S754_finite neg n 0) (SpecFloat.S754_finite false d 0))
  | _, _ => if neg then (-0)%float else 0%float
  end.

Definition syntax_error : exn := Exn SyntaxError "invalid syntax".

Fixpoint skip_spaces (l : list ascii) : list ascii :=
  match l with
  | c :: r => if Ascii.eqb c " " then skip_spaces r else l
  | [] => []
  end.

(** The text of a quoted string, from the character after the opening
    [quote]; [esc] says that the previous character was a backslash. *)
Fixpoint quoted (quote : ascii) (esc : bool) (l : list ascii)
  : result (list ascii * list ascii) :=
  match l with
  | [] => Raise (Exn SyntaxError "unterminated string literal")
  | c :: r =>
      if esc then
        let keep (x : ascii) :=
          '(s, r') <- quoted quote false r ;; Ok (x :: s, r') in
        if Ascii.eqb c "\" || Ascii.eqb c "'" || Ascii.eqb c DQ then keep c
        else if Ascii.eqb c "n" then keep LF
        else if Ascii.eqb c "t" then keep TAB
        else Raise syntax_error
      else if Ascii.eqb c quote then Ok ([], r)
      else if Ascii.eqb c "\" then quoted quote true r
      else if Ascii.eqb c LF then
        Raise (Exn SyntaxError "unterminated string literal")
      else '(s, r') <- quoted quote false r ;; Ok (c :: s, r')
  end.

(** A dictionary display: every key must be hashable. *)
Fixpoint build_dict (kvs : list (pyval * pyval)) (d : dict) : result dict :=
  match kvs with
  | [] => Ok d
  | (k, v) :: r =>
      if hashable k then build_dict r (dict_set k v d)
      else Raise (Exn TypeError
                    ("unhashable type: '" ++ type_name k ++ "'")%string)
  end.

Fixpoint literal (fuel : nat) (l : list ascii) {struct fuel}
  : result (pyval * list ascii) :=
  match fuel with
  | O => Raise (Exn RecursionError "maximum recursion depth exceeded")
  | S n =>
      match l with
      | [] => Raise syntax_error
      | c :: r =>
          if Ascii.eqb c "'" || Ascii.eqb c DQ then
            '(s, r') <- quoted c false r ;; Ok (VStr (str s), r')
          else if Ascii.eqb c "[" then
            '(vs, _, r') <- elements n "]" (skip_spaces r) ;;
            Ok (VList vs, r')
          else if Ascii.eqb c "(" then
            '(vs, comma, r') <- elements n ")" (skip_spaces r) ;;
            match vs, comma with
            | [v], false => Ok (v, r')
            | _, _ => Ok (VTuple vs, r')
            end
          else if Ascii.eqb c "{" then
            '(kvs, r') <- members n (skip_spaces r) ;;
            d <- build_dict kvs [] ;; Ok (VDict d, r')
          else
            match drop_prefix (chars "None") l with
            | Some r' => Ok (VNone, r')
            | None =>
            match drop_prefix (chars "True") l with
            | Some r' => Ok (VBool true, r')
            | None =>
            match drop_prefix (chars "False") l with
            | Some r' => Ok (VBool false, r')
            | None =>
                let (neg, l1) :=
                  if Ascii.eqb c "-" then (true, r) else (false, l) in
                match span_digits l1 with
                | ([], _) => Raise syntax_error
                | (d :: ds, r') =>
                    if Ascii.eqb d "0" && negb (forallb (Ascii.eqb "0") ds)
                    then Raise syntax_error
                    else
                      match frac_part r' with
                      | ([], _) =>
                          let z := int_of_digits (d :: ds) in
                          if int_fits z
                          then Ok (VInt (if neg then - z else z), r')
                          else Raise (Exn SyntaxError
                                        ("Exceeds the limit (4300 digits) for integer string conversion: value has "
                                         ++ str_of_Z (int_digits z)
                                         ++ " digits; use sys.set_int_max_str_digits() to increase the limit - Consider hexadecimal for huge integer literals to avoid decimal conversion limits. (<unknown>, line 1)")%string)
                      | (fs, r'') =>
                          let text :=
                            ((if neg then ["-"%char] else [])
                             ++ d :: ds ++ fs)%list in
                          Ok (VFloat (simple_float (str text)), r'')
                      end
                end
            end end end
      end
  end

(** The elements up to the closing bracket; the flag says that the last
    element was followed by a comma. *)
with elements (fuel : nat) (close : ascii) (l : list ascii) {struct fuel}
  : result (list pyval * bool * list ascii) :=
  match fuel with
  | O => Raise (Exn RecursionError "maximum recursion depth exceeded")
  | S n =>
      match l with
      | [] => Raise syntax_error
      | c :: r =>
          if Ascii.eqb c close then Ok ([], false, r)
          else
            '(v, r1) <- literal n l ;;
            match skip_spaces r1 with
            | c1 :: r2 =>
                if Ascii.eqb c1 close then Ok ([v], false, r2)
                else if Ascii.eqb c1 "," then
                  '(vs, comma, r3) <- elements n close (skip_spaces r2) ;;
                  Ok (v :: vs, match vs with [] => true | _ => comma end, r3)
                else Raise syntax_error
            | [] => Raise syntax_error
            end
      end
  end

with members (fuel : nat) (l : list ascii) {struct fuel}
  : result (list (pyval * pyval) * list ascii) :=
  match fuel with
  | O => Raise (Exn RecursionError "maximum recursion depth exceeded")
  | S n =>
      match l with
      | [] => Raise syntax_error
      | c :: r =>
          if Ascii.eqb c "}" then Ok ([], r)
          else
            '(k, r1) <- literal n l ;;
            match skip_spaces r1 with
            | c1 :: r2 =>
                if Ascii.eqb c1 ":" then
                  '(v, r3) <- literal n (skip_spaces r2) ;;
                  match skip_spaces r3 with
                  | c3 :: r4 =>
                      if Ascii.eqb c3 "}" then Ok ([(k, v)], r4)
                      else if Ascii.eqb c3 "," then
                        '(kvs, r5) <- members n (skip_spaces r4) ;;
                        Ok ((k, v) :: kvs, r5)
                      else Raise syntax_error
                  | [] => Raise syntax_error
                  end
                else Raise syntax_error
            | [] => Raise syntax_error
            end
      end
  end.

Definition fragment_literal_eval (s : string) : result pyval :=
  let l := skip_spaces (chars s) in
  '(v, r) <- literal (2 * List.length l + 2) l ;;
  match skip_spaces r with
  | [] => Ok v
  | _ => Raise syntax_error
  end.

(** A text with every single quote turned into a double quote, to write
    JSON texts. *)
Definition dq (s : string) : string :=
  str (map (fun c => if Ascii.eqb c "'" then DQ else c) (chars s)).

Definition runtime : Runtime := {|
  str_hash := classic_hash;
  str_hash_empty := eq_refl;
  value_hash := fun _ => 0;
  float_repr := exact_repr;
  float_of_literal := simple_float;
  repr_other := fun v => ("<" ++ type_name v ++ ">")%string;
  literal_eval := fragment_literal_eval
|}.

(** The same interpreter started with the two secrets of its string
    hash. *)
Definition runtime_seeded (prefix suffix : Z) : Runtime := {|
  str_hash := seeded_hash prefix suffix;
  str_hash_empty := eq_refl;
  value_hash := fun _ => 0;
  float_repr := exact_repr;
  float_of_literal := simple_float;
  repr_other := fun v => ("<" ++ type_name v ++ ">")%string;
  literal_eval := fragment_literal_eval
|}.

(** A world with a key for the language model, the given
    background-removal key, the given files, one
    reply of the background-removal service and one of the language
    model. *)
Definition world (key : option string) (files : list string)
  (post : result response) (reply : result string) : World := {|
  getenv := fun name =>
    if String.eqb name "CLIPDROP_API_KEY" then key
    else if String.eqb name "GOOGLE_API_KEY" then Some "google-key"
    else None;
  path_exists := fun p => existsb (String.eqb p) files;
  fd_exists := fun _ => false;
  open_rb := fun p =>
    if existsb (String.eqb p) files then Ok "<image bytes>"%string
    else Raise (Exn OSError "No such file or directory");
  requests_post := fun _ _ _ _ => post;
  open_wb := fun _ => Ok tt;
  file_write := fun _ _ => Ok tt;
  chain_invoke := fun _ => reply
|}.

(** The worlds of the scenarios: the key is rejected with a 401; the image
    is processed and the model answers in prose; the image is missing and
    the model call fails; both services answer as hoped. *)
Definition upload : string := "temp_uploads/necklace.png".
Definition note : string := "hand-painted terracotta necklace".

Definition unauthorized : response :=
  {| status_code := 401; text := "Unauthorized"; content := "" |}.
Definition processed : response :=
  {| status_code := 200; text := ""; content := "<png bytes>" |}.

Definition good_reply : string :=
  dq "```json {'description': 'A necklace', 'hashtags': ['#clay', '#warli'], 'price': 49} ```".

(** Three inputs of the consolidation step: one without a price, one
    without hashtags, one complete with a tuple of hashtags. *)
Definition record_without_price : string :=
  "{'artisan_id': 'artisan_lc8765', 'enhanced_image_path': 'processed_necklace.png', 'description': 'A necklace', 'hashtags': ['#clay', '#warli']}".
Definition record_without_hashtags : string :=
  "{'artisan_id': 'artisan_lc8765', 'enhanced_image_path': 'processed_necklace.png', 'description': 'A necklace', 'price': 75}".
Definition record_with_tuple : string :=
  "{'artisan_id': 'artisan_lc8765', 'enhanced_image_path': 'processed_necklace.png', 'description': 'A necklace', 'hashtags': ('#clay', '#warli'), 'price': 75}".
Definition record_with_float : string :=
  "{'artisan_id': 'artisan_lc8765', 'enhanced_image_path': 'processed_necklace.png', 'description': 'A necklace', 'hashtags': ['#clay', '#warli'], 'price': 49.99}".
Definition record_with_list : string :=
  "{'artisan_id': 'artisan_lc8765', 'enhanced_image_path': 'processed_necklace.png', 'description': 'A necklace', 'hashtags': ['#clay', '#warli'], 'price': 75}".

Definition world_401 : World :=
  world (Some "secret") [upload] (Ok unauthorized) (Ok good_reply).
Definition world_prose : World :=
  world (Some "secret") [upload] (Ok processed)
    (Ok "Sorry, I cannot help with that.").
Definition world_down : World :=
  world (Some "secret") [] (Ok processed) (Raise (Exn OtherError "quota exceeded")).
Definition world_good : World :=
  world (Some "secret") [upload] (Ok processed) (Ok good_reply).




End Reference.

(** * The rest of the scripts

    The functions that the statements above do not reach: the sidebar and
    the upload block of app.py, the other tools of crew_mvp.py with the
    step that prepares the record for publishing, the tool of
    image_tools.py, and the assertions of test.py.  The agents themselves
    (a language model driven by a prompt) are not embedded, nor is
    [run_workflow], which only runs them. *)

(** ** The sidebar of app.py *)

(** [os.environ[name] = value]: the variable has the value from then on; a
    value with a NUL character is refused.  The services answer as
    before. *)
Definition setenv (w : World) (name value : string) : result World :=
  if existsb (Ascii.eqb (chr 0)) (chars value)
  then Raise (Exn ValueError "embedded null byte")
  else Ok {| getenv := fun n =>
               if String.eqb n name then Some value else getenv w n;
             path_exists := path_exists w;
             fd_exists := fd_exists w;
             open_rb := open_rb w;
             requests_post := requests_post w;
             open_wb := open_wb w;
             file_write := file_write w;
             chain_invoke := chain_invoke w |}.

(** [setup_api_keys()]: the two texts typed in the sidebar, each stored
    without the white space around it when it is not empty.  The widgets
    of the sidebar are left out. *)
Definition setup_api_keys (w : World)
  (google_api_key clipdrop_api_key : string) : result World :=
  w1 <- (if negb (String.eqb google_api_key "")
         then setenv w "GOOGLE_API_KEY" (strip google_api_key)
         else Ok w) ;;
  if negb (String.eqb clipdrop_api_key "")
  then setenv w1 "CLIPDROP_API_KEY" (strip clipdrop_api_key)
  else Ok w1.


(** ** The upload block of [main] *)

(** The two entries the page keeps in [st.session_state]. *)
Record session : Type := {
  session_image_path : option string;
  session_filename : option string
}.

Inductive disk_event : Type :=
| MadeDirs (p : string)
| Opened (p : string)
| Saved (p body : string).

(** The block under [if uploaded_file:], up to the picture of the upload:
    a file is stored when the session has no image yet or the name of the
    upload differs from the one on record.  [makedirs] is [os.makedirs]. *)
Definition store_upload (w : World) (makedirs : string -> result unit)
  (sess : session) (name buffer : string)
  : session * list disk_event * result ui :=
  let same_name :=
    match session_filename sess with
    | Some n => String.eqb n name
    | None => false
    end in
  match session_image_path sess, same_name with
  | Some p, true => (sess, [], Ok (Image (VStr p) "Your Uploaded Image"))
  | _, _ =>
      let temp_dir := "temp_uploads" in
      let made :=
        if negb (path_exists w temp_dir) then
          match makedirs temp_dir with
          | Ok _ => ([MadeDirs temp_dir], Ok tt)
          | Raise e => ([], Raise e)
          end
        else ([], Ok tt) in
      match made with
      | (evs, Raise e) => (sess, evs, Raise e)
      | (evs, Ok _) =>
          let image_path := path_join temp_dir name in
          match open_wb w image_path with
          | Raise e => (sess, evs, Raise e)
          | Ok _ =>
              match file_write w image_path buffer with
              | Raise e => (sess, (evs ++ [Opened image_path])%list, Raise e)
              | Ok _ =>
                  ({| session_image_path := Some image_path;
                      session_filename := Some name |},
                   (evs ++ [Opened image_path; Saved image_path buffer])%list,
                   Ok (Image (VStr image_path) "Your Uploaded Image"))
              end
          end
      end
  end.

(** ** The other tools of crew_mvp.py *)

(** [enhance_image(image_path)] *)
Definition enhance_image (w : World) (image_path : string) : string :=
  if negb (path_exists w image_path)
  then "Error: Image path does not exist."
  else
    let filename := basename image_path in
    let processed_path := "processed_" ++ filename in
    processed_path.

(** The story and the hashtags of [generate_narrative]. *)
Definition narrative_story (artisan_note : string) : string :=
  "Inspired by the artisan's words: '" ++ artisan_note
  ++ "', this piece is a testament to traditional craftsmanship.".

Definition narrative_hashtags : list string :=
  ["#Handmade"; "#ArtisanCraft"; "#IndianHeritage"; "#SupportLocal"].

Definition narrative_record (artisan_note : string) : pyval :=
  VDict [(VStr "product_description", VStr (narrative_story artisan_note));
         (VStr "hashtags", VList (map VStr narrative_hashtags))].

(** [generate_narrative(artisan_note)] *)
Definition generate_narrative (rt : Runtime) (artisan_note : string)
  : result string :=
  json_dumps rt (narrative_record artisan_note).

(** The integer nearest to [num / den], a tie going to the even one
    ([den] positive). *)
Definition round_half_even (num den : Z) : Z :=
  let q := (num / den)%Z in
  let r := (num mod den)%Z in
  match (2 * r ?= den)%Z with
  | Lt => q
  | Gt => (q + 1)%Z
  | Eq => if Z.even q then q else (q + 1)%Z
  end.

(** [round(x, 2)]: the exact value of [x] is rounded to the nearest
    decimal with two digits after the point, and that decimal to the
    nearest float, ties to even both times.  A float without a fractional
    part, an infinity and a NaN are returned as they are. *)
Definition round2 (x : float) : float :=
  match FloatOps.Prim2SF x with
  | SpecFloat.S754_finite s m e =>
      if (0 <=? e)%Z then x
      else
        match round_half_even (Z.pos m * 100) (2 ^ (- e)) with
        | Z.pos cents =>
            FloatOps.SF2Prim
              (SpecFloat.SFdiv FloatOps.prec FloatOps.emax
                 (SpecFloat.S754_finite s cents 0)
                 (SpecFloat.S754_finite false 100 0))
        | _ => if s then (-0)%float else 0%float
        end
  | _ => x
  end.

(** [float(n)] for a length [n] (a [str] has fewer than 2^63
    characters). *)
Definition float_of_len (n : nat) : float :=
  PrimFloat.of_uint63 (Uint63.of_Z (Z.of_nat n)).

(** [recommend_price(product_description)] *)
Definition recommend_price (product_description : string) : float :=
  let price :=
    PrimFloat.add 75
      (PrimFloat.div (float_of_len (String.length product_description)) 25) in
  round2 price.

(** [json.loads(v)] for any value: a [str] is parsed; [bytes] are decoded
    first, by [decode], which this development does not compute; anything
    else is refused. *)
Definition json_loads_value (rt : Runtime) (decode : string -> result string)
  (v : pyval) : result pyval :=
  match v with
  | VStr s => json_loads rt s
  | VBytes b => s <- decode b ;; json_loads rt s
  | _ => Raise (Exn TypeError
                  ("the JSON object must be str, bytes or bytearray, not "
                   ++ type_name v))
  end.

(** [prepare_for_publishing(results)] *)
Definition prepare_for_publishing (rt : Runtime)
  (decode : string -> result string) (results : pyval) : result pyval :=
  vo <- getitem_str results "visual_output" ;;
  visual_output <- getitem_str vo "output" ;;
  no <- getitem_str results "narrative_output" ;;
  narrative_text <- getitem_str no "output" ;;
  narrative_output <- json_loads_value rt decode narrative_text ;;
  original_inputs <- getitem_str results "original_inputs" ;;
  artisan_id <- getitem_str original_inputs "artisan_id" ;;
  description <- getitem_str narrative_output "product_description" ;;
  hashtags <- getitem_str narrative_output "hashtags" ;;
  let final_input_data :=
    VDict [(VStr "artisan_id", artisan_id);
           (VStr "enhanced_image_path", visual_output);
           (VStr "description", description);
           (VStr "hashtags", hashtags)] in
  input <- json_dumps rt final_input_data ;;
  Ok (VDict [(VStr "input", VStr input)]).

(** What the first three steps of [workflow] hand to
    [prepare_for_publishing], given the answers of the two agents. *)
Definition workflow_results (image_path artisan_note artisan_id : string)
  (visual narrative : string) : pyval :=
  let inputs :=
    [(VStr "raw_image_path", VStr image_path);
     (VStr "artisan_note", VStr artisan_note);
     (VStr "artisan_id", VStr artisan_id)] in
  VDict (inputs ++
         [(VStr "visual_output",
           VDict [(VStr "input", VStr image_path);
                  (VStr "output", VStr visual)]);
          (VStr "narrative_output",
           VDict [(VStr "input", VStr artisan_note);
                  (VStr "output", VStr narrative)]);
          (VStr "original_inputs", VDict inputs)])%list.

(** ** The assertions of test.py *)

Definition ARTISAN_ID : string := "artisan_lc8765".

(** The three assertions of [test_langchain_workflow] on the final result
    (a [str], so that it is not [None]): all of them pass. *)
Definition test_assertions (final_result : string) : bool :=
  str_contains "SUCCESS" final_result
  && str_contains "https://www.kalasahayk.com" final_result
  && str_contains ARTISAN_ID final_result.

(** ** The tool of image_tools.py *)

(** The libraries the tool calls: the download, the two steps on the
    picture (decoded pictures are kept as their bytes), the directory and
    the file. *)
Record ImageLib : Type := {
  requests_get : string -> result response;
  image_open_rgba : string -> result string;
  rembg_remove : string -> result string;
  makedirs_exist_ok : string -> result unit;
  image_save : string -> string -> result unit
}.

Inductive tool_event : Type :=
| HttpGet (url : string)
| DirEnsured (p : string)
| ImageSaved (path picture : string).

Definition bg_removed_path (rt : Runtime) (image_url : string) : string :=
  path_join "outputs"
    ("bg_removed_" ++ str_of_Z (Z.abs (str_hash rt image_url)) ++ ".png").

(** [BackgroundRemovalTool._run(image_url)] *)
Definition BackgroundRemovalTool_run (lib : ImageLib) (rt : Runtime)
  (image_url : string) : list tool_event * result string :=
  match requests_get lib image_url with
  | Raise e => ([HttpGet image_url], Raise e)
  | Ok r =>
      match raise_for_status r with
      | Raise e => ([HttpGet image_url], Raise e)
      | Ok _ =>
          match image_open_rgba lib (content r) with
          | Raise e => ([HttpGet image_url], Raise e)
          | Ok img =>
              match rembg_remove lib img with
              | Raise e => ([HttpGet image_url], Raise e)
              | Ok out =>
                  match makedirs_exist_ok lib "outputs" with
                  | Raise e => ([HttpGet image_url], Raise e)
                  | Ok _ =>
                      let file_path := bg_removed_path rt image_url in
                      match image_save lib out file_path with
                      | Raise e =>
                          ([HttpGet image_url; DirEnsured "outputs"], Raise e)
                      | Ok _ =>
                          ([HttpGet image_url; DirEnsured "outputs";
                            ImageSaved file_path out], Ok file_path)
                      end
                  end
              end
          end
      end
  end.

(** ** More classes used in the statements *)

(** Neither the first nor the last character of [s] is white space. *)
Definition trimmed (s : string) : bool :=
  match chars s with
  | [] => true
  | c :: _ => negb (isspace c)
  end
  && match rev (chars s) with
     | [] => true
     | c :: _ => negb (isspace c)
     end.

Definition is_backtick (c : ascii) : bool := Ascii.eqb c "`".

(** How many characters at the start of [s] satisfy [p]. *)
Fixpoint leading (p : ascii -> bool) (s : string) : nat :=
  match s with
  | String c r => if p c then S (leading p r) else O
  | EmptyString => O
  end.

Definition is_printable_ascii (c : ascii) : bool :=
  ((32 <=? ord c) && (ord c <=? 126))%nat.

Definition is_image (u : ui) : bool :=
  match u with Image _ _ => true | _ => false end.

(** A scenario for the statements on the upload block and on the tool of
    image_tools.py. *)
Module Scenario.

Definition makedirs : string -> result unit := fun _ => Ok tt.

Definition fresh_session : session :=
  {| session_image_path := None; session_filename := None |}.

Definition lib (status : Z) : ImageLib := {|
  requests_get := fun _ =>
    Ok {| status_code := status; text := ""; content := "<jpeg bytes>" |};
  image_open_rgba := fun b => Ok b;
  rembg_remove := fun img => Ok ("cut:" ++ img);
  makedirs_exist_ok := fun _ => Ok tt;
  image_save := fun _ _ => Ok tt
|}.

Definition decode : string -> result string := fun b => Ok b.

(** A reply of the model with an entry under the key of Task 1. *)
Definition overriding_reply : string :=
  Reference.dq "{'description': 'A necklace', 'processed_image_path': 'elsewhere.png'}".

Definition world_overriding : World :=
  Reference.world (Some "secret") [Reference.upload]
    (Ok Reference.processed) (Ok overriding_reply).

End Scenario.

(** * Properties *)

Local Open Scope list_scope.

Lemma scanstring_escape_char (c : ascii) (r : list ascii) :
  scanstring Plain false (escape_char c ++ r)
  = emit false c (scanstring Plain false r).
Proof.
  destruct c as [[] [] [] [] [] [] [] []]; reflexivity.
Qed.

Lemma scanstring_encoded (l r : list ascii) :
  scanstring Plain false (flat_map escape_char l ++ DQ :: r)
  = Ok (l, r).
Proof.
  induction l as [|c l IH]; simpl.
  - reflexivity.
  - rewrite <- app_assoc, scanstring_escape_char, IH. reflexivity.
Qed.


Ltac ascii_cases c := destruct c as [[] [] [] [] [] [] [] []].

Arguments scan_number : simpl never.

Lemma span_digits_app (ds rest : list ascii) :
  forallb is_digit ds = true ->
  match rest with [] => true | c :: _ => negb (is_digit c) end = true ->
  span_digits (ds ++ rest) = (ds, rest).
Proof.
  intros Hds Hrest. induction ds as [|d ds IH]; simpl in *.
  - destruct rest as [|c rest]; [reflexivity|].
    simpl. apply negb_true_iff in Hrest. now rewrite Hrest.
  - apply andb_true_iff in Hds as [Hd Hds]. rewrite Hd, (IH Hds). reflexivity.
Qed.

Lemma follows_not_digit (rest : list ascii) :
  follows rest = true ->
  match rest with [] => true | c :: _ => negb (is_digit c) end = true.
Proof.
  destruct rest as [|c rest]; [reflexivity|].
  ascii_cases c; simpl; intros H; try discriminate H; reflexivity.
Qed.

(** After a run of digits that is followed by the end, a comma or a
    closing bracket there is neither a fraction nor an exponent. *)
Lemma scan_number_int (rt : Runtime) (c : ascii) (ds rest : list ascii) :
  is_digit c = true -> Ascii.eqb c "0" = false ->
  forallb is_digit ds = true -> follows rest = true ->
  scan_number rt (c :: ds ++ rest)
  = Some (VInt (int_of_digits (c :: ds)), rest).
Proof.
  intros Hc H0 Hds Hrest.
  assert (Hm : Ascii.eqb c "-" = false)
    by (ascii_cases c; try reflexivity; discriminate Hc).
  unfold scan_number, int_part. rewrite Hm, Hc, H0.
  change (c :: ds ++ rest) with ((c :: ds) ++ rest).
  rewrite span_digits_app;
    [| simpl; now rewrite Hc, Hds | now apply follows_not_digit].
  destruct rest as [|x rest]; [reflexivity|].
  ascii_cases x; simpl in Hrest; try discriminate Hrest; reflexivity.
Qed.

Lemma scan_number_neg (rt : Runtime) (c : ascii) (ds rest : list ascii) :
  is_digit c = true -> Ascii.eqb c "0" = false ->
  forallb is_digit ds = true -> follows rest = true ->
  scan_number rt ("-"%char :: c :: ds ++ rest)
  = Some (VInt (- int_of_digits (c :: ds)), rest).
Proof.
  intros Hc H0 Hds Hrest.
  unfold scan_number, int_part. simpl Ascii.eqb. cbv iota beta.
  rewrite Hc, H0.
  change (c :: ds ++ rest) with ((c :: ds) ++ rest).
  rewrite span_digits_app;
    [| simpl; now rewrite Hc, Hds | now apply follows_not_digit].
  destruct rest as [|x rest]; [reflexivity|].
  ascii_cases x; simpl in Hrest; try discriminate Hrest; reflexivity.
Qed.

Lemma scan_number_zero (rt : Runtime) (rest : list ascii) :
  follows rest = true ->
  scan_number rt ("0"%char :: rest) = Some (VInt 0, rest).
Proof.
  intros Hrest. destruct rest as [|x rest]; [reflexivity|].
  ascii_cases x; simpl in Hrest; try discriminate Hrest; reflexivity.
Qed.

(** *** Decimal text *)

Lemma uint_text_digits (d : Decimal.uint) :
  forallb is_digit (chars (DecimalString.NilEmpty.string_of_uint d)) = true.
Proof. induction d; simpl; auto. Qed.

Lemma int_of_uint_text (d : Decimal.uint) :
  int_of_digits (chars (DecimalString.NilEmpty.string_of_uint d))
  = Z.of_uint d.
Proof.
  unfold int_of_digits, str, chars.
  rewrite string_of_list_ascii_of_string, DecimalString.NilEmpty.usu.
  reflexivity.
Qed.

Lemma pos_uint_head (p : positive) :
  Pos.to_uint p <> Decimal.Nil /\
  forall d, Pos.to_uint p <> Decimal.D0 d.
Proof.
  split; [apply DecimalPos.Unsigned.to_uint_nonnil|].
  intros d H.
  pose proof (DecimalPos.Unsigned.to_of (Pos.to_uint p)) as E.
  rewrite DecimalPos.Unsigned.of_to in E. simpl in E.
  pose proof (DecimalPos.Unsigned.to_uint_nonzero p) as NZ.
  rewrite E in NZ.
  assert (NN : Decimal.nzhead (Pos.to_uint p) <> Decimal.Nil).
  { intro N. apply NZ. now apply DecimalFacts.unorm_0. }
  rewrite (DecimalFacts.unorm_nzhead _ NN) in E.
  rewrite H in E at 1. symmetry in E.
  now apply DecimalFacts.nzhead_nonzero in E.
Qed.

(** The decimal text of a positive number: a digit other than [0], then
    digits. *)
Lemma pos_text (p : positive) :
  exists c ds,
    chars (DecimalString.NilEmpty.string_of_uint (Pos.to_uint p)) = c :: ds
    /\ is_digit c = true /\ Ascii.eqb c "0" = false
    /\ forallb is_digit ds = true
    /\ int_of_digits (c :: ds) = Z.pos p.
Proof.
  destruct (pos_uint_head p) as [NN N0].
  pose proof (uint_text_digits (Pos.to_uint p)) as HD.
  pose proof (int_of_uint_text (Pos.to_uint p)) as HI.
  assert (HZ : Z.of_uint (Pos.to_uint p) = Z.pos p).
  { unfold Z.of_uint. now rewrite DecimalPos.Unsigned.of_to. }
  rewrite HZ in HI. clear HZ.
  destruct (Pos.to_uint p) eqn:E; try (now contradiction NN);
    try (now exfalso; eapply N0);
    simpl in *; eexists _, _; (split; [reflexivity|]);
    repeat split; auto.
Qed.

Lemma str_of_Z_pos (p : positive) :
  chars (str_of_Z (Z.pos p))
  = chars (DecimalString.NilEmpty.string_of_uint (Pos.to_uint p)).
Proof.
  unfold str_of_Z. simpl. unfold DecimalString.NilZero.string_of_uint.
  destruct (pos_uint_head p) as [NN _].
  destruct (Pos.to_uint p); try reflexivity. now contradiction NN.
Qed.

Lemma str_of_Z_neg (p : positive) :
  chars (str_of_Z (Z.neg p))
  = "-"%char
    :: chars (DecimalString.NilEmpty.string_of_uint (Pos.to_uint p)).
Proof.
  unfold str_of_Z. simpl. unfold DecimalString.NilZero.string_of_uint.
  destruct (pos_uint_head p) as [NN _].
  destruct (Pos.to_uint p); try reflexivity. now contradiction NN.
Qed.

Lemma scan_number_str_of_Z (rt : Runtime) (z : Z) (rest : list ascii) :
  follows rest = true ->
  scan_number rt (chars (str_of_Z z) ++ rest) = Some (VInt z, rest).
Proof.
  intros Hrest. destruct z as [|p|p].
  - now apply scan_number_zero.
  - rewrite str_of_Z_pos.
    destruct (pos_text p) as (c & ds & E & Hc & H0 & Hds & HI).
    rewrite E. simpl. rewrite scan_number_int by assumption. now rewrite HI.
  - rewrite str_of_Z_neg.
    destruct (pos_text p) as (c & ds & E & Hc & H0 & Hds & HI).
    rewrite E. simpl. rewrite scan_number_neg by assumption. now rewrite HI.
Qed.

(** The first character of the decimal text of an integer. *)
Lemma str_of_Z_head (z : Z) :
  exists c r, chars (str_of_Z z) = c :: r
              /\ (is_digit c = true \/ c = "-"%char).
Proof.
  destruct z as [|p|p].
  - exists "0"%char, []. split; [reflexivity | now left].
  - rewrite str_of_Z_pos.
    destruct (pos_text p) as (c & ds & E & Hc & _). rewrite E. eauto.
  - rewrite str_of_Z_neg. eexists _, _. split; [reflexivity | now right].
Qed.

Lemma scan_once_number (rt : Runtime) (n : nat) (c : ascii) (r : list ascii)
  (res : pyval * list ascii) :
  is_digit c = true \/ c = "-"%char ->
  scan_number rt (c :: r) = Some res ->
  scan_once rt (S n) (c :: r) = int_limit res.
Proof.
  intros Hc H.
  ascii_cases c; destruct Hc as [Hc|Hc]; try discriminate Hc;
    simpl; rewrite H; reflexivity.
Qed.

(** *** A number literal followed by more text *)

Lemma span_digits_app_any (l ds r rest : list ascii) :
  span_digits l = (ds, r) ->
  match rest with [] => true | c :: _ => negb (is_digit c) end = true ->
  span_digits (l ++ rest) = (ds, r ++ rest).
Proof.
  intros H Hrest. revert ds r H.
  induction l as [|c l IH]; intros ds r H; simpl in H |- *.
  - injection H as <- <-. simpl.
    destruct rest as [|x rest]; [reflexivity|].
    simpl. apply negb_true_iff in Hrest. now rewrite Hrest.
  - destruct (is_digit c).
    + destruct (span_digits l) as [ds' r'] eqn:E. injection H as <- <-.
      now rewrite (IH ds' r' eq_refl).
    + injection H as <- <-. reflexivity.
Qed.

Lemma int_part_app (d : ascii) (t ds r1 rest : list ascii) :
  int_part d t = (ds, r1) -> follows rest = true ->
  int_part d (t ++ rest) = (ds, r1 ++ rest).
Proof.
  unfold int_part. intros H Hrest. destruct (Ascii.eqb d "0").
  - injection H as <- <-. reflexivity.
  - change (d :: t ++ rest) with ((d :: t) ++ rest).
    apply span_digits_app_any; [exact H | now apply follows_not_digit].
Qed.

Lemma frac_part_app (r1 frac r2 rest : list ascii) :
  frac_part r1 = (frac, r2) -> follows rest = true ->
  frac_part (r1 ++ rest) = (frac, r2 ++ rest).
Proof.
  unfold frac_part. intros H Hrest. destruct r1 as [|c r']; simpl.
  - injection H as <- <-. simpl. destruct rest as [|x rest]; [reflexivity|].
    ascii_cases x; simpl in Hrest; try discriminate Hrest; reflexivity.
  - destruct (Ascii.eqb c "."); [|injection H as <- <-; reflexivity].
    destruct (span_digits r') as [fs r''] eqn:E.
    rewrite (span_digits_app_any r' fs r'' rest E
               (follows_not_digit rest Hrest)).
    destruct fs; injection H as <- <-; reflexivity.
Qed.

Lemma exp_part_app (r2 ex r3 rest : list ascii) :
  exp_part r2 = (ex, r3) -> follows rest = true ->
  exp_part (r2 ++ rest) = (ex, r3 ++ rest).
Proof.
  unfold exp_part. intros H Hrest.
  pose proof (follows_not_digit rest Hrest) as Hd.
  destruct r2 as [|c r']; simpl.
  - injection H as <- <-. simpl. destruct rest as [|x rest]; [reflexivity|].
    ascii_cases x; simpl in Hrest; try discriminate Hrest; reflexivity.
  - destruct (Ascii.eqb c "e" || Ascii.eqb c "E");
      [|injection H as <- <-; reflexivity].
    destruct r' as [|s t]; simpl in H |- *.
    + injection H as <- <-.
      destruct rest as [|x rest]; [reflexivity|].
      ascii_cases x; simpl in Hrest; try discriminate Hrest; reflexivity.
    + destruct (Ascii.eqb s "+" || Ascii.eqb s "-").
      * destruct (span_digits t) as [es r''] eqn:E.
        rewrite (span_digits_app_any t es r'' rest E Hd).
        destruct es; injection H as <- <-; reflexivity.
      * change (s :: t ++ rest) with ((s :: t) ++ rest).
        destruct (span_digits (s :: t)) as [es r''] eqn:E.
        rewrite (span_digits_app_any (s :: t) es r'' rest E Hd).
        destruct es; injection H as <- <-; reflexivity.
Qed.

(** What follows a number in an encoding does not change how the number
    is read. *)
Lemma scan_number_app (rt : Runtime) (l r rest : list ascii) (v : pyval) :
  scan_number rt l = Some (v, r) -> follows rest = true ->
  scan_number rt (l ++ rest) = Some (v, r ++ rest).
Proof.
  unfold scan_number. intros H Hrest.
  assert (G : forall (neg : bool) d t,
             (if is_digit d then
                let (ds, r1) := int_part d t in
                let (frac, r2) := frac_part r1 in
                let (ex, r3) := exp_part r2 in
                match frac, ex with
                | [], [] =>
                    let z := int_of_digits ds in
                    Some (VInt (if neg then - z else z), r3)
                | _, _ =>
                    let text :=
                      (if neg then ["-"%char] else []) ++ ds ++ frac ++ ex in
                    Some (VFloat (float_of_literal rt (str text)), r3)
                end
              else None) = Some (v, r) ->
             (if is_digit d then
                let (ds, r1) := int_part d (t ++ rest) in
                let (frac, r2) := frac_part r1 in
                let (ex, r3) := exp_part r2 in
                match frac, ex with
                | [], [] =>
                    let z := int_of_digits ds in
                    Some (VInt (if neg then - z else z), r3)
                | _, _ =>
                    let text :=
                      (if neg then ["-"%char] else []) ++ ds ++ frac ++ ex in
                    Some (VFloat (float_of_literal rt (str text)), r3)
                end
              else None) = Some (v, r ++ rest)).
  { intros neg d t G. destruct (is_digit d); [|discriminate G].
    destruct (int_part d t) as [ds r1] eqn:E1.
    rewrite (int_part_app d t ds r1 rest E1 Hrest).
    destruct (frac_part r1) as [frac r2] eqn:E2.
    rewrite (frac_part_app r1 frac r2 rest E2 Hrest).
    destruct (exp_part r2) as [ex r3] eqn:E3.
    rewrite (exp_part_app r2 ex r3 rest E3 Hrest).
    destruct frac, ex; injection G as <- <-; reflexivity. }
  destruct l as [|c l]; [discriminate H|].
  change ((c :: l) ++ rest) with (c :: (l ++ rest)).
  cbv beta iota in H |- *.
  destruct (Ascii.eqb c "-").
  - destruct l as [|d t]; [discriminate H|].
    change ((d :: t) ++ rest) with (d :: (t ++ rest)).
    exact (G true d t H).
  - exact (G false c l H).
Qed.

Lemma scan_number_head (rt : Runtime) (l : list ascii)
  (res : pyval * list ascii) :
  scan_number rt l = Some res ->
  exists c r, l = c :: r /\ (is_digit c = true \/ c = "-"%char).
Proof.
  unfold scan_number. intros H. destruct l as [|c l]; [discriminate H|].
  exists c, l. split; [reflexivity|].
  destruct (Ascii.eqb c "-") eqn:E.
  - right. now apply Ascii.eqb_eq in E.
  - left. destruct (is_digit c); [reflexivity | discriminate H].
Qed.

Lemma head_not_space (c : ascii) :
  is_digit c = true \/ c = "-"%char ->
  is_ws c = false /\ Ascii.eqb c "]" = false /\ Ascii.eqb c "}" = false.
Proof.
  intros Hc. ascii_cases c; destruct Hc as [Hc|Hc]; try discriminate Hc; auto.
Qed.

(** *** JSON-native lists and dictionaries *)

Lemma native_list (rt : Runtime) (l : list pyval) :
  json_native rt (VList l) <-> Forall (json_native rt) l.
Proof.
  simpl. induction l as [|x l IH]; split; intros H.
  - constructor.
  - exact I.
  - destruct H as [Hx Hl]. constructor; [exact Hx | now apply IH].
  - inversion H as [|? ? Hx Hl]; subst. split; [exact Hx | now apply IH].
Qed.

Lemma native_dict (rt : Runtime) (d : dict) :
  json_native rt (VDict d)
  <-> Forall (fun kv => is_str (fst kv) = true /\ json_native rt (snd kv)) d
      /\ distinct_keys d = true.
Proof.
  simpl. apply and_iff_compat_r.
  induction d as [|kv d IH]; split; intros H.
  - constructor.
  - exact I.
  - destruct H as [Hx Hl]. constructor; [exact Hx | now apply IH].
  - inversion H as [|? ? Hx Hl]; subst. split; [exact Hx | now apply IH].
Qed.

(** *** Induction on values *)

Lemma pyval_ind_nested (P : pyval -> Prop) :
  P VNone -> (forall b, P (VBool b)) -> (forall z, P (VInt z)) ->
  (forall f, P (VFloat f)) -> (forall s, P (VStr s)) ->
  (forall s, P (VBytes s)) ->
  (forall l, Forall P l -> P (VList l)) ->
  (forall l, Forall P l -> P (VTuple l)) ->
  (forall l, Forall P l -> P (VSet l)) ->
  (forall d, Forall (fun kv => P (fst kv) /\ P (snd kv)) d -> P (VDict d)) ->
  (forall re im, P (VComplex re im)) -> P VEllipsis ->
  forall v, P v.
Proof.
  intros HNone HBool HInt HFloat HStr HBytes HList HTuple HSet HDict HC HE.
  fix IH 1. intros v. destruct v.
  - exact HNone.
  - apply HBool.
  - apply HInt.
  - apply HFloat.
  - apply HStr.
  - apply HBytes.
  - apply HList. induction l as [|x l IHl]; constructor; [apply IH | exact IHl].
  - apply HTuple. induction l as [|x l IHl]; constructor; [apply IH | exact IHl].
  - apply HSet. induction l as [|x l IHl]; constructor; [apply IH | exact IHl].
  - apply HDict. induction d as [|[k x] d IHd]; constructor;
      [split; apply IH | exact IHd].
  - apply HC.
  - exact HE.
Qed.

Lemma bind_Ok {A B : Type} (m : result A) (k : A -> result B) (b : B) :
  bind m k = Ok b -> exists a, m = Ok a /\ k a = Ok b.
Proof. destruct m as [a|e]; simpl; [eauto | discriminate]. Qed.

(** An encoding starts with a character that is neither white space nor a
    closing bracket. *)
Lemma encode_head (rt : Runtime) (v : pyval) (out : list ascii) :
  json_native rt v -> encode rt v = Ok out ->
  exists c r, out = c :: r /\ is_ws c = false
              /\ Ascii.eqb c "]" = false /\ Ascii.eqb c "}" = false.
Proof.
  intros Hn He. destruct v; try contradiction Hn.
  - injection He as <-. now eexists _, _.
  - destruct b; injection He as <-; now eexists _, _.
  - simpl in Hn, He. unfold int_text in He. rewrite Hn in He.
    injection He as <-.
    destruct (str_of_Z_head z) as (c & r & E & Hc). rewrite E.
    exists c, r. split; [reflexivity | now apply head_not_space].
  - injection He as <-. simpl in Hn.
    destruct (scan_number_head rt _ _ Hn) as (c & r & E & Hc). rewrite E.
    exists c, r. split; [reflexivity | now apply head_not_space].
  - injection He as <-. now eexists _, _.
  - simpl in He. apply bind_Ok in He as (b & _ & E). injection E as <-.
    now eexists _, _.
  - simpl in He. apply bind_Ok in He as (b & _ & E). injection E as <-.
    now eexists _, _.
Qed.

Lemma encode_items_cons (rt : Runtime) (first : bool) (x : pyval)
  (r : list pyval) (b : list ascii) :
  encode_items (encode rt) first (x :: r) = Ok b ->
  exists a b', encode rt x = Ok a
               /\ encode_items (encode rt) false r = Ok b'
               /\ b = (if first then [] else sep_item) ++ a ++ b'.
Proof.
  simpl. intros H.
  apply bind_Ok in H as (a & Ha & H).
  apply bind_Ok in H as (b' & Hb & H).
  injection H as <-. eauto.
Qed.

Lemma array_reads_back (rt : Runtime) (r : list pyval) :
  Forall (reads_back rt) r -> Forall (json_native rt) r ->
  forall x fuel a b rest,
    reads_back rt x ->
    encode rt x = Ok a ->
    encode_items (encode rt) false r = Ok b ->
    (2 * List.length (a ++ b) + 1 <= fuel)%nat ->
    JSONArray rt fuel (a ++ b ++ "]"%char :: rest) = Ok (x :: r, rest).
Proof.
  induction r as [|y r IH]; intros HF HN x fuel a b rest Hx Ea Eb Hfuel.
  - injection Eb as <-. rewrite app_nil_r in Hfuel.
    destruct fuel as [|n]; [lia|]. simpl.
    rewrite (Hx n a ("]"%char :: rest) Ea eq_refl) by lia.
    reflexivity.
  - apply encode_items_cons in Eb as (ay & b' & Ey & Eb' & ->).
    inversion HF as [|? ? Hy HF']; subst.
    inversion HN as [|? ? HNy HNr]; subst.
    destruct (encode_head rt y ay HNy Ey) as (c & ay' & -> & Hws & _).
    rewrite !length_app in Hfuel. simpl in Hfuel.
    replace (a ++ (sep_item ++ (c :: ay') ++ b') ++ "]"%char :: rest)
      with (a ++ ","%char :: " "%char
              :: (c :: ay') ++ b' ++ "]"%char :: rest)
      by (unfold sep_item; simpl; now rewrite <- app_assoc).
    destruct fuel as [|n]; [lia|].
    cbn [JSONArray].
    rewrite (Hx n a (","%char :: " "%char
                       :: (c :: ay') ++ b' ++ "]"%char :: rest) Ea eq_refl)
      by lia.
    simpl. rewrite Hws.
    change (c :: ay' ++ b' ++ "]"%char :: rest)
      with ((c :: ay') ++ b' ++ "]"%char :: rest).
    rewrite (IH HF' HNr y n (c :: ay') b' rest Hy Ey Eb');
      [reflexivity|].
    rewrite length_app. simpl. lia.
Qed.

Lemma encode_members_cons (rt : Runtime) (first : bool) (kv : pyval * pyval)
  (r : list (pyval * pyval)) (b : list ascii) :
  encode_members (encode_key rt) (encode rt) first (kv :: r) = Ok b ->
  exists ek a b',
    encode_key rt (fst kv) = Ok ek /\ encode rt (snd kv) = Ok a
    /\ encode_members (encode_key rt) (encode rt) false r = Ok b'
    /\ b = (if first then [] else sep_item) ++ ek ++ sep_key ++ a ++ b'.
Proof.
  simpl. intros H.
  apply bind_Ok in H as (ek & Hk & H).
  apply bind_Ok in H as (a & Ha & H).
  apply bind_Ok in H as (b' & Hb & H).
  injection H as <-. eauto 7.
Qed.

Lemma object_reads_back (rt : Runtime) (r : list (pyval * pyval)) :
  Forall (fun kv => reads_back rt (snd kv)) r ->
  Forall (fun kv => is_str (fst kv) = true /\ json_native rt (snd kv)) r ->
  forall k x fuel a b rest,
    reads_back rt x -> json_native rt x ->
    encode rt x = Ok a ->
    encode_members (encode_key rt) (encode rt) false r = Ok b ->
    (2 * List.length (encode_basestring_ascii k ++ sep_key ++ a ++ b) + 1
     <= fuel)%nat ->
    JSONObject rt fuel
      (encode_basestring_ascii k ++ sep_key ++ a ++ b ++ "}"%char :: rest)
    = Ok ((VStr k, x) :: r, rest).
Proof.
  induction r as [|[ky y] r IH]; intros HF HN k x fuel a b rest Hx Nx Ea Eb Hfuel;
    destruct (encode_head rt x a Nx Ea) as (c & a' & -> & Hws & _).
  - injection Eb as <-. rewrite app_nil_r in Hfuel.
    rewrite !length_app in Hfuel. simpl in Hfuel.
    replace (encode_basestring_ascii k ++ sep_key ++ (c :: a') ++ []
             ++ "}"%char :: rest)
      with (DQ :: flat_map escape_char (chars k)
              ++ DQ :: ":"%char :: " "%char
              :: (c :: a') ++ "}"%char :: rest)
      by (unfold encode_basestring_ascii, sep_key; simpl;
          now rewrite <- app_assoc).
    destruct fuel as [|n]; [lia|].
    simpl. rewrite scanstring_encoded. simpl. rewrite Hws.
    change (c :: a' ++ "}"%char :: rest)
      with ((c :: a') ++ "}"%char :: rest).
    rewrite (Hx n (c :: a') ("}"%char :: rest) Ea eq_refl) by (simpl; lia).
    simpl. unfold str, chars. now rewrite string_of_list_ascii_of_string.
  - apply encode_members_cons in Eb as (ek & ay & b' & Ek & Ey & Eb' & ->).
    inversion HF as [|? ? Hy HF']; subst.
    inversion HN as [|? ? [Hky HNy] HNr]; subst.
    simpl in Ek, Ey, Hy, Hky, HNy. destruct ky; try discriminate Hky.
    simpl in Ek. injection Ek as <-.
    rewrite !length_app in Hfuel. simpl in Hfuel.
    rewrite !length_app in Hfuel. simpl in Hfuel.
    replace (encode_basestring_ascii k ++ sep_key ++ (c :: a')
             ++ (sep_item ++ encode_basestring_ascii s ++ sep_key ++ ay ++ b')
             ++ "}"%char :: rest)
      with (DQ :: flat_map escape_char (chars k)
              ++ DQ :: ":"%char :: " "%char
              :: (c :: a') ++ ","%char :: " "%char
              :: encode_basestring_ascii s ++ sep_key ++ ay ++ b'
              ++ "}"%char :: rest)
      by (unfold encode_basestring_ascii, sep_key, sep_item; simpl;
          rewrite <- !app_assoc; simpl; rewrite <- ?app_assoc; reflexivity).
    remember (encode_basestring_ascii s ++ sep_key ++ ay ++ b'
              ++ "}"%char :: rest) as nxt eqn:Enxt.
    remember (","%char :: " "%char :: nxt) as tail eqn:Etail.
    assert (Ft : follows tail = true) by now subst tail.
    destruct fuel as [|n]; [lia|].
    simpl. rewrite scanstring_encoded. simpl. rewrite Hws.
    change (c :: a' ++ tail) with ((c :: a') ++ tail).
    rewrite (Hx n (c :: a') tail Ea Ft) by (simpl; lia).
    subst tail. simpl.
    assert (Sk : skip_ws nxt = nxt)
      by (subst nxt; reflexivity).
    rewrite Sk. subst nxt.
    rewrite (IH HF' HNr s y n ay b' rest Hy HNy Ey Eb').
    + simpl. unfold str, chars. now rewrite string_of_list_ascii_of_string.
    + rewrite !length_app. simpl. rewrite !length_app. simpl. lia.
Qed.

(** *** Dictionaries *)

Lemma dict_get_app (k : pyval) (a b : dict) :
  dict_get k (a ++ b)
  = match dict_get k a with Some v => Some v | None => dict_get k b end.
Proof.
  induction a as [|[k' v'] a IH]; simpl; [reflexivity|].
  destruct (key_eqb k k'); [reflexivity | exact IH].
Qed.

Lemma dict_set_fresh (k v : pyval) (d : dict) :
  dict_has k d = false -> dict_set k v d = d ++ [(k, v)].
Proof.
  unfold dict_has. induction d as [|[k' v'] d IH]; simpl; [reflexivity|].
  destruct (key_eqb k k'); [discriminate|]. intros H. now rewrite IH.
Qed.

Lemma key_eqb_str_sym (a : string) (k : pyval) :
  is_str k = true -> key_eqb k (VStr a) = key_eqb (VStr a) k.
Proof.
  destruct k; try discriminate. intros _. simpl. apply String.eqb_sym.
Qed.

Lemma fold_set_distinct (d acc : dict) :
  forallb (fun kv => is_str (fst kv)) d = true ->
  distinct_keys d = true ->
  (forall kv, In kv d -> dict_has (fst kv) acc = false) ->
  fold_left (fun acc kv => dict_set (fst kv) (snd kv) acc) d acc = acc ++ d.
Proof.
  revert acc. induction d as [|[k v] d IH]; intros acc Hs Hd Hacc; simpl.
  - now rewrite app_nil_r.
  - simpl in Hs, Hd.
    apply andb_true_iff in Hs as [Hk Hs].
    apply andb_true_iff in Hd as [Hkd Hd].
    apply negb_true_iff in Hkd.
    rewrite dict_set_fresh by (apply (Hacc (k, v)); now left).
    rewrite IH; [now rewrite <- app_assoc | assumption | assumption |].
    intros [k' v'] Hin. simpl.
    unfold dict_has. rewrite dict_get_app.
    pose proof (Hacc (k', v') (or_intror Hin)) as H1.
    unfold dict_has in H1. simpl in H1.
    destruct (dict_get k' acc); [discriminate|]. simpl.
    assert (Hk' : is_str k' = true).
    { rewrite forallb_forall in Hs. apply (Hs (k', v') Hin). }
    destruct k; try discriminate Hk.
    rewrite (key_eqb_str_sym s k' Hk').
    (* [k] is not among the keys of [d] *)
    clear - Hkd Hin. unfold dict_has in Hkd.
    induction d as [|[k2 v2] d IHd]; [contradiction|].
    cbn [dict_get] in Hkd. destruct (key_eqb (VStr s) k2) eqn:E;
      [discriminate Hkd|].
    destruct Hin as [Heq|Hin].
    + inversion Heq; subst. now rewrite E.
    + now apply IHd.
Qed.

Lemma dict_of_pairs_distinct (d : dict) :
  forallb (fun kv => is_str (fst kv)) d = true ->
  distinct_keys d = true -> dict_of_pairs d = d.
Proof.
  intros Hs Hd. unfold dict_of_pairs.
  now rewrite fold_set_distinct.
Qed.

(** *** Every JSON-native value is read back from its encoding. *)
Lemma native_reads_back (rt : Runtime) (v : pyval) :
  json_native rt v -> reads_back rt v.
Proof.
  induction v using pyval_ind_nested; intros Hn; try contradiction Hn;
    intros fuel out rest He Hrest Hfuel.
  - injection He as <-. destruct fuel; [simpl in Hfuel; lia | reflexivity].
  - destruct b; injection He as <-;
      (destruct fuel; [simpl in Hfuel; lia | reflexivity]).
  - simpl in Hn, He. unfold int_text in He. rewrite Hn in He.
    injection He as <-.
    destruct (str_of_Z_head z) as (c & r & E & Hc).
    pose proof (scan_number_str_of_Z rt z rest Hrest) as HS.
    rewrite E in *. simpl in HS |- *.
    destruct fuel; [simpl in Hfuel; lia|].
    rewrite (scan_once_number rt fuel c _ _ Hc HS).
    unfold int_limit. simpl. now rewrite Hn.
  - injection He as <-. simpl in Hn. unfold float_literal in Hn.
    destruct (scan_number_head rt _ _ Hn) as (c & r & E & Hc).
    pose proof (scan_number_app rt _ _ rest _ Hn Hrest) as HS.
    rewrite E in *. simpl in HS |- *.
    destruct fuel; [simpl in Hfuel; lia|].
    now rewrite (scan_once_number rt fuel c _ _ Hc HS).
  - injection He as <-. destruct fuel; [simpl in Hfuel; lia|].
    unfold encode_basestring_ascii. simpl.
    rewrite <- app_assoc. simpl. rewrite scanstring_encoded. simpl.
    unfold str, chars. now rewrite string_of_list_ascii_of_string.
  - (* lists *)
    simpl in He. apply bind_Ok in He as (b & Eb & He). injection He as <-.
    apply native_list in Hn.
    assert (HF : Forall (reads_back rt) l).
    { rewrite Forall_forall in H, Hn |- *.
      intros x Hx. apply (H x Hx), (Hn x Hx). }
    destruct l as [|x l].
    + injection Eb as <-. destruct fuel; [simpl in Hfuel; lia | reflexivity].
    + apply encode_items_cons in Eb as (a & b' & Ea & Eb' & ->).
      inversion Hn as [|? ? Hnx Hnl]; subst.
      inversion HF as [|? ? Hx HF']; subst.
      destruct (encode_head rt x a Hnx Ea) as (c & a' & -> & Hws & Hc & _).
      simpl in Hfuel. rewrite !length_app in Hfuel. simpl in Hfuel.
      destruct fuel as [|n]; [lia|].
      simpl. rewrite Hws, Hc.
      replace (c :: ((a' ++ b') ++ ["]"%char]) ++ rest)
        with ((c :: a') ++ b' ++ "]"%char :: rest)
        by (simpl; now rewrite <- !app_assoc).
      rewrite (array_reads_back rt l HF' Hnl x n (c :: a') b' rest Hx Ea Eb');
        [reflexivity|].
      rewrite length_app. simpl. lia.
  - (* dictionaries *)
    simpl in He. apply bind_Ok in He as (b & Eb & He). injection He as <-.
    apply native_dict in Hn as [Hn Hdist].
    assert (Hs : forallb (fun kv => is_str (fst kv)) d = true).
    { rewrite forallb_forall. rewrite Forall_forall in Hn.
      intros kv Hin. now apply (Hn kv Hin). }
    assert (HF : Forall (fun kv => reads_back rt (snd kv)) d).
    { rewrite Forall_forall in H, Hn |- *.
      intros kv Hin. apply (H kv Hin). now apply (Hn kv Hin). }
    destruct d as [|[k x] d].
    + injection Eb as <-. destruct fuel; [simpl in Hfuel; lia | reflexivity].
    + apply encode_members_cons in Eb as (ek & a & b' & Ek & Ea & Eb' & ->).
      inversion Hn as [|? ? [Hk Hnx] Hnl]; subst.
      simpl in Hk, Hnx, Ek, Ea.
      destruct k; try discriminate Hk. simpl in Ek. injection Ek as <-.
      inversion HF as [|? ? Hx HF']; subst. simpl in Hx.
      simpl in Hfuel. rewrite !length_app in Hfuel. simpl in Hfuel.
      rewrite !length_app in Hfuel. simpl in Hfuel.
      destruct fuel as [|n]; [lia|].
      replace (("{"%char :: ([] ++ encode_basestring_ascii s ++ sep_key
                               ++ a ++ b') ++ ["}"%char]) ++ rest)
        with ("{"%char :: DQ
                :: (flat_map escape_char (chars s) ++ [DQ])
                ++ sep_key ++ a ++ b' ++ "}"%char :: rest)
        by (unfold encode_basestring_ascii; simpl;
            rewrite <- !app_assoc; simpl; rewrite <- ?app_assoc; reflexivity).
      cbn [scan_once]. simpl Ascii.eqb. cbv iota. cbn [skip_ws].
      replace (is_ws DQ) with false by reflexivity.
      simpl Ascii.eqb. cbv iota.
      change (DQ :: (flat_map escape_char (chars s) ++ [DQ])
                ++ sep_key ++ a ++ b' ++ "}"%char :: rest)
        with (encode_basestring_ascii s ++ sep_key ++ a ++ b'
                ++ "}"%char :: rest).
      rewrite (object_reads_back rt d HF' Hnl s x n a b' rest Hx Hnx Ea Eb').
      * simpl. rewrite dict_of_pairs_distinct; [reflexivity | | exact Hdist].
        simpl. exact Hs.
      * rewrite !length_app. simpl. rewrite !length_app. simpl. lia.
Qed.

(** [json.loads(json.dumps(v)) == v] on JSON-native values. *)
Lemma json_loads_dumps (rt : Runtime) (v : pyval) (s : string) :
  json_native rt v -> json_dumps rt v = Ok s -> json_loads rt s = Ok v.
Proof.
  intros Hn Hd. unfold json_dumps in Hd.
  apply bind_Ok in Hd as (out & He & Hd). injection Hd as <-.
  unfold json_loads, str, chars. rewrite list_ascii_of_string_of_list_ascii.
  destruct (encode_head rt v out Hn He) as (c & r & -> & Hws & _).
  simpl skip_ws. rewrite Hws.
  pose proof (native_reads_back rt v Hn
                (2 * List.length (c :: r) + 2)%nat (c :: r) [] He eq_refl)
    as H.
  rewrite app_nil_r in H. rewrite H by lia. reflexivity.
Qed.

(** *** What [json.loads] returns can be serialised again. *)

Lemma dict_set_shaped (k v : pyval) (d : dict) :
  forallb member_shaped d = true -> member_shaped (k, v) = true ->
  forallb member_shaped (dict_set k v d) = true.
Proof.
  intros Hd Hkv. induction d as [|[k' v'] d IH]; simpl.
  - now rewrite Hkv.
  - simpl in Hd. apply andb_true_iff in Hd as [H1 H2].
    destruct (key_eqb k k'); simpl.
    + rewrite H2, andb_true_r. unfold member_shaped in *. simpl in *.
      apply andb_true_iff in H1 as [-> _].
      now apply andb_true_iff in Hkv as [_ ->].
    + now rewrite H1, IH.
Qed.

Lemma dict_of_pairs_shaped (kvs : list (pyval * pyval)) :
  forallb member_shaped kvs = true ->
  forallb member_shaped (dict_of_pairs kvs) = true.
Proof.
  unfold dict_of_pairs.
  assert (G : forall acc, forallb member_shaped acc = true ->
                forallb member_shaped kvs = true ->
                forallb member_shaped
                  (fold_left (fun d kv => dict_set (fst kv) (snd kv) d)
                             kvs acc) = true).
  { induction kvs as [|[k v] kvs IH]; intros acc Ha Hk; simpl; [exact Ha|].
    simpl in Hk. apply andb_true_iff in Hk as [H1 H2].
    apply IH; [now apply dict_set_shaped | exact H2]. }
  now apply G.
Qed.

Lemma scan_number_kind (rt : Runtime) (l : list ascii)
  (res : pyval * list ascii) :
  scan_number rt l = Some res ->
  (exists z, fst res = VInt z) \/ (exists f, fst res = VFloat f).
Proof.
  unfold scan_number. intros H.
  repeat match type of H with
         | context [let (_, _) := ?x in _] => destruct x
         | context [match ?x with _ => _ end] => destruct x
         end;
    try discriminate H; injection H as <-; simpl; eauto.
Qed.

Lemma scan_number_shaped (rt : Runtime) (l r : list ascii) (v : pyval)
  (res : pyval * list ascii) :
  scan_number rt l = Some res -> int_limit res = Ok (v, r) ->
  json_shaped v = true.
Proof.
  intros H L. apply scan_number_kind in H.
  unfold int_limit in L. destruct res as [v' r']. simpl in *.
  destruct H as [[z ->]|[f ->]].
  - destruct (int_fits z) eqn:F; [|discriminate L].
    injection L as <- _. exact F.
  - injection L as <- _. reflexivity.
Qed.

Ltac inv_bind H :=
  let p := fresh "p" in
  let E := fresh "E" in
  apply bind_Ok in H as (p & E & H); destruct p.

Lemma scan_shaped (rt : Runtime) (n : nat) :
  (forall l v r, scan_once rt n l = Ok (v, r) -> json_shaped v = true)
  /\ (forall l vs r, JSONArray rt n l = Ok (vs, r) ->
        forallb json_shaped vs = true)
  /\ (forall l kvs r, JSONObject rt n l = Ok (kvs, r) ->
        forallb member_shaped kvs = true).
Proof.
  induction n as [|n (IHv & IHa & IHo)];
    [repeat split; intros; discriminate|].
  repeat split.
  - intros l v r H. cbn [scan_once] in H.
    destruct l as [|c l]; [discriminate H|].
    destruct (Ascii.eqb c DQ).
    { inv_bind H. injection H as <- _. reflexivity. }
    destruct (Ascii.eqb c "{").
    { destruct (skip_ws l) as [|c' r']; [discriminate H|].
      destruct (Ascii.eqb c' "}"); [injection H as <- _; reflexivity|].
      inv_bind H. injection H as <- _. simpl.
      apply dict_of_pairs_shaped. eapply IHo; eassumption. }
    destruct (Ascii.eqb c "[").
    { destruct (skip_ws l) as [|c' r']; [discriminate H|].
      destruct (Ascii.eqb c' "]"); [injection H as <- _; reflexivity|].
      inv_bind H. injection H as <- _. simpl. eapply IHa; eassumption. }
    destruct (drop_prefix (chars "null") (c :: l));
      [injection H as <- _; reflexivity|].
    destruct (drop_prefix (chars "true") (c :: l));
      [injection H as <- _; reflexivity|].
    destruct (drop_prefix (chars "false") (c :: l));
      [injection H as <- _; reflexivity|].
    destruct (scan_number rt (c :: l)) as [res|] eqn:E.
    { eapply scan_number_shaped; eassumption. }
    destruct (drop_prefix (chars "NaN") (c :: l));
      [injection H as <- _; reflexivity|].
    destruct (drop_prefix (chars "Infinity") (c :: l));
      [injection H as <- _; reflexivity|].
    destruct (drop_prefix (chars "-Infinity") (c :: l));
      [injection H as <- _; reflexivity|].
    discriminate H.
  - intros l vs r H. cbn [JSONArray] in H.
    inv_bind H.
    destruct (skip_ws l0) as [|c r']; [discriminate H|].
    destruct (Ascii.eqb c "]").
    { injection H as <- _. simpl. erewrite IHv by eassumption. reflexivity. }
    destruct (Ascii.eqb c ","); [|discriminate H].
    inv_bind H. injection H as <- _. simpl.
    erewrite IHv by eassumption. eapply IHa; eassumption.
  - intros l kvs r H. cbn [JSONObject] in H.
    destruct l as [|c l]; [discriminate H|].
    destruct (Ascii.eqb c DQ); [|discriminate H].
    inv_bind H.
    destruct (skip_ws l1) as [|c1 r2]; [discriminate H|].
    destruct (Ascii.eqb c1 ":"); [|discriminate H].
    inv_bind H.
    destruct (skip_ws l2) as [|c3 r4]; [discriminate H|].
    destruct (Ascii.eqb c3 "}").
    { injection H as <- _. simpl. unfold member_shaped. simpl.
      erewrite IHv by eassumption. reflexivity. }
    destruct (Ascii.eqb c3 ","); [|discriminate H].
    inv_bind H. injection H as <- _. simpl. unfold member_shaped at 1. simpl.
    erewrite IHv by eassumption. eapply IHo; eassumption.
Qed.

Lemma json_loads_shaped (rt : Runtime) (s : string) (v : pyval) :
  json_loads rt s = Ok v -> json_shaped v = true.
Proof.
  unfold json_loads. intros H. inv_bind H.
  destruct (skip_ws l); [|discriminate H]. injection H as <-.
  eapply (proj1 (scan_shaped rt _)); eassumption.
Qed.

Lemma encode_items_total (rt : Runtime) (l : list pyval) :
  Forall (fun x => exists out, encode rt x = Ok out) l ->
  forall first, exists b, encode_items (encode rt) first l = Ok b.
Proof.
  induction 1 as [|x l (a & Ha) _ IH]; intros first; simpl.
  - eauto.
  - rewrite Ha. destruct (IH false) as (b & Hb). simpl in Hb |- *.
    rewrite Hb. simpl. eauto.
Qed.

Lemma encode_members_total (rt : Runtime) (d : list (pyval * pyval)) :
  Forall (fun kv => is_str (fst kv) = true
                    /\ exists out, encode rt (snd kv) = Ok out) d ->
  forall first,
  exists b, encode_members (encode_key rt) (encode rt) first d = Ok b.
Proof.
  induction 1 as [|[k x] d (Hk & a & Ha) _ IH]; intros first; simpl.
  - eauto.
  - simpl in Hk, Ha. destruct k; try discriminate Hk. simpl.
    rewrite Ha. destruct (IH false) as (b & Hb). simpl in Hb |- *.
    rewrite Hb. simpl. eauto.
Qed.

(** Every value of the shape [json.loads] returns has an encoding. *)
Lemma encode_shaped (rt : Runtime) (v : pyval) :
  json_shaped v = true -> exists out, encode rt v = Ok out.
Proof.
  induction v using pyval_ind_nested; intros Hs; try discriminate Hs;
    simpl; eauto.
  - destruct b; eauto.
  - simpl in Hs. unfold int_text. rewrite Hs. simpl. eauto.
  - simpl in Hs.
    destruct (encode_items_total rt l) with (first := true) as (b & Hb).
    { rewrite forallb_forall in Hs. rewrite Forall_forall in H |- *.
      intros x Hx. apply (H x Hx), (Hs x Hx). }
    rewrite Hb. simpl. eauto.
  - simpl in Hs.
    destruct (encode_members_total rt d) with (first := true) as (b & Hb).
    { rewrite forallb_forall in Hs. rewrite Forall_forall in H |- *.
      intros kv Hin. specialize (Hs kv Hin).
      apply andb_true_iff in Hs as [Hk Hv]. split; [exact Hk|].
      now apply (H kv Hin). }
    rewrite Hb. simpl. eauto.
Qed.

Lemma json_dumps_loaded (rt : Runtime) (s : string) (v : pyval) :
  json_loads rt s = Ok v -> exists out, json_dumps rt v = Ok out.
Proof.
  intros H. apply json_loads_shaped in H.
  destruct (encode_shaped rt v H) as (out & E).
  unfold json_dumps. rewrite E. simpl. eauto.
Qed.

(** *** The two records of [remove_background] *)

Lemma dumps_error_record (rt : Runtime) (msg : string) :
  exists s, json_dumps rt (error_record msg) = Ok s
            /\ json_loads rt s = Ok (error_record msg).
Proof.
  assert (E : exists s, json_dumps rt (error_record msg) = Ok s)
    by (unfold json_dumps; simpl; eauto).
  destruct E as (s & E). exists s. split; [exact E|].
  now apply json_loads_dumps.
Qed.

Lemma dumps_processed_record (rt : Runtime) (p : string) :
  exists s, json_dumps rt (processed_record p) = Ok s
            /\ json_loads rt s = Ok (processed_record p).
Proof.
  assert (E : exists s, json_dumps rt (processed_record p) = Ok s)
    by (unfold json_dumps; simpl; eauto).
  destruct E as (s & E). exists s. split; [exact E|].
  now apply json_loads_dumps.
Qed.

(** *** Keys that are strings *)

Lemma key_eqb_str (a : string) (k : pyval) :
  key_eqb (VStr a) k = true -> k = VStr a.
Proof.
  destruct k; simpl; try discriminate.
  intros H. apply String.eqb_eq in H. now subst.
Qed.

Lemma dict_get_set (k k' : string) (v : pyval) (d : dict) :
  dict_get (VStr k) (dict_set (VStr k') v d)
  = if String.eqb k k' then Some v else dict_get (VStr k) d.
Proof.
  induction d as [|[ki vi] d IH].
  - simpl. reflexivity.
  - cbn [dict_set dict_get].
    destruct (key_eqb (VStr k') ki) eqn:E'.
    + apply key_eqb_str in E'. subst ki. cbn [dict_get]. simpl key_eqb.
      destruct (String.eqb k k'); reflexivity.
    + cbn [dict_get]. destruct (key_eqb (VStr k) ki) eqn:E.
      * apply key_eqb_str in E. subst ki. simpl in E'.
        destruct (String.eqb k k') eqn:Ek; [|reflexivity].
        apply String.eqb_eq in Ek. subst k'.
        now rewrite String.eqb_refl in E'.
      * exact IH.
Qed.

Lemma dict_set_has (k k' v : pyval) (d : dict) :
  dict_has k d = true -> dict_has k (dict_set k' v d) = true.
Proof.
  unfold dict_has. induction d as [|[ki vi] d IH]; [discriminate|].
  cbn [dict_set dict_get].
  destruct (key_eqb k' ki); cbn [dict_get];
    destruct (key_eqb k ki); auto.
Qed.

Lemma fold_set_has (k : pyval) (l : list (pyval * pyval)) (d : dict) :
  dict_has k d = true ->
  dict_has k (fold_left (fun acc kv => dict_set (fst kv) (snd kv) acc) l d)
  = true.
Proof.
  revert d. induction l as [|[k' v'] l IH]; intros d H; simpl; [exact H|].
  apply IH. now apply dict_set_has.
Qed.

Lemma update_pairs_has (k : pyval) (l : list pyval) (d : dict) :
  dict_has k d = true -> dict_has k (fst (update_pairs d l)) = true.
Proof.
  revert d. induction l as [|x l IH]; intros d H; simpl; [exact H|].
  destruct (update_pair x) as [[k' v']|e]; [|exact H].
  apply IH. now apply dict_set_has.
Qed.

Lemma dict_update_has (k v : pyval) (d : dict) :
  dict_has k d = true -> dict_has k (fst (dict_update d v)) = true.
Proof.
  intros H. unfold dict_update.
  destruct v; simpl;
    try exact H; try (now apply update_pairs_has); try (now apply fold_set_has).
Qed.

(** *** The decoder never lacks fuel

    Every successful scan reads at least one character, so that the fuel
    [json_loads] starts with is never used up: the only exceptions of the
    decoder are those of malformed input. *)

Lemma skip_ws_length (l : list ascii) :
  (List.length (skip_ws l) <= List.length l)%nat.
Proof.
  induction l as [|c l IH]; simpl; [lia|].
  destruct (is_ws c); simpl; lia.
Qed.

Lemma scanstring_length (l : list ascii) :
  forall m pend s r,
    scanstring m pend l = Ok (s, r) -> (List.length r < List.length l)%nat.
Proof.
  induction l as [|c l IH]; intros m pend s r H; cbn [scanstring] in H;
    [discriminate H|].
  assert (E : forall m' p' (x : ascii) q,
             emit q x (scanstring m' p' l) = Ok (s, r) ->
             (List.length r < S (List.length l))%nat).
  { intros m' p' x q He. unfold emit in He.
    apply bind_Ok in He as ([s' r'] & Hs & He). injection He as _ <-.
    apply IH in Hs. lia. }
  cbn [List.length]. destruct m as [| |k acc].
  - destruct (Ascii.eqb c DQ); [injection H as _ <-; lia|].
    destruct (Ascii.eqb c "\"); [apply IH in H; lia|].
    destruct (ord c <? 32)%nat; [discriminate H|]. now apply E in H.
  - destruct (Ascii.eqb c "u"); [apply IH in H; lia|].
    destruct (simple_escape c); [now apply E in H | discriminate H].
  - destruct (hex_value c) as [d|]; [|discriminate H].
    destruct k as [|k']; [|apply IH in H; lia].
    destruct (pend && is_low_surrogate (16 * acc + d)); [now apply E in H|].
    destruct (is_high_surrogate (16 * acc + d)); [|now apply E in H].
    apply bind_Ok in H as ([s' r'] & Hs & H). injection H as _ <-.
    apply IH in Hs. lia.
Qed.

Lemma scanstring_raises (l : list ascii) :
  forall m pend e,
    scanstring m pend l = Raise e -> exn_cls e = JSONDecodeError.
Proof.
  induction l as [|c l IH]; intros m pend e H; cbn [scanstring] in H;
    [injection H as <-; reflexivity|].
  assert (E : forall m' p' (x : ascii) q,
             emit q x (scanstring m' p' l) = Raise e ->
             exn_cls e = JSONDecodeError).
  { intros m' p' x q He. unfold emit in He.
    destruct (scanstring m' p' l) as [[s' r']|e'] eqn:Hs;
      [discriminate He|].
    injection He as <-. now apply IH in Hs. }
  destruct m as [| |k acc].
  - destruct (Ascii.eqb c DQ); [discriminate H|].
    destruct (Ascii.eqb c "\"); [now apply IH in H|].
    destruct (ord c <? 32)%nat; [injection H as <-; reflexivity|].
    now apply E in H.
  - destruct (Ascii.eqb c "u"); [now apply IH in H|].
    destruct (simple_escape c);
      [now apply E in H | injection H as <-; reflexivity].
  - destruct (hex_value c) as [d|]; [|injection H as <-; reflexivity].
    destruct k as [|k']; [|now apply IH in H].
    destruct (pend && is_low_surrogate (16 * acc + d)); [now apply E in H|].
    destruct (is_high_surrogate (16 * acc + d)); [|now apply E in H].
    destruct (scanstring Plain true l) as [[s' r']|e'] eqn:Hs;
      [discriminate H|].
    injection H as <-. now apply IH in Hs.
Qed.

Lemma span_digits_length (l ds r : list ascii) :
  span_digits l = (ds, r) ->
  List.length l = (List.length ds + List.length r)%nat.
Proof.
  revert ds r. induction l as [|c l IH]; intros ds r H; simpl in H.
  - injection H as <- <-. reflexivity.
  - destruct (is_digit c).
    + destruct (span_digits l) as [ds' r'] eqn:E. injection H as <- <-.
      simpl. now rewrite (IH ds' r' eq_refl).
    + injection H as <- <-. reflexivity.
Qed.

Lemma drop_prefix_length (p l r : list ascii) :
  drop_prefix p l = Some r ->
  List.length l = (List.length p + List.length r)%nat.
Proof.
  revert l. induction p as [|a p IH]; intros l H; simpl in H.
  - injection H as <-. reflexivity.
  - destruct l as [|b l]; [discriminate H|].
    destruct (Ascii.eqb a b); [|discriminate H].
    simpl. now rewrite (IH l H).
Qed.

Lemma int_part_length (d : ascii) (t ds r1 : list ascii) :
  is_digit d = true -> int_part d t = (ds, r1) ->
  (List.length r1 <= List.length t)%nat.
Proof.
  unfold int_part. intros Hd E. destruct (Ascii.eqb d "0").
  - injection E as _ <-. lia.
  - simpl in E. rewrite Hd in E.
    destruct (span_digits t) as [ds' r'] eqn:Es. injection E as _ <-.
    apply span_digits_length in Es. lia.
Qed.

Lemma frac_part_length (r1 frac r2 : list ascii) :
  frac_part r1 = (frac, r2) -> (List.length r2 <= List.length r1)%nat.
Proof.
  unfold frac_part. intros E.
  destruct r1 as [|x r']; [injection E as _ <-; lia|].
  destruct (Ascii.eqb x "."); [|injection E as _ <-; lia].
  destruct (span_digits r') as [[|f fs] r''] eqn:Es;
    injection E as _ <-; [lia|].
  apply span_digits_length in Es. simpl in *. lia.
Qed.

Lemma exp_part_length (r2 ex r3 : list ascii) :
  exp_part r2 = (ex, r3) -> (List.length r3 <= List.length r2)%nat.
Proof.
  unfold exp_part. intros E.
  destruct r2 as [|x r']; [injection E as _ <-; lia|].
  destruct (Ascii.eqb x "e" || Ascii.eqb x "E");
    [|injection E as _ <-; lia].
  destruct r' as [|s t].
  - simpl in E. injection E as _ <-. lia.
  - destruct (Ascii.eqb s "+" || Ascii.eqb s "-").
    + destruct (span_digits t) as [[|f fs] r''] eqn:Es;
        injection E as _ <-; [lia|].
      apply span_digits_length in Es. simpl in *. lia.
    + destruct (span_digits (s :: t)) as [[|f fs] r''] eqn:Es;
        injection E as _ <-; [lia|].
      apply span_digits_length in Es. simpl in *. lia.
Qed.

Lemma scan_number_length (rt : Runtime) (l r : list ascii) (v : pyval) :
  scan_number rt l = Some (v, r) -> (List.length r < List.length l)%nat.
Proof.
  unfold scan_number. intros H.
  destruct l as [|c l]; [discriminate H|].
  assert (G : forall (neg : bool) d t,
             (if is_digit d then
                let (ds, r1) := int_part d t in
                let (frac, r2) := frac_part r1 in
                let (ex, r3) := exp_part r2 in
                match frac, ex with
                | [], [] =>
                    let z := int_of_digits ds in
                    Some (VInt (if neg then - z else z), r3)
                | _, _ =>
                    let text :=
                      (if neg then ["-"%char] else []) ++ ds ++ frac ++ ex in
                    Some (VFloat (float_of_literal rt (str text)), r3)
                end
              else None) = Some (v, r) ->
             (List.length r <= List.length t)%nat).
  { intros neg d t G. destruct (is_digit d) eqn:Hd; [|discriminate G].
    destruct (int_part d t) as [ds r1] eqn:E1.
    apply (int_part_length d t ds r1 Hd) in E1.
    destruct (frac_part r1) as [frac r2] eqn:E2. apply frac_part_length in E2.
    destruct (exp_part r2) as [ex r3] eqn:E3. apply exp_part_length in E3.
    destruct frac, ex; injection G as _ <-; lia. }
  cbv beta iota in H. destruct (Ascii.eqb c "-").
  - destruct l as [|d t]; [discriminate H|].
    pose proof (G true d t H). simpl. lia.
  - pose proof (G false c l H). simpl. lia.
Qed.

Lemma scan_consumes (rt : Runtime) (n : nat) :
  (forall l v r, scan_once rt n l = Ok (v, r) ->
     (List.length r < List.length l)%nat)
  /\ (forall l vs r, JSONArray rt n l = Ok (vs, r) ->
        (List.length r < List.length l)%nat)
  /\ (forall l kvs r, JSONObject rt n l = Ok (kvs, r) ->
        (List.length r < List.length l)%nat).
Proof.
  induction n as [|n (IHv & IHa & IHo)];
    [repeat split; intros; discriminate|].
  repeat split.
  - intros l v r H. cbn [scan_once] in H.
    destruct l as [|c l]; [discriminate H|]. cbn [List.length].
    destruct (Ascii.eqb c DQ).
    { inv_bind H. injection H as _ <-. apply scanstring_length in E. lia. }
    destruct (Ascii.eqb c "{").
    { pose proof (skip_ws_length l) as Hw.
      destruct (skip_ws l) as [|c' r']; [discriminate H|].
      cbn [List.length] in Hw.
      destruct (Ascii.eqb c' "}"); [injection H as _ <-; lia|].
      inv_bind H. injection H as _ <-. apply IHo in E.
      cbn [List.length] in E. lia. }
    destruct (Ascii.eqb c "[").
    { pose proof (skip_ws_length l) as Hw.
      destruct (skip_ws l) as [|c' r']; [discriminate H|].
      cbn [List.length] in Hw.
      destruct (Ascii.eqb c' "]"); [injection H as _ <-; lia|].
      inv_bind H. injection H as _ <-. apply IHa in E.
      cbn [List.length] in E. lia. }
    change (S (List.length l)) with (List.length (c :: l)).
    destruct (drop_prefix (chars "null") (c :: l)) eqn:D1;
      [injection H as _ <-; apply drop_prefix_length in D1;
       rewrite D1; simpl; lia|].
    destruct (drop_prefix (chars "true") (c :: l)) eqn:D2;
      [injection H as _ <-; apply drop_prefix_length in D2;
       rewrite D2; simpl; lia|].
    destruct (drop_prefix (chars "false") (c :: l)) eqn:D3;
      [injection H as _ <-; apply drop_prefix_length in D3;
       rewrite D3; simpl; lia|].
    destruct (scan_number rt (c :: l)) as [[v' r']|] eqn:E.
    { apply scan_number_length in E. unfold int_limit in H. simpl in H.
      destruct v'; try (injection H as _ <-; exact E).
      destruct (int_fits z); [|discriminate H].
      injection H as _ <-. exact E. }
    destruct (drop_prefix (chars "NaN") (c :: l)) eqn:D4;
      [injection H as _ <-; apply drop_prefix_length in D4;
       rewrite D4; simpl; lia|].
    destruct (drop_prefix (chars "Infinity") (c :: l)) eqn:D5;
      [injection H as _ <-; apply drop_prefix_length in D5;
       rewrite D5; simpl; lia|].
    destruct (drop_prefix (chars "-Infinity") (c :: l)) eqn:D6;
      [injection H as _ <-; apply drop_prefix_length in D6;
       rewrite D6; simpl; lia|].
    discriminate H.
  - intros l vs r H. cbn [JSONArray] in H.
    inv_bind H. apply IHv in E.
    pose proof (skip_ws_length l0) as Hw.
    destruct (skip_ws l0) as [|c r']; [discriminate H|].
    cbn [List.length] in Hw.
    destruct (Ascii.eqb c "]"); [injection H as _ <-; lia|].
    destruct (Ascii.eqb c ","); [|discriminate H].
    inv_bind H. injection H as _ <-. apply IHa in E0.
    pose proof (skip_ws_length r'). lia.
  - intros l kvs r H. cbn [JSONObject] in H.
    destruct l as [|c l]; [discriminate H|]. cbn [List.length].
    destruct (Ascii.eqb c DQ); [|discriminate H].
    inv_bind H. apply scanstring_length in E.
    pose proof (skip_ws_length l1) as Hw1.
    destruct (skip_ws l1) as [|c1 r2]; [discriminate H|].
    cbn [List.length] in Hw1.
    destruct (Ascii.eqb c1 ":"); [|discriminate H].
    inv_bind H. apply IHv in E0.
    pose proof (skip_ws_length r2) as Hw2.
    pose proof (skip_ws_length l2) as Hw3.
    destruct (skip_ws l2) as [|c3 r4]; [discriminate H|].
    cbn [List.length] in Hw3.
    destruct (Ascii.eqb c3 "}"); [injection H as _ <-; lia|].
    destruct (Ascii.eqb c3 ","); [|discriminate H].
    inv_bind H. injection H as _ <-. apply IHo in E1.
    pose proof (skip_ws_length r4). lia.
Qed.

Lemma bind_Raise {A B : Type} (m : result A) (k : A -> result B) (e : exn) :
  bind m k = Raise e ->
  m = Raise e \/ exists a, m = Ok a /\ k a = Raise e.
Proof. destruct m as [a|e']; simpl; intros H; [eauto | left; congruence]. Qed.

Ltac decode_raised H :=
  injection H as <-; left; reflexivity.

Lemma scan_raises (rt : Runtime) (n : nat) :
  (forall l e, (2 * List.length l + 1 <= n)%nat ->
     scan_once rt n l = Raise e -> decoder_error e)
  /\ (forall l e, (2 * List.length l + 2 <= n)%nat ->
        JSONArray rt n l = Raise e -> decoder_error e)
  /\ (forall l e, (2 * List.length l + 2 <= n)%nat ->
        JSONObject rt n l = Raise e -> decoder_error e).
Proof.
  induction n as [|n (IHv & IHa & IHo)];
    [repeat split; intros; lia|].
  destruct (scan_consumes rt n) as (Cv & Ca & Co).
  repeat split.
  - intros l e Hn H. cbn [scan_once] in H.
    destruct l as [|c l]; [decode_raised H|]. cbn [List.length] in Hn.
    destruct (Ascii.eqb c DQ).
    { apply bind_Raise in H as [H|([s r] & _ & H)];
        [left; now apply scanstring_raises in H | discriminate H]. }
    destruct (Ascii.eqb c "{").
    { pose proof (skip_ws_length l) as Hw.
      destruct (skip_ws l) as [|c' r']; [decode_raised H|].
      cbn [List.length] in Hw.
      destruct (Ascii.eqb c' "}"); [discriminate H|].
      apply bind_Raise in H as [H|([kvs r] & _ & H)]; [|discriminate H].
      apply IHo in H; [exact H | cbn [List.length]; lia]. }
    destruct (Ascii.eqb c "[").
    { pose proof (skip_ws_length l) as Hw.
      destruct (skip_ws l) as [|c' r']; [decode_raised H|].
      cbn [List.length] in Hw.
      destruct (Ascii.eqb c' "]"); [discriminate H|].
      apply bind_Raise in H as [H|([vs r] & _ & H)]; [|discriminate H].
      apply IHa in H; [exact H | cbn [List.length]; lia]. }
    destruct (drop_prefix (chars "null") (c :: l)); [discriminate H|].
    destruct (drop_prefix (chars "true") (c :: l)); [discriminate H|].
    destruct (drop_prefix (chars "false") (c :: l)); [discriminate H|].
    destruct (scan_number rt (c :: l)) as [[v' r']|].
    { unfold int_limit in H. simpl in H.
      destruct v'; try discriminate H.
      destruct (int_fits z); [discriminate H|].
      injection H as <-. right. reflexivity. }
    destruct (drop_prefix (chars "NaN") (c :: l)); [discriminate H|].
    destruct (drop_prefix (chars "Infinity") (c :: l)); [discriminate H|].
    destruct (drop_prefix (chars "-Infinity") (c :: l)); [discriminate H|].
    decode_raised H.
  - intros l e Hn H. cbn [JSONArray] in H.
    apply bind_Raise in H as [H|([v r] & Hv & H)];
      [apply IHv in H; [exact H | lia]|].
    apply Cv in Hv.
    pose proof (skip_ws_length r) as Hw.
    destruct (skip_ws r) as [|c r']; [decode_raised H|].
    cbn [List.length] in Hw.
    destruct (Ascii.eqb c "]"); [discriminate H|].
    destruct (Ascii.eqb c ","); [|decode_raised H].
    apply bind_Raise in H as [H|([vs r''] & _ & H)]; [|discriminate H].
    pose proof (skip_ws_length r').
    apply IHa in H; [exact H | lia].
  - intros l e Hn H. cbn [JSONObject] in H.
    destruct l as [|c l]; [decode_raised H|]. cbn [List.length] in Hn.
    destruct (Ascii.eqb c DQ); [|decode_raised H].
    apply bind_Raise in H as [H|([k r1] & Hk & H)];
      [left; now apply scanstring_raises in H|].
    apply scanstring_length in Hk.
    pose proof (skip_ws_length r1) as Hw1.
    destruct (skip_ws r1) as [|c1 r2]; [decode_raised H|].
    cbn [List.length] in Hw1.
    destruct (Ascii.eqb c1 ":"); [|decode_raised H].
    pose proof (skip_ws_length r2) as Hw2.
    apply bind_Raise in H as [H|([v r3] & Hv & H)];
      [apply IHv in H; [exact H | lia]|].
    apply Cv in Hv.
    pose proof (skip_ws_length r3) as Hw3.
    destruct (skip_ws r3) as [|c3 r4]; [decode_raised H|].
    cbn [List.length] in Hw3.
    destruct (Ascii.eqb c3 "}"); [discriminate H|].
    destruct (Ascii.eqb c3 ","); [|decode_raised H].
    apply bind_Raise in H as [H|([kvs r5] & _ & H)]; [|discriminate H].
    pose proof (skip_ws_length r4).
    apply IHo in H; [exact H | lia].
Qed.

(** [json.loads] raises nothing but [JSONDecodeError] and the
    [ValueError] of an integer too long: its fuel always suffices. *)
Lemma json_loads_raises (rt : Runtime) (s : string) (e : exn) :
  json_loads rt s = Raise e -> decoder_error e.
Proof.
  unfold json_loads. intros H.
  apply bind_Raise in H as [H|([v r] & _ & H)].
  - apply (proj1 (scan_raises rt _)) in H; [exact H | lia].
  - destruct (skip_ws r); [discriminate H | decode_raised H].
Qed.

Local Open Scope string_scope.

(** ** Frame lemmas for the statements of the page *)

Lemma monotone_ret {A : Type} (a : A) : monotone (ret a).
Proof. intros s. split; [exists []; simpl; now rewrite app_nil_r | auto]. Qed.

Lemma monotone_lift {A : Type} (r : result A) : monotone (lift r).
Proof. intros s. split; [exists []; simpl; now rewrite app_nil_r | auto]. Qed.

Lemma monotone_draw (u : ui) : monotone (draw u).
Proof. intros s. split; [exists [u]; reflexivity | auto]. Qed.

Lemma monotone_call {A : Type} (t : list event * result A) :
  monotone (call t).
Proof. intros s. split; [exists []; simpl; now rewrite app_nil_r | auto]. Qed.

Lemma monotone_setitem (k : string) (v : pyval) : monotone (setitem k v).
Proof.
  intros s. split; [exists []; simpl; now rewrite app_nil_r|].
  intros k' H. simpl. now apply dict_set_has.
Qed.

Lemma monotone_update (v : pyval) : monotone (update v).
Proof.
  intros s. unfold update.
  pose proof (fun k => dict_update_has k v (final_results s)) as H.
  destruct (dict_update (final_results s) v) as [d r]. simpl in *.
  split; [exists []; now rewrite app_nil_r | exact H].
Qed.

Lemma monotone_bind {A B : Type} (m : M A) (k : A -> M B) :
  monotone m -> (forall a, monotone (k a)) -> monotone (bindM m k).
Proof.
  intros Hm Hk s. unfold bindM.
  destruct (Hm s) as [(more & E) Hh].
  destruct (m s) as [s' [a|e]]; simpl in *.
  - destruct (Hk a s') as [(more' & E') Hh'].
    split.
    + exists (more ++ more')%list. now rewrite E', E, app_assoc.
    + intros k0 H0. now apply Hh', Hh.
  - split; [now exists more | exact Hh].
Qed.

Lemma monotone_try {A : Type} (m : M A) (h : exn -> M A) :
  monotone m -> (forall e, monotone (h e)) -> monotone (try_except m h).
Proof.
  intros Hm Hh s. unfold try_except.
  destruct (Hm s) as [(more & E) Hk].
  destruct (m s) as [s' [a|e]]; simpl in *.
  - split; [now exists more | exact Hk].
  - destruct (Hh e s') as [(more' & E') Hk'].
    split.
    + exists (more ++ more')%list. now rewrite E', E, app_assoc.
    + intros k0 H0. now apply Hk', Hk.
Qed.

Create HintDb frame.
#[local] Hint Resolve monotone_ret monotone_lift monotone_draw monotone_call
  monotone_setitem monotone_update : frame.

Ltac frame :=
  repeat first
    [ apply monotone_bind; [|intros ?]
    | apply monotone_try; [|intros ?]
    | progress auto with frame
    | match goal with
      | |- monotone (if ?b then _ else _) => destruct b
      | |- monotone (match ?x with _ => _ end) => destruct x
      end ].

Lemma monotone_task_photo (w : World) (rt : Runtime) (p : string) :
  monotone (task_photo w rt p).
Proof. unfold task_photo. frame. Qed.

Lemma monotone_task_content (w : World) (rt : Runtime) (note : string) :
  monotone (task_content w rt note).
Proof. unfold task_content. frame. Qed.

Lemma monotone_task_finalize (rt : Runtime) (note : string) :
  monotone (task_finalize rt note).
Proof. unfold task_finalize. frame. Qed.

Lemma leaves_ret (k : string) {A : Type} (a : A) : leaves k (ret a).
Proof. intros s. reflexivity. Qed.

Lemma leaves_lift (k : string) {A : Type} (r : result A) : leaves k (lift r).
Proof. intros s. reflexivity. Qed.

Lemma leaves_draw (k : string) (u : ui) : leaves k (draw u).
Proof. intros s. reflexivity. Qed.

Lemma leaves_call (k : string) {A : Type} (t : list event * result A) :
  leaves k (call t).
Proof. intros s. reflexivity. Qed.

Lemma leaves_setitem (k k' : string) (v : pyval) :
  String.eqb k k' = false -> leaves k (setitem k' v).
Proof. intros H s. simpl. now rewrite dict_get_set, H. Qed.

Lemma leaves_bind (k0 : string) {A B : Type} (m : M A) (k : A -> M B) :
  leaves k0 m -> (forall a, leaves k0 (k a)) -> leaves k0 (bindM m k).
Proof.
  intros Hm Hk s. unfold bindM. specialize (Hm s).
  destruct (m s) as [s' [a|e]]; simpl in *; [|exact Hm].
  now rewrite Hk.
Qed.

#[local] Hint Resolve leaves_ret leaves_lift leaves_draw leaves_call : frame.

(** Task 1 writes two keys only. *)
Lemma leaves_task_photo (w : World) (rt : Runtime) (p k : string) :
  String.eqb k "processed_image_path" = false ->
  String.eqb k "error_bg_removal" = false ->
  leaves k (task_photo w rt p).
Proof.
  intros H1 H2. unfold task_photo.
  repeat first
    [ apply leaves_bind; [|intros ?]
    | progress auto with frame
    | apply leaves_setitem; assumption
    | match goal with
      | |- leaves _ (if ?b then _ else _) => destruct b
      end ].
Qed.

(** ** The three tasks, run from a given state *)

Arguments json_loads : simpl never.
Arguments json_dumps : simpl never.

Lemma orchestrate_run (w : World) (rt : Runtime) (path note : string)
  (s : state) :
  orchestrate w rt path note s
  = match task_photo w rt path s with
    | (s1, Ok _) =>
        match task_content w rt note s1 with
        | (s2, Ok _) =>
            match task_finalize rt note s2 with
            | (s3, Ok a) => (s3, Ok a)
            | (s3, Raise e) => workflow_failed e s3
            end
        | (s2, Raise e) => workflow_failed e s2
        end
    | (s1, Raise e) => workflow_failed e s1
    end.
Proof.
  unfold orchestrate, try_except, bindM.
  destruct (task_photo w rt path s) as [s1 [[]|e1]]; [|reflexivity].
  destruct (task_content w rt note s1) as [s2 [[]|e2]]; reflexivity.
Qed.

Lemma workflow_failed_run (e : exn) (s : state) :
  workflow_failed e s
  = ({| final_results := final_results s;
        screen := (screen s ++ [StatusUpdate "Workflow Failed!" "error"])
                  ++ [Error ("A critical error occurred: " ++ exn_msg e)];
        effects := effects s |}, Ok tt).
Proof. reflexivity. Qed.

Lemma task_finalize_run (rt : Runtime) (note : string) (s : state) :
  task_finalize rt note s
  = ({| final_results :=
          dict_set (VStr "mock_url") (VStr (mock_url rt note))
            (final_results s);
        screen := (screen s ++ [StatusWrite "Task 3: Finalizing listing..."])
                  ++ [StatusUpdate "Orchestration Complete!" "complete"];
        effects := effects s |}, Ok tt).
Proof. reflexivity. Qed.

Lemma task_photo_failed (w : World) (rt : Runtime) (path msg : string)
  (s : state) :
  snd (remove_background w rt path) = json_dumps rt (error_record msg) ->
  task_photo w rt path s
  = ({| final_results :=
          dict_set (VStr "error_bg_removal") (VStr msg)
            (dict_set (VStr "processed_image_path") (VStr path)
               (final_results s));
        screen := (screen s
                   ++ [StatusWrite "Task 1: Enhancing product photo..."])
                  ++ [StatusWarning "Photo enhancement failed."];
        effects := effects s ++ fst (remove_background w rt path) |}, Ok tt).
Proof.
  intros H. destruct (dumps_error_record rt msg) as (js & Ed & El).
  rewrite Ed in H.
  unfold task_photo, bindM, draw, call, lift, setitem. simpl.
  rewrite H. simpl. rewrite El. reflexivity.
Qed.

Lemma task_photo_done (w : World) (rt : Runtime) (path p : string)
  (s : state) :
  snd (remove_background w rt path) = json_dumps rt (processed_record p) ->
  task_photo w rt path s
  = ({| final_results :=
          dict_set (VStr "processed_image_path") (VStr p) (final_results s);
        screen := (screen s
                   ++ [StatusWrite "Task 1: Enhancing product photo..."])
                  ++ [StatusWrite "Photo enhanced successfully."];
        effects := effects s ++ fst (remove_background w rt path) |}, Ok tt).
Proof.
  intros H. destruct (dumps_processed_record rt p) as (js & Ed & El).
  rewrite Ed in H.
  unfold task_photo, bindM, draw, call, lift, setitem. simpl.
  rewrite H. simpl. rewrite El. reflexivity.
Qed.

Lemma task_content_failed (w : World) (rt : Runtime) (note : string)
  (e : exn) (s : state) :
  chain_invoke w note = Raise e ->
  task_content w rt note s
  = ({| final_results :=
          dict_set (VStr "price") (VInt 0)
            (dict_set (VStr "hashtags") (VList [])
               (dict_set (VStr "description") (VStr "N/A")
                  (final_results s)));
        screen := (screen s
                   ++ [StatusWrite
                         "Task 2: Crafting product story, hashtags, and price..."])
                  ++ [StatusWarning "Content generation failed."];
        effects := effects s ++ [LlmInvoked note] |}, Ok tt).
Proof.
  intros H.
  destruct (dumps_error_record rt
              ("Error generating creative content: " ++ exn_msg e))
    as (js & Ed & El).
  unfold task_content, bindM, draw, call, lift, update,
    generate_creative_content. simpl.
  rewrite H. simpl in Ed. rewrite Ed. simpl. rewrite El. reflexivity.
Qed.

Lemma task_content_done (w : World) (rt : Runtime) (note reply : string)
  (d : dict) (s : state) :
  chain_invoke w note = Ok reply ->
  json_loads rt (replace "```" "" (replace "```json" "" (strip reply)))
  = Ok (VDict d) ->
  dict_has (VStr "error") d = false ->
  task_content w rt note s
  = ({| final_results :=
          fold_left (fun acc kv => dict_set (fst kv) (snd kv) acc) d
            (final_results s);
        screen := (screen s
                   ++ [StatusWrite
                         "Task 2: Crafting product story, hashtags, and price..."])
                  ++ [StatusWrite "Creative content generated."];
        effects := effects s ++ [LlmInvoked note] |}, Ok tt).
Proof.
  intros H Hl He.
  unfold task_content, bindM, draw, call, lift, update,
    generate_creative_content. simpl.
  rewrite H. simpl. rewrite Hl. simpl. rewrite He. reflexivity.
Qed.

Lemma task_content_malformed (w : World) (rt : Runtime) (note reply : string)
  (e : exn) (s : state) :
  chain_invoke w note = Ok reply ->
  json_loads rt (replace "```" "" (replace "```json" "" (strip reply)))
  = Raise e ->
  task_content w rt note s
  = ({| final_results := final_results s;
        screen := screen s
                  ++ [StatusWrite
                        "Task 2: Crafting product story, hashtags, and price..."];
        effects := effects s ++ [LlmInvoked note] |}, Raise e).
Proof.
  intros H Hl.
  unfold task_content, bindM, draw, call, lift, update,
    generate_creative_content. simpl.
  rewrite H. simpl. rewrite Hl. reflexivity.
Qed.

(** The screen after Task 1, from an empty one: its announcement, and at
    most one line on its outcome. *)
Lemma task_photo_screen (w : World) (rt : Runtime) (path : string) :
  forall u,
    In u (screen (fst (task_photo w rt path empty_state))) ->
    u = StatusWrite "Task 1: Enhancing product photo..."
    \/ u = StatusWarning "Photo enhancement failed."
    \/ u = StatusWrite "Photo enhanced successfully.".
Proof.
  intros u. unfold task_photo, bindM, draw, call, lift, setitem. simpl.
  destruct (snd (remove_background w rt path)); simpl;
    [|intuition auto].
  destruct (json_loads rt a); simpl; [|intuition auto].
  destruct (str_in "error" a0) as [[]|]; simpl; [| |intuition auto].
  - destruct (getitem_str a0 "error"); simpl; intuition auto.
  - destruct (getitem_str a0 "processed_image_path"); simpl; intuition auto.
Qed.

(** ** Malformed replies of the language model *)

(** C1: when the reply of the model, code fences removed, is not JSON,
    [generate_creative_content] hands it on as it is, [json.loads] raises
    inside [main], and the handler of the whole [try] ends the run: the
    status reads Workflow Failed, Task 3 does not run, and [final_results]
    gets no description, hashtags, price or URL.  No failed content result
    with its fallback is produced. *)
Theorem C1_malformed_reply_aborts (w : World) (rt : Runtime)
  (path note reply : string) (e : exn) :
  chain_invoke w note = Ok reply ->
  json_loads rt (replace "```" "" (replace "```json" "" (strip reply)))
  = Raise e ->
  let run := orchestrate w rt path note empty_state in
  snd (generate_creative_content w rt note)
  = Ok (replace "```" "" (replace "```json" "" (strip reply)))
  /\ snd run = Ok tt
  /\ In (StatusUpdate "Workflow Failed!" "error") (screen (fst run))
  /\ ~ In (StatusUpdate "Orchestration Complete!" "complete")
          (screen (fst run))
  /\ dict_has (VStr "description") (final_results (fst run)) = false
  /\ dict_has (VStr "hashtags") (final_results (fst run)) = false
  /\ dict_has (VStr "price") (final_results (fst run)) = false
  /\ dict_has (VStr "mock_url") (final_results (fst run)) = false.
Proof.
  intros Hreply Hloads run.
  split; [unfold generate_creative_content; simpl; now rewrite Hreply|].
  assert (L : forall k,
             String.eqb k "processed_image_path" = false ->
             String.eqb k "error_bg_removal" = false ->
             dict_has (VStr k)
               (final_results (fst (task_photo w rt path empty_state)))
             = false).
  { intros k H1 H2. unfold dict_has.
    now rewrite (leaves_task_photo w rt path k H1 H2). }
  pose proof (task_photo_screen w rt path) as S1.
  subst run. rewrite orchestrate_run.
  destruct (task_photo w rt path empty_state) as [s1 [[]|e1]];
    simpl in L, S1.
  - rewrite (task_content_malformed w rt note reply e s1 Hreply Hloads).
    rewrite workflow_failed_run. simpl.
    repeat split; try (now apply L).
    + apply in_or_app. left. apply in_or_app. right. now left.
    + intros Hin.
      apply in_app_or in Hin as [Hin|[Hin|[]]]; [|discriminate Hin].
      apply in_app_or in Hin as [Hin|[Hin|[]]]; [|discriminate Hin].
      apply in_app_or in Hin as [Hin|[Hin|[]]]; [|discriminate Hin].
      destruct (S1 _ Hin) as [H|[H|H]]; discriminate H.
  - rewrite workflow_failed_run. simpl.
    repeat split; try (now apply L).
    + apply in_or_app. left. apply in_or_app. right. now left.
    + intros Hin.
      apply in_app_or in Hin as [Hin|[Hin|[]]]; [|discriminate Hin].
      apply in_app_or in Hin as [Hin|[Hin|[]]]; [|discriminate Hin].
      destruct (S1 _ Hin) as [H|[H|H]]; discriminate H.
Qed.

(** ** The photo tool in every world *)

(** The JSON text of an error record determines its message. *)
Lemma error_record_inj (rt : Runtime) (m1 m2 : string) :
  json_dumps rt (error_record m1) = json_dumps rt (error_record m2) ->
  m1 = m2.
Proof.
  intros H.
  destruct (dumps_error_record rt m1) as (s1 & D1 & L1).
  destruct (dumps_error_record rt m2) as (s2 & D2 & L2).
  rewrite D1, D2 in H. injection H as <-. rewrite L1 in L2.
  now injection L2.
Qed.

Lemma error_not_processed (rt : Runtime) (msg p : string) :
  json_dumps rt (processed_record p) <> json_dumps rt (error_record msg).
Proof.
  intros H.
  destruct (dumps_error_record rt msg) as (s1 & D1 & L1).
  destruct (dumps_processed_record rt p) as (s2 & D2 & L2).
  rewrite D1, D2 in H. injection H as <-. rewrite L1 in L2.
  discriminate L2.
Qed.

Lemma processed_path_eq (image_path : string) :
  path_join "temp_uploads" ("processed_" ++ basename image_path)
  = "temp_uploads/processed_" ++ basename image_path.
Proof. reflexivity. Qed.

Lemma remove_background_except_record (rt : Runtime) (e : exn) :
  carries_response e ->
  exists msg,
    remove_background_except rt e = json_dumps rt (error_record msg).
Proof.
  intros C. unfold remove_background_except.
  destruct (issubclass (exn_cls e) HTTPError) eqn:E; [|eauto].
  destruct (exn_response e) as [r|] eqn:R;
    [|now contradiction (C E)].
  destruct ((status_code r =? 401)%Z || (status_code r =? 403)%Z); eauto.
Qed.

Lemma raise_for_status_carries (r : response) (e : exn) :
  raise_for_status r = Raise e -> carries_response e.
Proof.
  unfold raise_for_status. destruct (_ && _); [|discriminate].
  intros H. injection H as <-. intros _. discriminate.
Qed.

(** The outcomes of [remove_background]: an error record and no file
    written, or the record of the processed file, opened and written
    last. *)
Lemma remove_background_cases (w : World) (rt : Runtime)
  (image_path : string) :
  errors_carry_response w ->
  let p := "temp_uploads/processed_" ++ basename image_path in
  (exists evs msg,
      remove_background w rt image_path
      = (evs, json_dumps rt (error_record msg))
      /\ forall q body, ~ In (FileWritten q body) evs)
  \/ (exists evs body,
        remove_background w rt image_path
        = ((evs ++ [FileOpened p; FileWritten p body])%list,
           json_dumps rt (processed_record p))).
Proof.
  intros (Crb & Cpost & Cwb & Cfw). cbv zeta. unfold remove_background.
  assert (N0 : forall q body, ~ In (FileWritten q body) []) by (intros ? ? []).
  destruct (getenv w "CLIPDROP_API_KEY") as [[|c k]|];
    try (left; eexists _, _; split; [reflexivity | exact N0]).
  unfold remove_background_try.
  destruct (path_exists w image_path); cbn [negb];
    [|left; eexists _, _; split; [reflexivity | exact N0]].
  destruct (open_rb w image_path) as [f|e] eqn:Erb.
  2:{ destruct (remove_background_except_record rt e (Crb _ _ Erb))
        as (msg & ->).
      left. exists [], msg. split; [reflexivity | exact N0]. }
  assert (N1 : forall q body,
             ~ In (FileWritten q body)
                 [HttpPost clipdrop_url (basename image_path) f (String c k)])
    by (intros ? ? [H|[]]; discriminate H).
  destruct (requests_post w clipdrop_url (basename image_path) f
              (String c k)) as [resp|e] eqn:Ep.
  2:{ destruct (remove_background_except_record rt e (Cpost _ _ _ _ _ Ep))
        as (msg & ->).
      left. eexists _, msg. split; [reflexivity | exact N1]. }
  destruct (raise_for_status resp) as [[]|e] eqn:Es.
  2:{ destruct (remove_background_except_record rt e
                  (raise_for_status_carries _ _ Es)) as (msg & ->).
      left. eexists _, msg. split; [reflexivity | exact N1]. }
  rewrite processed_path_eq.
  destruct (open_wb w _) as [[]|e] eqn:Ew.
  2:{ destruct (remove_background_except_record rt e (Cwb _ _ Ew))
        as (msg & ->).
      left. eexists _, msg. split; [reflexivity | exact N1]. }
  destruct (file_write w _ (content resp)) as [[]|e] eqn:Ef.
  2:{ destruct (remove_background_except_record rt e (Cfw _ _ _ Ef))
        as (msg & ->).
      left. eexists _, msg. split; [reflexivity|].
      intros ? ? [H|[H|[]]]; discriminate H. }
  right. exists [HttpPost clipdrop_url (basename image_path) f (String c k)].
  eexists. reflexivity.
Qed.

Lemma reference_world_carries (key : option string) (files : list string)
  (resp : response) (reply : result string) :
  errors_carry_response (Reference.world key files (Ok resp) reply).
Proof.
  repeat split.
  - intros p e. unfold Reference.world. simpl.
    destruct (existsb _ files); [discriminate|].
    intros H. injection H as <-. discriminate.
  - intros url name body k e H. discriminate H.
  - intros p e H. discriminate H.
  - intros p body e H. discriminate H.
Qed.

(** ** The three tasks in every world *)

Lemma dict_has_set (k : string) (v : pyval) (d : dict) :
  dict_has (VStr k) (dict_set (VStr k) v d) = true.
Proof. unfold dict_has. now rewrite dict_get_set, String.eqb_refl. Qed.

(** Task 1 never aborts the run, in a world whose HTTP errors carry their
    reply: it leaves a path of the image on record. *)
Lemma task_photo_returns (w : World) (rt : Runtime) (path : string)
  (s : state) :
  errors_carry_response w ->
  exists s1,
    task_photo w rt path s = (s1, Ok tt)
    /\ (exists p, dict_get (VStr "processed_image_path") (final_results s1)
                  = Some (VStr p))
    /\ (exists more, screen s1 = (screen s ++ more)%list
                     /\ forall u, In u more ->
                          forall label st, u <> StatusUpdate label st)
    /\ effects s1 = (effects s ++ fst (remove_background w rt path))%list.
Proof.
  intros C.
  destruct (remove_background_cases w rt path C)
    as [(evs & msg & E & _)|(evs & body & E)].
  - rewrite (task_photo_failed w rt path msg s) by now rewrite E.
    eexists. split; [reflexivity|]. cbn [final_results screen effects].
    split; [exists path; now rewrite !dict_get_set|]. split; [|reflexivity].
    eexists. split; [now rewrite <- app_assoc|].
    intros u [<-|[<-|[]]]; discriminate.
  - rewrite (task_photo_done w rt path _ s) by now rewrite E.
    eexists. split; [reflexivity|]. cbn [final_results screen effects].
    split; [eexists; now rewrite dict_get_set|]. split; [|reflexivity].
    eexists. split; [now rewrite <- app_assoc|].
    intros u [<-|[<-|[]]]; discriminate.
Qed.

(** Task 2 calls the model once, whatever becomes of the reply, and draws
    lines of the status only. *)
Lemma task_content_frame (w : World) (rt : Runtime) (note : string)
  (s : state) :
  effects (fst (task_content w rt note s))
  = (effects s ++ [LlmInvoked note])%list
  /\ exists more,
       screen (fst (task_content w rt note s)) = (screen s ++ more)%list
       /\ forall u, In u more -> forall label st, u <> StatusUpdate label st.
Proof.
  unfold task_content, bindM, draw, call, lift, update.
  cbn [fst snd screen effects final_results generate_creative_content].
  destruct (match chain_invoke w note with Ok _ => _ | Raise _ => _ end)
    as [text|e]; cbn [fst snd screen effects final_results].
  2:{ split; [reflexivity|]. eexists. split; [reflexivity|].
      intros u [<-|[]]; discriminate. }
  destruct (json_loads rt text) as [v|e];
    cbn [fst snd screen effects final_results].
  2:{ split; [reflexivity|]. eexists. split; [reflexivity|].
      intros u [<-|[]]; discriminate. }
  destruct (str_in "error" v) as [[]|e];
    cbn [fst snd screen effects final_results].
  - destruct (dict_update _ (VDict content_fallback)) as [d r].
    cbn [fst snd screen effects final_results].
    split; [reflexivity|]. eexists. split; [now rewrite <- app_assoc|].
    intros u [<-|[<-|[]]]; discriminate.
  - destruct (dict_update _ v) as [d r].
    cbn [fst snd screen effects final_results].
    split; [reflexivity|]. eexists. split; [now rewrite <- app_assoc|].
    intros u [<-|[<-|[]]]; discriminate.
  - split; [reflexivity|]. eexists. split; [reflexivity|].
    intros u [<-|[]]; discriminate.
Qed.



(** ** Statements that only draw *)

Lemma read_only_ret {A : Type} (a : A) : read_only (ret a).
Proof. intros s. now split. Qed.

Lemma read_only_lift {A : Type} (r : result A) : read_only (lift r).
Proof. intros s. now split. Qed.

Lemma read_only_draw (u : ui) : read_only (draw u).
Proof. intros s. now split. Qed.

Lemma read_only_bind {A B : Type} (m : M A) (k : A -> M B) :
  read_only m -> (forall a, read_only (k a)) -> read_only (bindM m k).
Proof.
  intros Hm Hk s. unfold bindM. destruct (Hm s) as [F E].
  destruct (m s) as [s' [a|e]]; simpl in *; [|now split].
  destruct (Hk a s') as [F' E']. split; congruence.
Qed.

Lemma read_only_reader {A : Type} (f : state -> result A) :
  read_only (fun s => lift (f s) s).
Proof. intros s. now split. Qed.

Ltac read_only :=
  repeat first
    [ apply read_only_bind; [|intros ?]
    | apply read_only_ret | apply read_only_lift | apply read_only_draw
    | apply read_only_reader
    | match goal with
      | |- read_only (if ?b then _ else _) => destruct b
      | |- read_only (match ?x with _ => _ end) => destruct x
      end ].

Lemma read_only_display_photo (w : World) (rt : Runtime) (path : string)
  (results : dict) : read_only (display_photo w rt path results).
Proof. unfold display_photo. read_only. Qed.

Lemma read_only_display_pricing (results : dict) (user_price : float) :
  read_only (display_pricing results user_price).
Proof. unfold display_pricing. read_only. Qed.

Lemma read_only_display_details (results : dict) (user_price : float) :
  read_only (display_details results user_price).
Proof.
  unfold display_details.
  apply read_only_bind; [apply read_only_display_pricing | intros _].
  read_only.
Qed.

Lemma read_only_display_results (w : World) (rt : Runtime) (path : string)
  (results : dict) (user_price : float) :
  read_only (display_results w rt path results user_price).
Proof.
  unfold display_results.
  apply read_only_bind; [apply read_only_draw | intros _].
  apply read_only_bind; [apply read_only_display_photo | intros _].
  apply read_only_display_details.
Qed.

Lemma drawn_since_app (s s' : state) (more : list ui) :
  screen s' = (screen s ++ more)%list -> drawn_since s s' = more.
Proof.
  intros E. unfold drawn_since. rewrite E.
  rewrite skipn_app, skipn_all, Nat.sub_diag. reflexivity.
Qed.

Lemma str_items_ok (l : list pyval) :
  forallb is_str l = true -> exists items, str_items l = Ok items.
Proof.
  induction l as [|x l IH]; simpl; [eauto|].
  intros H. apply andb_true_iff in H as [Hx Hl].
  destruct x; try discriminate Hx.
  destruct (IH Hl) as (items & ->). simpl. eauto.
Qed.

Lemma str_items_raise (l : list pyval) :
  forallb is_str l = false ->
  exists e, str_items l = Raise e /\ exn_cls e = TypeError.
Proof.
  induction l as [|x l IH]; simpl; [discriminate|].
  intros H. destruct x; simpl in H; try (eexists; split; reflexivity).
  destruct (IH H) as (e & -> & C). simpl. eauto.
Qed.

(** ** What a statement draws *)

Lemma draws_no_ret (keep : ui -> bool) {A : Type} (a : A) :
  draws_no keep (ret a).
Proof. intros s. exists []. simpl. now rewrite app_nil_r. Qed.

Lemma draws_no_lift (keep : ui -> bool) {A : Type} (r : result A) :
  draws_no keep (lift r).
Proof. intros s. exists []. simpl. now rewrite app_nil_r. Qed.

Lemma draws_no_reader (keep : ui -> bool) {A : Type}
  (f : state -> result A) : draws_no keep (fun s => lift (f s) s).
Proof. intros s. exists []. simpl. now rewrite app_nil_r. Qed.

Lemma draws_no_call (keep : ui -> bool) {A : Type}
  (t : list event * result A) : draws_no keep (call t).
Proof. intros s. exists []. simpl. now rewrite app_nil_r. Qed.

Lemma draws_no_setitem (keep : ui -> bool) (k : string) (v : pyval) :
  draws_no keep (setitem k v).
Proof. intros s. exists []. simpl. now rewrite app_nil_r. Qed.

Lemma draws_no_update (keep : ui -> bool) (v : pyval) :
  draws_no keep (update v).
Proof.
  intros s. exists []. unfold update.
  destruct (dict_update (final_results s) v). simpl. now rewrite app_nil_r.
Qed.

Lemma draws_no_draw (keep : ui -> bool) (u : ui) :
  keep u = false -> draws_no keep (draw u).
Proof. intros H s. exists [u]. simpl. now rewrite H. Qed.

Lemma draws_no_bind (keep : ui -> bool) {A B : Type} (m : M A)
  (k : A -> M B) :
  draws_no keep m -> (forall a, draws_no keep (k a)) ->
  draws_no keep (bindM m k).
Proof.
  intros Hm Hk s. unfold bindM.
  destruct (Hm s) as (more & E & F).
  destruct (m s) as [s' [a|e]]; cbn [fst] in *.
  - destruct (Hk a s') as (more' & E' & F').
    exists (more ++ more')%list.
    rewrite E', E, app_assoc, filter_app, F, F'. now split.
  - exists more. now split.
Qed.

Lemma draws_no_try (keep : ui -> bool) {A : Type} (m : M A)
  (h : exn -> M A) :
  draws_no keep m -> (forall e, draws_no keep (h e)) ->
  draws_no keep (try_except m h).
Proof.
  intros Hm Hh s. unfold try_except.
  destruct (Hm s) as (more & E & F).
  destruct (m s) as [s' [a|e]]; cbn [fst] in *.
  - exists more. now split.
  - destruct (Hh e s') as (more' & E' & F').
    exists (more ++ more')%list.
    rewrite E', E, app_assoc, filter_app, F, F'. now split.
Qed.

Ltac draws_no :=
  repeat first
    [ apply draws_no_bind; [|intros ?]
    | apply draws_no_ret | apply draws_no_lift | apply draws_no_call
    | apply draws_no_setitem | apply draws_no_update
    | apply draws_no_reader
    | apply draws_no_draw; reflexivity
    | match goal with
      | |- draws_no _ (if ?b then _ else _) => destruct b
      | |- draws_no _ (match ?x with _ => _ end) => destruct x
      end ].

Lemma no_verdict_task_photo (w : World) (rt : Runtime) (path : string) :
  draws_no is_verdict (task_photo w rt path).
Proof. unfold task_photo. draws_no. Qed.

Lemma no_verdict_task_content (w : World) (rt : Runtime) (note : string) :
  draws_no is_verdict (task_content w rt note).
Proof. unfold task_content. draws_no. Qed.


Lemma no_verdict_format (prefix : string) (v : pyval) (k : rendered -> ui) :
  (forall t, is_verdict (k t) = false) ->
  draws_no is_verdict (bindM (lift (format_2f prefix v)) (fun t => draw (k t))).
Proof.
  intros H. apply draws_no_bind; [apply draws_no_lift | intros t].
  apply draws_no_draw, H.
Qed.

Lemma no_verdict_display_results (w : World) (rt : Runtime) (path : string)
  (results : dict) (user_price : float) :
  draws_no is_verdict (display_results w rt path results user_price).
Proof.
  unfold display_results, display_photo, display_details, display_pricing.
  draws_no.
Qed.

Lemma filter_none_in (keep : ui -> bool) (l : list ui) (u : ui) :
  filter keep l = [] -> keep u = true -> ~ In u l.
Proof.
  intros F K Hin.
  assert (H : In u (filter keep l)) by (apply filter_In; now split).
  now rewrite F in H.
Qed.

(** ** The right column of the listing *)

(** The pricing block, run from a state: the widgets that show a price,
    and how the block ends. *)
Lemma display_pricing_run (results : dict) (user_price : float)
  (s : state) :
  let ai_price := get_or_none "price" results in
  let yours := Metric "Your Selling Price" (Fmt2f "Rs " (VFloat user_price)) in
  let out : list ui * result unit :=
    if PrimFloat.ltb 0 user_price then
      if isinstance_int_float ai_price then
        match format_2f "AI Suggestion: Rs " ai_price with
        | Ok suggestion => ([yours; Info suggestion], Ok tt)
        | Raise e => ([yours], Raise e)
        end
      else ([yours], Ok tt)
    else if isinstance_int_float ai_price then
      match format_2f "Rs" ai_price with
      | Ok value => ([Metric "AI Recommended Price" value], Ok tt)
      | Raise e => ([], Raise e)
      end
    else ([Metric "Recommended Price" (Lit "N/A")], Ok tt) in
  display_pricing results user_price s
  = ({| final_results := final_results s;
        screen := (screen s ++ Markdown "##### Pricing" :: fst out)%list;
        effects := effects s |}, snd out).
Proof.
  cbv zeta. unfold display_pricing, bindM, draw, lift, ret.
  cbn [fst snd screen final_results effects format_2f].
  destruct (PrimFloat.ltb 0 user_price);
    destruct (isinstance_int_float (get_or_none "price" results));
    cbn [fst snd screen final_results effects];
    try (now rewrite <- ?app_assoc).
  - destruct (format_2f "AI Suggestion: Rs " (get_or_none "price" results));
      cbn [fst snd screen final_results effects];
      now rewrite <- ?app_assoc.
  - destruct (format_2f "Rs" (get_or_none "price" results));
      cbn [fst snd screen final_results effects];
      now rewrite <- ?app_assoc.
Qed.

Lemma bindM_ok {A B : Type} (m : M A) (k : A -> M B) (s s' : state) (a : A) :
  m s = (s', Ok a) -> bindM m k s = k a s'.
Proof. intros H. unfold bindM. now rewrite H. Qed.

Lemma bindM_raise {A B : Type} (m : M A) (k : A -> M B) (s s' : state)
  (e : exn) :
  m s = (s', Raise e) -> bindM m k s = (s', Raise e).
Proof. intros H. unfold bindM. now rewrite H. Qed.

Lemma C1_witness :
  let w := Reference.world_prose in
  let rt := Reference.runtime in
  let reply := "Sorry, I cannot help with that." in
  chain_invoke w Reference.note = Ok reply
  /\ json_loads rt (replace "```" "" (replace "```json" "" (strip reply)))
     = Raise (decode_error "Expecting value")
  /\ dict_has (VStr "description")
       (final_results
          (fst (orchestrate w rt Reference.upload Reference.note empty_state)))
     = false.
Proof.
  assert (H1 : chain_invoke Reference.world_prose Reference.note
               = Ok "Sorry, I cannot help with that.") by reflexivity.
  assert (H2 : json_loads Reference.runtime
                 (replace "```" ""
                    (replace "```json" ""
                       (strip "Sorry, I cannot help with that.")))
               = Raise (decode_error "Expecting value"))
    by (vm_compute; reflexivity).
  split; [exact H1|]. split; [exact H2|].
  exact (proj1 (proj2 (proj2 (proj2 (proj2
           (C1_malformed_reply_aborts Reference.world_prose Reference.runtime
              Reference.upload Reference.note _ _ H1 H2)))))).
Defined.

(** *** The entries of the reply *)

Lemma fold_set_get (k : string) (d acc : dict) :
  forallb (fun kv => is_str (fst kv)) d = true ->
  distinct_keys d = true ->
  dict_get (VStr k)
    (fold_left (fun acc kv => dict_set (fst kv) (snd kv) acc) d acc)
  = match dict_get (VStr k) d with
    | Some v => Some v
    | None => dict_get (VStr k) acc
    end.
Proof.
  revert acc. induction d as [|[k1 v1] d IH]; intros acc Hs Hd;
    [reflexivity|].
  simpl in Hs, Hd.
  apply andb_true_iff in Hs as [Hk Hs].
  apply andb_true_iff in Hd as [Hkd Hd]. apply negb_true_iff in Hkd.
  destruct k1 as [| | | |k1| | | | | | |]; try discriminate Hk.
  cbn [fold_left fst snd]. rewrite (IH _ Hs Hd).
  cbn [dict_get key_eqb]. rewrite dict_get_set.
  destruct (String.eqb k k1) eqn:E; [|reflexivity].
  apply String.eqb_eq in E. subst k1.
  unfold dict_has in Hkd. now destruct (dict_get (VStr k) d).
Qed.

Lemma dict_set_distinct (k : string) (v : pyval) (d : dict) :
  forallb (fun kv => is_str (fst kv)) d = true ->
  distinct_keys d = true ->
  distinct_keys (dict_set (VStr k) v d) = true.
Proof.
  induction d as [|[k1 v1] d IH]; intros Hs Hd; [reflexivity|].
  simpl in Hs, Hd.
  apply andb_true_iff in Hs as [Hk Hs].
  apply andb_true_iff in Hd as [Hkd Hd].
  destruct k1 as [| | | |k1| | | | | | |]; try discriminate Hk.
  cbn [dict_set key_eqb]. destruct (String.eqb k k1) eqn:E.
  - simpl. now rewrite Hkd, Hd.
  - cbn [distinct_keys]. rewrite (IH Hs Hd), andb_true_r.
    unfold dict_has in *. rewrite dict_get_set.
    rewrite String.eqb_sym, E. exact Hkd.
Qed.

Lemma dict_set_str_keys (k : string) (v : pyval) (d : dict) :
  forallb (fun kv => is_str (fst kv)) d = true ->
  forallb (fun kv => is_str (fst kv)) (dict_set (VStr k) v d) = true.
Proof.
  induction d as [|[k1 v1] d IH]; intros Hs; [reflexivity|].
  simpl in Hs. apply andb_true_iff in Hs as [Hk Hs].
  cbn [dict_set]. destruct (key_eqb (VStr k) k1); simpl.
  - now rewrite Hk, Hs.
  - now rewrite Hk, IH.
Qed.

Lemma dict_of_pairs_distinct_keys (kvs : list (pyval * pyval)) :
  forallb member_shaped kvs = true ->
  distinct_keys (dict_of_pairs kvs) = true
  /\ forallb (fun kv => is_str (fst kv)) (dict_of_pairs kvs) = true.
Proof.
  unfold dict_of_pairs.
  assert (G : forall acc,
             forallb member_shaped kvs = true ->
             distinct_keys acc = true ->
             forallb (fun kv => is_str (fst kv)) acc = true ->
             let d := fold_left (fun d kv => dict_set (fst kv) (snd kv) d)
                        kvs acc in
             distinct_keys d = true
             /\ forallb (fun kv => is_str (fst kv)) d = true).
  { induction kvs as [|[k v] kvs IH]; intros acc Hm Hd Hs; [now split|].
    simpl in Hm. apply andb_true_iff in Hm as [Hkv Hm].
    unfold member_shaped in Hkv. simpl in Hkv.
    apply andb_true_iff in Hkv as [Hk _].
    destruct k as [| | | |k| | | | | | |]; try discriminate Hk.
    cbn [fold_left fst snd]. apply IH; [exact Hm | |].
    - now apply dict_set_distinct.
    - now apply dict_set_str_keys. }
  intros H. now apply G.
Qed.

(** The keys of a dictionary that [json.loads] returns are distinct
    texts. *)
Lemma json_loads_distinct (rt : Runtime) (s : string) (d : dict) :
  json_loads rt s = Ok (VDict d) ->
  distinct_keys d = true
  /\ forallb (fun kv => is_str (fst kv)) d = true.
Proof.
  unfold json_loads. intros H. inv_bind H.
  destruct (skip_ws l) as [|x y]; [|discriminate H]. injection H as ->.
  rename E into H. revert H.
  replace (2 * List.length (skip_ws (chars s)) + 2)%nat
    with (S (2 * List.length (skip_ws (chars s)) + 1)) by lia.
  generalize (2 * List.length (skip_ws (chars s)) + 1)%nat.
  intros n H. cbn [scan_once] in H.
  destruct (skip_ws (chars s)) as [|c t]; [discriminate H|].
  destruct (Ascii.eqb c DQ); [inv_bind H; discriminate H|].
  destruct (Ascii.eqb c "{").
  { destruct (skip_ws t) as [|c' r']; [discriminate H|].
    destruct (Ascii.eqb c' "}"); [injection H as <- _; now split|].
    inv_bind H. injection H as <- _.
    apply dict_of_pairs_distinct_keys.
    eapply (proj2 (proj2 (scan_shaped rt _))); eassumption. }
  destruct (Ascii.eqb c "[").
  { destruct (skip_ws t) as [|c' r']; [discriminate H|].
    destruct (Ascii.eqb c' "]"); [discriminate H|].
    inv_bind H. discriminate H. }
  destruct (drop_prefix (chars "null") (c :: t)); [discriminate H|].
  destruct (drop_prefix (chars "true") (c :: t)); [discriminate H|].
  destruct (drop_prefix (chars "false") (c :: t)); [discriminate H|].
  destruct (scan_number rt (c :: t)) as [[v' r']|] eqn:E.
  { exfalso. apply scan_number_kind in E. unfold int_limit in H.
    cbn [fst] in E, H.
    destruct E as [[z ->]|[f ->]]; [destruct (int_fits z)|];
      discriminate H. }
  destruct (drop_prefix (chars "NaN") (c :: t)); [discriminate H|].
  destruct (drop_prefix (chars "Infinity") (c :: t)); [discriminate H|].
  destruct (drop_prefix (chars "-Infinity") (c :: t)); discriminate H.
Qed.



(** ** Stage failures and their fallbacks *)




(** ** The photo stage *)

(** C4: when the image path names no file, [remove_background] returns a
    failure record whose message says so (or, without a key, that the key
    is missing), and causes no event at all: no network call is made. *)
Theorem C4_missing_file_fails_offline (w : World) (rt : Runtime)
  (image_path : string) :
  path_exists w image_path = false ->
  exists msg s,
    remove_background w rt image_path = ([], Ok s)
    /\ json_dumps rt (error_record msg) = Ok s
    /\ json_loads rt s = Ok (error_record msg)
    /\ existsb is_network (fst (remove_background w rt image_path)) = false
    /\ (msg = "Clipdrop API Key is missing. Please add it in the sidebar."
        \/ msg = "The file path '" ++ image_path ++ "' does not exist.")
    /\ (forall key,
           getenv w "CLIPDROP_API_KEY" = Some key -> key <> "" ->
           msg = "The file path '" ++ image_path ++ "' does not exist.").
Proof.
  intros H.
  assert (N : exists msg,
             remove_background w rt image_path
             = ([], json_dumps rt (error_record msg))
             /\ (msg = "Clipdrop API Key is missing. Please add it in the sidebar."
                 \/ msg = "The file path '" ++ image_path
                           ++ "' does not exist.")
             /\ (forall key,
                    getenv w "CLIPDROP_API_KEY" = Some key -> key <> "" ->
                    msg = "The file path '" ++ image_path
                          ++ "' does not exist.")).
  { unfold remove_background.
    destruct (getenv w "CLIPDROP_API_KEY") as [[|c k]|].
    - eexists. split; [reflexivity|]. split; [now left|].
      intros key E Hk. injection E as <-. now contradiction Hk.
    - unfold remove_background_try. rewrite H. simpl negb. cbv iota.
      eexists. split; [reflexivity|]. split; [now right|]. reflexivity.
    - eexists. split; [reflexivity|]. split; [now left|].
      intros key E. discriminate E. }
  destruct N as (msg & R & Hmsg & Hkey).
  destruct (dumps_error_record rt msg) as (s & Ed & El).
  exists msg, s. rewrite R, Ed. simpl. auto 7.
Qed.

Lemma C4_witness :
  path_exists Reference.world_down Reference.upload = false
  /\ exists msg s,
      remove_background Reference.world_down Reference.runtime
        Reference.upload = ([], Ok s)
      /\ json_loads Reference.runtime s = Ok (error_record msg).
Proof.
  split; [reflexivity|].
  destruct (C4_missing_file_fails_offline Reference.world_down
              Reference.runtime Reference.upload eq_refl)
    as (msg & s & H1 & _ & H3 & _).
  exists msg, s. split; assumption.
Defined.

Lemma orchestrate_ok (w : World) (rt : Runtime) (path note : string)
  (s : state) :
  snd (orchestrate w rt path note s) = Ok tt.
Proof.
  rewrite orchestrate_run.
  destruct (task_photo w rt path s) as [s1 [[]|e1]]; [|reflexivity].
  destruct (task_content w rt note s1) as [s2 [[]|e2]]; reflexivity.
Qed.

Lemma monotone_orchestrate (w : World) (rt : Runtime) (path note : string) :
  monotone (orchestrate w rt path note).
Proof.
  unfold orchestrate. apply monotone_try.
  - apply monotone_bind; [apply monotone_task_photo | intros _].
    apply monotone_bind; [apply monotone_task_content | intros _].
    apply monotone_task_finalize.
  - intros e. unfold workflow_failed. frame.
Qed.

Lemma monotone_display_details (results : dict) (user_price : float) :
  monotone (display_details results user_price).
Proof. unfold display_details. frame. Qed.

(** With an error of the photo stage on record, the page shows the
    original image. *)
Lemma display_results_original (w : World) (rt : Runtime) (path : string)
  (results : dict) (user_price : float) (s : state) :
  dict_has (VStr "error_bg_removal") results = true ->
  In (Image (VStr path) "Original Image (Unprocessed)")
     (screen (fst (display_results w rt path results user_price s))).
Proof.
  intros H. unfold display_results, display_photo. rewrite H.
  unfold bindM, draw. simpl.
  match goal with
  | |- In _ (screen (fst (display_details _ _ ?s'))) =>
      destruct (monotone_display_details results user_price s')
        as [(more & E) _]; rewrite E
  end.
  simpl. apply in_or_app. left. apply in_or_app. right. now left.
Qed.

(** [main] with a note: the announcement, the three tasks, a rule, and the
    listing when there is anything to show. *)
Lemma main_run (w : World) (rt : Runtime) (path note : string)
  (user_price : float) :
  env_set w "GOOGLE_API_KEY" = true ->
  env_set w "CLIPDROP_API_KEY" = true ->
  note <> "" ->
  main w rt path note user_price
  = let s1 := fst (orchestrate w rt path note
                     (fst (draw (Subheader "2. AI Co-pilot at Work")
                             empty_state))) in
    let s2 := fst (draw (Markdown "---") s1) in
    match final_results s2 with
    | [] => (s2, Ok tt)
    | _ => display_results w rt path (final_results s2) user_price s2
    end.
Proof.
  intros Hg Hc Hn. unfold main. rewrite Hg, Hc. cbn [andb negb].
  destruct (String.eqb note "") eqn:E;
    [apply String.eqb_eq in E; contradiction|].
  unfold bindM at 1. simpl (draw _ empty_state).
  unfold bindM at 1.
  pose proof (orchestrate_ok w rt path note
                (fst (draw (Subheader "2. AI Co-pilot at Work") empty_state)))
    as Hok.
  simpl in Hok |- *.
  destruct (orchestrate w rt path note _) as [s1 r1]. simpl in Hok. subst r1.
  reflexivity.
Qed.

(** The message for a rejected key is not the one made from a status
    code and the text of a reply. *)
Lemma invalid_key_not_status (r : response) :
  invalid_key_message
  <> "Clipdrop API Error: " ++ str_of_Z (status_code r) ++ " - " ++ text r.
Proof.
  intros E. unfold invalid_key_message in E. simpl in E.
  destruct (str_of_Z_head (status_code r)) as (c & t & Ec & Hc).
  assert (Es : str_of_Z (status_code r) = String c (str t)).
  { unfold str. change (String c (string_of_list_ascii t))
      with (string_of_list_ascii (c :: t)).
    rewrite <- Ec. unfold chars.
    now rewrite string_of_list_ascii_of_string. }
  rewrite Es in E. simpl in E. injection E as E _.
  subst c. destruct Hc as [Hc|Hc]; discriminate Hc.
Qed.

(** The handlers of [remove_background] give the message for a rejected
    key to an [HTTPError] with the status 401 or 403, and to no other
    exception. *)
Lemma invalid_key_only (rt : Runtime) (e : exn) (msg : string) :
  remove_background_except rt e = json_dumps rt (error_record msg) ->
  (msg = invalid_key_message
   <-> issubclass (exn_cls e) HTTPError = true
       /\ exists r, exn_response e = Some r
                    /\ (status_code r = 401 \/ status_code r = 403)%Z).
Proof.
  unfold remove_background_except.
  destruct (issubclass (exn_cls e) HTTPError) eqn:Ec.
  - destruct (exn_response e) as [r|] eqn:Er.
    + destruct ((status_code r =? 401)%Z || (status_code r =? 403)%Z)
        eqn:Es; intros H; apply error_record_inj in H; subst msg.
      * split; [intros _|reflexivity]. split; [reflexivity|].
        exists r. split; [reflexivity|].
        apply orb_true_iff in Es as [Es|Es]; apply Z.eqb_eq in Es; auto.
      * split.
        -- intros E. symmetry in E.
           now contradiction (invalid_key_not_status r).
        -- intros (_ & r' & Er' & Hs). injection Er' as <-.
           apply orb_false_iff in Es as [E1 E3].
           apply Z.eqb_neq in E1. apply Z.eqb_neq in E3.
           destruct Hs; contradiction.
    + intros H. destruct (dumps_error_record rt msg) as (s & D & _).
      rewrite D in H. discriminate H.
  - intros H. apply error_record_inj in H. subst msg. split.
    + intros E. discriminate E.
    + intros (E & _). discriminate E.
Qed.

(** What the [try] of [remove_background] returns, when it returns. *)
Lemma remove_background_try_returns (w : World) (rt : Runtime)
  (key image_path s : string) :
  snd (remove_background_try w rt key image_path) = Ok s ->
  json_dumps rt
    (error_record ("The file path '" ++ image_path ++ "' does not exist."))
  = Ok s
  \/ exists p, json_dumps rt (processed_record p) = Ok s.
Proof.
  unfold remove_background_try.
  destruct (path_exists w image_path); cbn [negb snd]; [|now left].
  destruct (open_rb w image_path) as [f|e]; [|discriminate].
  destruct (requests_post w _ _ f key) as [resp|e]; [|discriminate].
  destruct (raise_for_status resp) as [[]|e]; [|discriminate].
  destruct (open_wb w _) as [[]|e]; [|discriminate].
  destruct (file_write w _ _) as [[]|e]; [|discriminate].
  cbn [snd]. eauto.
Qed.

(** C5: when the background-removal service answers 401, the tool returns
    the failure record with the invalid-key message, Task 1 records the
    original image and that message, and the page shows the original
    image.  The message tells this failure from the others: the handlers
    of the tool give it to an HTTPError with the status 401 or 403 and to
    no other exception, and the tool returns it, in any world and for any
    path, only when such an error was raised. *)
Theorem C5_unauthorized_falls_back (w : World) (rt : Runtime)
  (path note key image : string) (user_price : float) (resp : response) :
  env_set w "GOOGLE_API_KEY" = true ->
  getenv w "CLIPDROP_API_KEY" = Some key -> key <> "" ->
  path_exists w path = true ->
  open_rb w path = Ok image ->
  requests_post w clipdrop_url (basename path) image key = Ok resp ->
  status_code resp = 401%Z ->
  note <> "" ->
  snd (remove_background w rt path)
  = json_dumps rt (error_record invalid_key_message)
  /\ final_results (fst (task_photo w rt path empty_state))
     = [(VStr "processed_image_path", VStr path);
        (VStr "error_bg_removal", VStr invalid_key_message)]
  /\ In (Image (VStr path) "Original Image (Unprocessed)")
        (screen (fst (main w rt path note user_price)))
  /\ (forall r, invalid_key_message
                <> "Clipdrop API Error: " ++ str_of_Z (status_code r)
                   ++ " - " ++ text r)
  /\ (forall e msg,
         remove_background_except rt e = json_dumps rt (error_record msg) ->
         (msg = invalid_key_message
          <-> issubclass (exn_cls e) HTTPError = true
              /\ exists r, exn_response e = Some r
                           /\ (status_code r = 401
                               \/ status_code r = 403)%Z))
  /\ (forall w' image_path,
         snd (remove_background w' rt image_path)
         = json_dumps rt (error_record invalid_key_message) ->
         exists key' e r,
           getenv w' "CLIPDROP_API_KEY" = Some key'
           /\ snd (remove_background_try w' rt key' image_path) = Raise e
           /\ issubclass (exn_cls e) HTTPError = true
           /\ exn_response e = Some r
           /\ (status_code r = 401 \/ status_code r = 403)%Z).
Proof.
  intros Hgoogle Hkey Hne Hex Hopen Hpost H401 Hnote.
  assert (Hclip : env_set w "CLIPDROP_API_KEY" = true).
  { unfold env_set. rewrite Hkey. destruct key; [contradiction | reflexivity]. }
  assert (R : snd (remove_background w rt path)
              = json_dumps rt (error_record invalid_key_message)).
  { unfold remove_background. rewrite Hkey.
    destruct key as [|c k]; [contradiction|].
    unfold remove_background_try. rewrite Hex. simpl negb. cbv iota.
    rewrite Hopen, Hpost. unfold raise_for_status. rewrite H401. simpl.
    unfold remove_background_except. simpl. now rewrite H401. }
  split; [exact R|]. split; [|split; [|split; [|split]]].
  - now rewrite (task_photo_failed w rt path invalid_key_message).
  - rewrite main_run by assumption. cbv zeta.
    set (s0 := fst (draw (Subheader "2. AI Co-pilot at Work") empty_state)).
    assert (Hhas : dict_has (VStr "error_bg_removal")
                     (final_results (fst (orchestrate w rt path note s0)))
                   = true).
    { rewrite orchestrate_run.
      rewrite (task_photo_failed w rt path invalid_key_message) by exact R.
      match goal with
      | |- context [task_content w rt note ?s1] =>
          pose proof (proj2 (monotone_task_content w rt note s1)
                        (VStr "error_bg_removal") eq_refl) as Hc;
          destruct (task_content w rt note s1) as [s2 [[]|e2]]
      end; simpl in Hc.
      - rewrite task_finalize_run. simpl. now apply dict_set_has.
      - rewrite workflow_failed_run. exact Hc. }
    simpl (final_results (fst (draw _ _))).
    destruct (final_results (fst (orchestrate w rt path note s0))) eqn:F;
      [discriminate Hhas|].
    now apply display_results_original.
  - exact invalid_key_not_status.
  - exact (invalid_key_only rt).
  - intros w' image_path H. unfold remove_background in H.
    destruct (getenv w' "CLIPDROP_API_KEY") as [[|c k]|] eqn:K;
      try (apply error_record_inj in H; discriminate H).
    destruct (remove_background_try w' rt (String c k) image_path)
      as [evs [s|e]] eqn:T; cbn [snd] in H.
    + exfalso.
      destruct (remove_background_try_returns w' rt (String c k)
                  image_path s) as [D|(p & D)];
        [now rewrite T | |]; rewrite <- D in H.
      * apply error_record_inj in H. discriminate H.
      * now contradiction (error_not_processed rt invalid_key_message p).
    + destruct (proj1 (invalid_key_only rt e _ H) eq_refl)
        as (Ec & r & Er & Hs).
      exists (String c k), e, r. rewrite T. auto.
Qed.

Lemma C5_witness :
  In (Image (VStr Reference.upload) "Original Image (Unprocessed)")
     (screen (fst (main Reference.world_401 Reference.runtime
                     Reference.upload Reference.note 0%float))).
Proof.
  refine (proj1 (proj2 (proj2 (C5_unauthorized_falls_back Reference.world_401
                          Reference.runtime Reference.upload Reference.note
                          "secret" "<image bytes>" 0%float
                          Reference.unauthorized _ _ _ _ _ _ _ _))));
    try reflexivity; intros H; discriminate H.
Defined.

(** ** Finalisation *)

(** A run of the three tasks from any state ends with one verdict: complete,
    and then the URL on record is the one made from the note; or failed. *)
Lemma orchestrate_verdict (w : World) (rt : Runtime) (path note : string)
  (s : state) :
  let run := orchestrate w rt path note s in
  exists more,
    screen (fst run) = (screen s ++ more)%list
    /\ ((filter is_verdict more
         = [StatusUpdate "Orchestration Complete!" "complete"]
         /\ dict_get (VStr "mock_url") (final_results (fst run))
            = Some (VStr (mock_url rt note)))
        \/ filter is_verdict more = [StatusUpdate "Workflow Failed!" "error"]).
Proof.
  cbv zeta. rewrite orchestrate_run.
  destruct (no_verdict_task_photo w rt path s) as (m1 & E1 & F1).
  destruct (task_photo w rt path s) as [s1 [[]|e1]]; cbn [fst] in E1.
  - destruct (no_verdict_task_content w rt note s1) as (m2 & E2 & F2).
    destruct (task_content w rt note s1) as [s2 [[]|e2]]; cbn [fst] in E2.
    + rewrite task_finalize_run. cbn [fst final_results screen].
      exists (m1 ++ m2 ++ [StatusWrite "Task 3: Finalizing listing...";
                           StatusUpdate "Orchestration Complete!" "complete"])%list.
      split; [rewrite E2, E1, <- !app_assoc; reflexivity|].
      left. rewrite !filter_app, F1, F2. split; [reflexivity|].
      now rewrite dict_get_set.
    + rewrite workflow_failed_run. cbn [fst final_results screen].
      exists (m1 ++ m2 ++ [StatusUpdate "Workflow Failed!" "error";
                           Error ("A critical error occurred: " ++ exn_msg e2)])%list.
      split; [rewrite E2, E1, <- !app_assoc; reflexivity|].
      right. now rewrite !filter_app, F1, F2.
  - rewrite workflow_failed_run. cbn [fst final_results screen].
    exists (m1 ++ [StatusUpdate "Workflow Failed!" "error";
                   Error ("A critical error occurred: " ++ exn_msg e1)])%list.
    split; [rewrite E1, <- !app_assoc; reflexivity|].
    right. now rewrite !filter_app, F1.
Qed.

Lemma in_filter_verdict (u : ui) (l : list ui) :
  is_verdict u = true -> In u l -> In u (filter is_verdict l).
Proof. intros K H. apply filter_In. now split. Qed.

(** A page whose status reads complete has on record the URL made from the
    note. *)
Lemma main_complete (w : World) (rt : Runtime) (path note : string)
  (user_price : float) :
  let run := main w rt path note user_price in
  In (StatusUpdate "Orchestration Complete!" "complete") (screen (fst run)) ->
  dict_get (VStr "mock_url") (final_results (fst run))
  = Some (VStr (mock_url rt note)).
Proof.
  cbv zeta.
  destruct (env_set w "GOOGLE_API_KEY") eqn:Hg.
  2:{ unfold main. rewrite Hg. cbn [andb negb draw fst screen empty_state app].
      intros [H|[]]. discriminate H. }
  destruct (env_set w "CLIPDROP_API_KEY") eqn:Hc.
  2:{ unfold main. rewrite Hg, Hc.
      cbn [andb negb draw fst screen empty_state app].
      intros [H|[]]. discriminate H. }
  destruct (String.eqb note "") eqn:Hn.
  { unfold main. rewrite Hg, Hc, Hn. cbn [andb negb fst screen empty_state].
    intros []. }
  apply String.eqb_neq in Hn.
  rewrite (main_run w rt path note user_price Hg Hc Hn). cbv zeta.
  set (s0 := fst (draw (Subheader "2. AI Co-pilot at Work") empty_state)).
  destruct (orchestrate_verdict w rt path note s0) as (more & E & V).
  set (s1 := fst (orchestrate w rt path note s0)) in *.
  set (s2 := fst (draw (Markdown "---") s1)).
  assert (S2 : screen s2 = (screen s1 ++ [Markdown "---"])%list)
    by reflexivity.
  assert (G : forall tail : list ui,
             filter is_verdict tail = [] ->
             In (StatusUpdate "Orchestration Complete!" "complete")
                (screen s2 ++ tail) ->
             dict_get (VStr "mock_url") (final_results s1)
             = Some (VStr (mock_url rt note))).
  { intros tail T Hin.
    apply in_filter_verdict in Hin; [|reflexivity].
    rewrite S2, E, !filter_app, T in Hin.
    change (filter is_verdict (screen s0)) with (@nil ui) in Hin.
    cbn [filter is_verdict app] in Hin. rewrite app_nil_r in Hin.
    destruct V as [[V U]|V]; [exact U|].
    rewrite V in Hin. destruct Hin as [H|[]]. discriminate H. }
  destruct (final_results s2) as [|kv d] eqn:F.
  - cbn [fst]. change (final_results s2) with (final_results s1).
    intros Hin. apply (G []); [reflexivity|]. now rewrite app_nil_r.
  - destruct (read_only_display_results w rt path (kv :: d) user_price s2)
      as [RF _].
    destruct (no_verdict_display_results w rt path (kv :: d) user_price s2)
      as (tail & ET & FT).
    rewrite RF, ET. change (final_results s2) with (final_results s1).
    now apply G.
Qed.

(** C6 (as amended): within one process, that is for one hash function of
    the interpreter, the URL depends on the note alone.  The finalisation
    step returns normally from every state, causes no effect and records
    the URL made from the note; a page whose status ends complete has that
    URL on record, whatever the world, the image and the price; so two
    pages on the same note that end complete have the same URL. *)
Theorem C6_finalize_deterministic (rt : Runtime) (note : string) :
  let complete := StatusUpdate "Orchestration Complete!" "complete" in
  (forall s,
      let r := task_finalize rt note s in
      snd r = Ok tt
      /\ effects (fst r) = effects s
      /\ dict_get (VStr "mock_url") (final_results (fst r))
         = Some (VStr (mock_url rt note)))
  /\ (forall w path user_price,
         let run := main w rt path note user_price in
         In complete (screen (fst run)) ->
         dict_get (VStr "mock_url") (final_results (fst run))
         = Some (VStr (mock_url rt note)))
  /\ (forall w1 w2 path1 path2 price1 price2,
         let run1 := main w1 rt path1 note price1 in
         let run2 := main w2 rt path2 note price2 in
         In complete (screen (fst run1)) ->
         In complete (screen (fst run2)) ->
         dict_get (VStr "mock_url") (final_results (fst run1))
         = dict_get (VStr "mock_url") (final_results (fst run2))).
Proof.
  cbv zeta. split; [|split].
  - intros s. rewrite task_finalize_run. cbn [fst snd final_results effects].
    now rewrite dict_get_set.
  - intros w path user_price. apply main_complete.
  - intros w1 w2 path1 path2 price1 price2 H1 H2.
    rewrite (main_complete w1 rt path1 note price1 H1).
    now rewrite (main_complete w2 rt path2 note price2 H2).
Qed.

Lemma C6_witness :
  let run1 := main Reference.world_good Reference.runtime Reference.upload
                Reference.note 0 in
  let run2 := main Reference.world_401 Reference.runtime
                "temp_uploads/other.png" Reference.note 25 in
  In (StatusUpdate "Orchestration Complete!" "complete") (screen (fst run1))
  /\ In (StatusUpdate "Orchestration Complete!" "complete")
        (screen (fst run2))
  /\ dict_get (VStr "mock_url") (final_results (fst run1))
     = dict_get (VStr "mock_url") (final_results (fst run2)).
Proof.
  assert (H1 : In (StatusUpdate "Orchestration Complete!" "complete")
                 (screen (fst (main Reference.world_good Reference.runtime
                                 Reference.upload Reference.note 0))))
    by (vm_compute; tauto).
  assert (H2 : In (StatusUpdate "Orchestration Complete!" "complete")
                 (screen (fst (main Reference.world_401 Reference.runtime
                                 "temp_uploads/other.png" Reference.note 25))))
    by (vm_compute; tauto).
  split; [exact H1|]. split; [exact H2|].
  exact (proj2 (proj2 (C6_finalize_deterministic Reference.runtime
                         Reference.note))
           Reference.world_good Reference.world_401 Reference.upload
           "temp_uploads/other.png" 0%float 25%float H1 H2).
Defined.

(** The claim as stated fails: the hash of a text is seeded when the
    interpreter starts, and two interpreters give the same note on the same
    page two URLs. *)
Lemma C6_counterexample :
  ~ (forall (rt1 rt2 : Runtime) (w : World) (path note : string)
            (user_price : float),
        let run1 := main w rt1 path note user_price in
        let run2 := main w rt2 path note user_price in
        In (StatusUpdate "Orchestration Complete!" "complete")
           (screen (fst run1)) ->
        In (StatusUpdate "Orchestration Complete!" "complete")
           (screen (fst run2)) ->
        dict_get (VStr "mock_url") (final_results (fst run1))
        = dict_get (VStr "mock_url") (final_results (fst run2))).
Proof.
  intros H.
  specialize (H Reference.runtime (Reference.runtime_seeded 2024 1031)
                Reference.world_good Reference.upload Reference.note
                0%float).
  cbv zeta in H.
  assert (H1 : In (StatusUpdate "Orchestration Complete!" "complete")
                 (screen (fst (main Reference.world_good Reference.runtime
                                 Reference.upload Reference.note 0))))
    by (vm_compute; tauto).
  assert (H2 : In (StatusUpdate "Orchestration Complete!" "complete")
                 (screen (fst (main Reference.world_good
                                 (Reference.runtime_seeded 2024 1031)
                                 Reference.upload Reference.note 0))))
    by (vm_compute; tauto).
  specialize (H H1 H2). vm_compute in H. discriminate H.
Qed.

Lemma length_str_take (n : nat) (s : string) :
  String.length (str_take n s) = Nat.min n (String.length s).
Proof.
  unfold str_take. revert s. induction n as [|n IH]; intros s.
  - destruct s; reflexivity.
  - destruct s as [|c s]; simpl; [reflexivity|]. now rewrite IH.
Qed.

(** C7 (as amended): the URL is the fixed prefix followed by the first six
    characters of the decimal text of the hash of the note, sign included:
    at most six characters, and exactly six when that text has at least
    six. *)
Theorem C7_mock_url_suffix (rt : Runtime) (note : string) :
  let digits := str_of_Z (str_hash rt note) in
  mock_url rt note
  = "https://kalasahayk.com/gallery/artisan123/product_" ++ str_take 6 digits
  /\ String.length (str_take 6 digits) = Nat.min 6 (String.length digits)
  /\ (String.length (str_take 6 digits) <= 6)%nat
  /\ ((6 <= String.length digits)%nat ->
      String.length (str_take 6 digits) = 6%nat).
Proof.
  intros digits. rewrite length_str_take.
  repeat split; [lia | intros H; lia].
Qed.

Lemma C7_witness :
  (6 <= String.length
          (str_of_Z (str_hash Reference.runtime Reference.note)))%nat
  /\ String.length
       (str_take 6 (str_of_Z (str_hash Reference.runtime Reference.note)))
     = 6%nat.
Proof.
  assert (H : (6 <= String.length
                      (str_of_Z (str_hash Reference.runtime Reference.note)))%nat)
    by (vm_compute; lia).
  split; [exact H|].
  exact (proj2 (proj2 (proj2
           (C7_mock_url_suffix Reference.runtime Reference.note))) H).
Defined.

(** The claim as stated fails on a page that [main] does run, with a note
    that is not empty: in an interpreter whose seeded hash of the note is
    4242, the URL on record ends in product_4242, a suffix of four
    characters. *)
Lemma C7_counterexample :
  ~ (forall (w : World) (rt : Runtime) (path note url : string)
            (user_price : float),
        note <> "" ->
        dict_get (VStr "mock_url")
          (final_results (fst (main w rt path note user_price)))
        = Some (VStr url) ->
        exists suffix,
          url = "https://kalasahayk.com/gallery/artisan123/product_" ++ suffix
          /\ String.length suffix = 6%nat).
Proof.
  intros H.
  assert (N : Reference.note <> "") by discriminate.
  assert (U : dict_get (VStr "mock_url")
                (final_results
                   (fst (main Reference.world_good
                           (Reference.runtime_seeded 0 7372078152576138514)
                           Reference.upload Reference.note 0)))
              = Some (VStr "https://kalasahayk.com/gallery/artisan123/product_4242"))
    by (vm_compute; reflexivity).
  destruct (H _ _ _ _ _ _ N U) as (suffix & E & L).
  simpl in E. injection E as <-. discriminate L.
Qed.

(** ** Price precedence *)

Lemma format_2f_numeric (prefix : string) (v : pyval) :
  isinstance_int_float v = true ->
  format_2f prefix v
  = if match v with
       | VInt z => (Z.abs z <? float_limit)%Z
       | _ => true
       end
    then Ok (Fmt2f prefix v)
    else Raise (Exn OverflowError "int too large to convert to float").
Proof. destruct v; try discriminate; reflexivity. Qed.






(** ** The consolidation step *)

Lemma consolidate_data_dict (rt : Runtime) (s : string) (d : dict) :
  literal_eval rt s = Ok (VDict d) ->
  consolidate_data rt s
  = if has_required_keys d then json_dumps rt (VDict d)
    else Ok (missing_keys_message rt).
Proof.
  intros H. unfold consolidate_data, has_required_keys. rewrite H.
  cbn [bind].
  now destruct (forallb (fun key => dict_has (VStr key) d) required_keys).
Qed.

Lemma json_dumps_dict_brace (rt : Runtime) (d : dict) (out : string) :
  json_dumps rt (VDict d) = Ok out -> prefix "{" out = true.
Proof.
  unfold json_dumps. simpl. intros H.
  apply bind_Ok in H as (l & Hl & H). injection H as <-.
  apply bind_Ok in Hl as (b & _ & Hl). injection Hl as <-.
  unfold str. simpl. now destruct (string_of_list_ascii _).
Qed.

(** C8 (as amended): on an input that evaluates to a dictionary, the step
    returns the JSON text of the dictionary when the five required keys are
    there, and otherwise one fixed error text, which lists the five
    required keys and is the same whichever key is missing.  A text that
    starts like a JSON object is returned only when all five keys are
    present. *)
Theorem C8_consolidation_checks_keys (rt : Runtime) (s : string) (d : dict) :
  literal_eval rt s = Ok (VDict d) ->
  (forall k, In k required_keys -> dict_has (VStr k) d = false ->
      consolidate_data rt s = Ok (missing_keys_message rt))
  /\ (forall k, In k required_keys ->
        str_contains (repr_str k) (missing_keys_message rt) = true)
  /\ (has_required_keys d = true ->
      consolidate_data rt s = json_dumps rt (VDict d))
  /\ (forall out, consolidate_data rt s = Ok out -> prefix "{" out = true ->
        has_required_keys d = true).
Proof.
  intros H. rewrite (consolidate_data_dict rt s d H). repeat split.
  - intros k Hin Hk.
    assert (E : has_required_keys d = false).
    { unfold has_required_keys. apply not_true_is_false. intros A.
      rewrite forallb_forall in A. specialize (A k Hin). congruence. }
    now rewrite E.
  - intros k Hin. simpl in Hin.
    repeat (destruct Hin as [<-|Hin]; [vm_compute; reflexivity|]).
    contradiction.
  - intros E. now rewrite E.
  - intros out E P. destruct (has_required_keys d); [reflexivity|].
    injection E as <-. vm_compute in P. discriminate P.
Qed.

Lemma C8_witness :
  let rt := Reference.runtime in
  literal_eval rt Reference.record_without_price
  = Ok (VDict
          [(VStr "artisan_id", VStr "artisan_lc8765");
           (VStr "enhanced_image_path", VStr "processed_necklace.png");
           (VStr "description", VStr "A necklace");
           (VStr "hashtags", VList [VStr "#clay"; VStr "#warli"])])
  /\ consolidate_data rt Reference.record_without_price
     = Ok (missing_keys_message rt).
Proof.
  assert (H : literal_eval Reference.runtime Reference.record_without_price
              = Ok (VDict
                      [(VStr "artisan_id", VStr "artisan_lc8765");
                       (VStr "enhanced_image_path",
                        VStr "processed_necklace.png");
                       (VStr "description", VStr "A necklace");
                       (VStr "hashtags",
                        VList [VStr "#clay"; VStr "#warli"])]))
    by (vm_compute; reflexivity).
  split; [exact H|].
  refine (proj1 (C8_consolidation_checks_keys Reference.runtime _ _ H)
            "price" _ _).
  - simpl. tauto.
  - reflexivity.
Defined.

(** The claim as stated fails: the error text does not tell which key is
    missing.  A record without a price and a record without hashtags get
    the same text, so no reading of the text gives back the missing key. *)
Lemma C8_counterexample :
  ~ (exists name_of : string -> string,
        forall (rt : Runtime) (s : string) (d : dict) (k out : string),
          literal_eval rt s = Ok (VDict d) ->
          In k required_keys ->
          dict_has (VStr k) d = false ->
          (forall k', In k' required_keys -> k' <> k ->
                      dict_has (VStr k') d = true) ->
          consolidate_data rt s = Ok out ->
          name_of out = k).
Proof.
  intros (name_of & H).
  assert (H1 : name_of (missing_keys_message Reference.runtime) = "price").
  { eapply (H Reference.runtime Reference.record_without_price).
    - vm_compute. reflexivity.
    - simpl. tauto.
    - reflexivity.
    - intros k' Hin Hne. simpl in Hin.
      repeat (destruct Hin as [<-|Hin];
              [try reflexivity; now contradiction Hne|]).
      contradiction.
    - vm_compute. reflexivity. }
  assert (H2 : name_of (missing_keys_message Reference.runtime) = "hashtags").
  { eapply (H Reference.runtime Reference.record_without_hashtags).
    - vm_compute. reflexivity.
    - simpl. tauto.
    - reflexivity.
    - intros k' Hin Hne. simpl in Hin.
      repeat (destruct Hin as [<-|Hin];
              [try reflexivity; now contradiction Hne|]).
      contradiction.
    - vm_compute. reflexivity. }
  rewrite H1 in H2. discriminate H2.
Qed.

(** ** The mock publish step *)

(** C9 (as amended): on the JSON text of an object whose description can
    be hashed, the step reports success with the URL made of the artisan
    identifier (unknown_artisan when absent) and the hash of the
    description (of the empty text when absent) modulo 10000.  On any other
    input it returns an error text: when the input is not JSON, when it is
    JSON but not an object, when the description is a list or an object.
    It never raises. *)
Theorem C9_publish_reports (rt : Runtime) (s : string) :
  (forall d h,
      json_loads rt s = Ok (VDict d) ->
      py_hash rt (get_default "description" (VStr "") d) = Ok h ->
      publish_to_web_gallery rt s
      = "SUCCESS: Product live at "
        ++ gallery_url
             (py_str rt (get_default "artisan_id" (VStr "unknown_artisan") d))
             (h mod 10000))
  /\ (forall e,
        json_loads rt s = Raise e ->
        publish_to_web_gallery rt s = "Error publishing: " ++ exn_msg e)
  /\ (forall v,
        json_loads rt s = Ok v -> isinstance_dict v = false ->
        publish_to_web_gallery rt s
        = "Error publishing: '" ++ type_name v
          ++ "' object has no attribute 'get'")
  /\ (forall d e,
        json_loads rt s = Ok (VDict d) ->
        py_hash rt (get_default "description" (VStr "") d) = Raise e ->
        publish_to_web_gallery rt s = "Error publishing: " ++ exn_msg e).
Proof.
  unfold publish_to_web_gallery, publish_try. repeat split.
  - intros d h Hl Hh.
    destruct (json_dumps_loaded rt s (VDict d) Hl) as (out & Hd).
    rewrite Hl. cbn [bind py_get]. rewrite Hh. cbn [bind]. rewrite Hd.
    reflexivity.
  - intros e Hl. now rewrite Hl.
  - intros v Hl Hv. rewrite Hl. cbn [bind].
    destruct v; try discriminate Hv; reflexivity.
  - intros d e Hl Hh. rewrite Hl. cbn [bind py_get]. now rewrite Hh.
Qed.

Lemma C9_witness :
  let rt := Reference.runtime in
  let s := Reference.dq "{'artisan_id': 'artisan_lc8765', 'description': 'A necklace'}" in
  json_loads rt s
  = Ok (VDict [(VStr "artisan_id", VStr "artisan_lc8765");
               (VStr "description", VStr "A necklace")])
  /\ publish_to_web_gallery rt s
     = "SUCCESS: Product live at https://www.kalasahayk.com/gallery/artisan_lc8765/product"
       ++ str_of_Z (str_hash rt "A necklace" mod 10000).
Proof.
  assert (H : json_loads Reference.runtime
                (Reference.dq "{'artisan_id': 'artisan_lc8765', 'description': 'A necklace'}")
              = Ok (VDict [(VStr "artisan_id", VStr "artisan_lc8765");
                           (VStr "description", VStr "A necklace")]))
    by (vm_compute; reflexivity).
  split; [exact H|].
  exact (proj1 (C9_publish_reports Reference.runtime _) _ _ H eq_refl).
Defined.

(** The claim as stated fails: an input that is not JSON gets an error
    text, not a report of success. *)
Lemma C9_counterexample :
  ~ (forall (rt : Runtime) (s : string),
        prefix "SUCCESS" (publish_to_web_gallery rt s) = true).
Proof.
  intros H.
  specialize (H Reference.runtime "The product could not be consolidated.").
  vm_compute in H. discriminate H.
Qed.

(** ** Consolidation and parsing back *)

Lemma native_shaped (rt : Runtime) (v : pyval) :
  json_native rt v -> json_shaped v = true.
Proof.
  induction v using pyval_ind_nested; intros Hn; try contradiction Hn;
    try reflexivity; try exact Hn.
  - apply native_list in Hn. simpl.
    rewrite forallb_forall. rewrite Forall_forall in H, Hn.
    intros x Hx. now apply (H x Hx), Hn.
  - apply native_dict in Hn as [Hn _]. simpl.
    rewrite forallb_forall. rewrite Forall_forall in H, Hn.
    intros kv Hin. destruct (Hn kv Hin) as [Hk Hv]. rewrite Hk. simpl.
    now apply (H kv Hin).
Qed.

Lemma json_dumps_native (rt : Runtime) (v : pyval) :
  json_native rt v -> exists out, json_dumps rt v = Ok out.
Proof.
  intros H. apply native_shaped in H.
  destruct (encode_shaped rt v H) as (out & E).
  unfold json_dumps. rewrite E. simpl. eauto.
Qed.

(** *** What [json.dumps] writes is the text of the value as JSON has
    it: tuples as lists, keys as strings. *)

Lemma encode_key_as_json (rt : Runtime) (k : pyval) (ek : list ascii) :
  encode_key rt k = Ok ek -> encode_key rt (key_as_json rt k) = Ok ek.
Proof.
  destruct k; simpl; try discriminate; try (intros H; exact H).
  - destruct b; intros H; exact H.
  - unfold int_text. destruct (int_fits z); simpl; [|discriminate].
    intros H; exact H.
Qed.

Lemma encode_items_as_json (rt : Runtime) (l : list pyval) :
  Forall (fun x => forall out, encode rt x = Ok out ->
                     encode rt (as_json rt x) = Ok out) l ->
  forall first b,
    encode_items (encode rt) first l = Ok b ->
    encode_items (encode rt) first (map (as_json rt) l) = Ok b.
Proof.
  induction 1 as [|x l Hx _ IH]; intros first b H; [exact H|].
  apply encode_items_cons in H as (a & b' & Ea & Eb & ->).
  cbn [map encode_items]. rewrite (Hx _ Ea). cbn [bind].
  change (encode_items (encode rt) false (map (as_json rt) l))
    with (encode_items (encode rt) false (map (as_json rt) l)).
  fold (encode_items (encode rt)).
  now rewrite (IH false b' Eb).
Qed.

Lemma encode_members_as_json (rt : Runtime) (d : list (pyval * pyval)) :
  Forall (fun kv => forall out, encode rt (snd kv) = Ok out ->
                      encode rt (as_json rt (snd kv)) = Ok out) d ->
  forall first b,
    encode_members (encode_key rt) (encode rt) first d = Ok b ->
    encode_members (encode_key rt) (encode rt) first
      (map (fun kv => (key_as_json rt (fst kv), as_json rt (snd kv))) d)
    = Ok b.
Proof.
  induction 1 as [|[k x] d Hx _ IH]; intros first b H; [exact H|].
  apply encode_members_cons in H as (ek & a & b' & Ek & Ea & Eb & ->).
  cbn [map encode_members fst snd] in *.
  rewrite (encode_key_as_json rt k ek Ek). cbn [bind].
  rewrite (Hx _ Ea). cbn [bind].
  fold (encode_members (encode_key rt) (encode rt)).
  now rewrite (IH false b' Eb).
Qed.

Lemma encode_as_json (rt : Runtime) (v : pyval) (out : list ascii) :
  encode rt v = Ok out -> encode rt (as_json rt v) = Ok out.
Proof.
  revert out. induction v using pyval_ind_nested; intros out He;
    try exact He.
  - cbn [encode as_json] in *. apply bind_Ok in He as (b & Eb & He).
    now rewrite (encode_items_as_json rt l H true b Eb).
  - cbn [encode as_json] in *. apply bind_Ok in He as (b & Eb & He).
    now rewrite (encode_items_as_json rt l H true b Eb).
  - cbn [encode as_json] in *. apply bind_Ok in He as (b & Eb & He).
    assert (H' : Forall (fun kv => forall out, encode rt (snd kv) = Ok out ->
                           encode rt (as_json rt (snd kv)) = Ok out) d).
    { rewrite Forall_forall in H |- *. intros kv Hin. apply (H kv Hin). }
    now rewrite (encode_members_as_json rt d H' true b Eb).
Qed.

(** What is parsed from the text of [json.dumps] is the value as JSON has
    it, when that value is JSON-native. *)
Lemma json_loads_as_json (rt : Runtime) (v : pyval) (s : string) :
  json_dumps rt v = Ok s -> json_native rt (as_json rt v) ->
  json_loads rt s = Ok (as_json rt v).
Proof.
  intros Hd Hn. apply json_loads_dumps; [exact Hn|].
  unfold json_dumps in *. apply bind_Ok in Hd as (out & He & Hd).
  now rewrite (encode_as_json rt v out He).
Qed.

(** C10 (as amended): on an input that evaluates to a dictionary with the
    five required keys, the step returns what [json.dumps] makes of that
    dictionary.  When the dictionary is JSON-native (keys that are distinct
    strings; values that are None, booleans, integers of at most 4300
    digits, floats that the runtime prints as a literal reading back as the
    same float, strings, lists or such dictionaries) a JSON text is
    returned and parsing it gives the dictionary back, every pair of it in
    its place.  In general the text returned parses to the dictionary as
    JSON has it, with every tuple as a list and every key as a string, when
    that one is JSON-native; and a dictionary with a tuple, or with a key
    that is not a string, is never what the parsed text is. *)
Theorem C10_consolidation_roundtrip (rt : Runtime) (s : string) (d : dict) :
  literal_eval rt s = Ok (VDict d) ->
  has_required_keys d = true ->
  consolidate_data rt s = json_dumps rt (VDict d)
  /\ (json_native rt (VDict d) ->
      exists out,
        consolidate_data rt s = Ok out /\ json_loads rt out = Ok (VDict d))
  /\ (forall out,
         consolidate_data rt s = Ok out ->
         json_native rt (as_json rt (VDict d)) ->
         json_loads rt out = Ok (as_json rt (VDict d)))
  /\ (forall out,
         consolidate_data rt s = Ok out ->
         json_shaped (VDict d) = false ->
         json_loads rt out <> Ok (VDict d)).
Proof.
  intros H K. rewrite (consolidate_data_dict rt s d H), K.
  split; [reflexivity|]. split; [|split].
  - intros N.
    destruct (json_dumps_native rt (VDict d) N) as (out & E).
    exists out. split; [exact E | now apply json_loads_dumps].
  - intros out E N. now apply json_loads_as_json.
  - intros out _ S L. apply json_loads_shaped in L. congruence.
Qed.

Lemma C10_witness :
  let rt := Reference.runtime in
  let d := [(VStr "artisan_id", VStr "artisan_lc8765");
            (VStr "enhanced_image_path", VStr "processed_necklace.png");
            (VStr "description", VStr "A necklace");
            (VStr "hashtags", VList [VStr "#clay"; VStr "#warli"]);
            (VStr "price", VFloat 0x1.8feb851eb851fp+5%float)] in
  literal_eval rt Reference.record_with_float = Ok (VDict d)
  /\ has_required_keys d = true
  /\ json_native rt (VDict d)
  /\ exists out,
      consolidate_data rt Reference.record_with_float = Ok out
      /\ json_loads rt out = Ok (VDict d).
Proof.
  assert (H : literal_eval Reference.runtime Reference.record_with_float
              = Ok (VDict
                      [(VStr "artisan_id", VStr "artisan_lc8765");
                       (VStr "enhanced_image_path",
                        VStr "processed_necklace.png");
                       (VStr "description", VStr "A necklace");
                       (VStr "hashtags",
                        VList [VStr "#clay"; VStr "#warli"]);
                       (VStr "price", VFloat 0x1.8feb851eb851fp+5%float)]))
    by (vm_compute; reflexivity).
  assert (N : json_native Reference.runtime
                (VDict
                   [(VStr "artisan_id", VStr "artisan_lc8765");
                    (VStr "enhanced_image_path",
                     VStr "processed_necklace.png");
                    (VStr "description", VStr "A necklace");
                    (VStr "hashtags", VList [VStr "#clay"; VStr "#warli"]);
                    (VStr "price", VFloat 0x1.8feb851eb851fp+5%float)])).
  { simpl. unfold float_literal. repeat split; vm_compute; reflexivity. }
  split; [exact H|]. split; [reflexivity|]. split; [exact N|].
  exact (proj1 (proj2 (C10_consolidation_roundtrip Reference.runtime _ _ H
                         eq_refl)) N).
Defined.

(** The claim as stated fails: a tuple is serialised as a JSON array, and
    parsing gives a list, so the parsed output is not the input
    dictionary. *)
Lemma C10_counterexample :
  ~ (forall (rt : Runtime) (s : string) (d : dict) (out : string),
        literal_eval rt s = Ok (VDict d) ->
        has_required_keys d = true ->
        consolidate_data rt s = Ok out ->
        json_loads rt out = Ok (VDict d)).
Proof.
  intros H.
  assert (L : literal_eval Reference.runtime Reference.record_with_tuple
              = Ok (VDict
                      [(VStr "artisan_id", VStr "artisan_lc8765");
                       (VStr "enhanced_image_path",
                        VStr "processed_necklace.png");
                       (VStr "description", VStr "A necklace");
                       (VStr "hashtags",
                        VTuple [VStr "#clay"; VStr "#warli"]);
                       (VStr "price", VInt 75)]))
    by (vm_compute; reflexivity).
  specialize (H Reference.runtime Reference.record_with_tuple _ _ L eq_refl
                eq_refl).
  vm_compute in H. discriminate H.
Qed.

(** * Properties of the rest of the scripts *)

(** ** Texts *)

Lemma chars_app (a b : string) : chars (a ++ b) = (chars a ++ chars b)%list.
Proof. induction a as [|c a IH]; simpl; [reflexivity | now rewrite IH]. Qed.

Lemma str_app (a b : list ascii) : str (a ++ b) = str a ++ str b.
Proof. induction a as [|c a IH]; simpl; [reflexivity | now rewrite IH]. Qed.

Lemma chars_str (l : list ascii) : chars (str l) = l.
Proof. apply list_ascii_of_string_of_list_ascii. Qed.

Lemma str_chars (s : string) : str (chars s) = s.
Proof. apply string_of_list_ascii_of_string. Qed.

Lemma prefix_cons (a b : ascii) (p s : string) :
  prefix (String a p) (String b s)
  = if Ascii.eqb a b then prefix p s else false.
Proof.
  simpl. destruct (ascii_dec a b) as [->|N].
  - now rewrite Ascii.eqb_refl.
  - apply Ascii.eqb_neq in N. now rewrite N.
Qed.

Lemma prefix_app (p s : string) : prefix p (p ++ s) = true.
Proof.
  induction p as [|c p IH]; [now destruct s|].
  change (String c p ++ s) with (String c (p ++ s)).
  now rewrite prefix_cons, Ascii.eqb_refl.
Qed.

Lemma str_contains_cons (p : string) (c : ascii) (s : string) :
  str_contains p (String c s) = prefix p (String c s) || str_contains p s.
Proof. reflexivity. Qed.

Lemma str_contains_prefix (p s : string) :
  prefix p s = true -> str_contains p s = true.
Proof.
  intros H. destruct s as [|c s].
  - change (str_contains p "") with (prefix p "" || false). now rewrite H.
  - now rewrite str_contains_cons, H.
Qed.

Lemma str_contains_app_r (p a b : string) :
  str_contains p b = true -> str_contains p (a ++ b) = true.
Proof.
  intros H. induction a as [|c a IH]; [exact H|].
  change (String c a ++ b) with (String c (a ++ b)).
  rewrite str_contains_cons, IH. apply orb_true_r.
Qed.

(** A text holds the character [c] exactly when [c] is one of its
    characters. *)
Lemma str_contains_char (c : ascii) (s : string) :
  str_contains (String c "") s = existsb (Ascii.eqb c) (chars s).
Proof.
  induction s as [|b s IH]; [reflexivity|].
  rewrite str_contains_cons, prefix_cons, IH. simpl.
  destruct (Ascii.eqb c b); [now destruct s | reflexivity].
Qed.

(** *** [strip] *)

Lemma lstrip_head (l : list ascii) :
  match lstrip l with
  | c :: _ => isspace c = false
  | [] => True
  end.
Proof.
  induction l as [|c l IH]; simpl; [exact I|].
  destruct (isspace c) eqn:E; [exact IH | exact E].
Qed.

Lemma lstrip_suffix (l : list ascii) :
  exists pre, l = (pre ++ lstrip l)%list.
Proof.
  induction l as [|c l (pre & IH)]; simpl; [now exists []|].
  destruct (isspace c).
  - exists (c :: pre). simpl. now rewrite <- IH.
  - now exists [].
Qed.

Lemma lstrip_spaces (ws l : list ascii) :
  forallb isspace ws = true -> lstrip (ws ++ l) = lstrip l.
Proof.
  induction ws as [|c ws IH]; simpl; [reflexivity|].
  intros H. apply andb_true_iff in H as [-> H]. now apply IH.
Qed.

Lemma lstrip_fixed (c : ascii) (l : list ascii) :
  isspace c = false -> lstrip (c :: l) = c :: l.
Proof. intros H. simpl. now rewrite H. Qed.

(** What [strip] returns neither starts nor ends with white space. *)
Lemma strip_trimmed (s : string) : trimmed (strip s) = true.
Proof.
  unfold trimmed, strip. rewrite chars_str, rev_involutive.
  set (l1 := lstrip (chars s)).
  pose proof (lstrip_head (rev l1)) as H2.
  pose proof (lstrip_head (chars s)) as H1. fold l1 in H1.
  destruct (lstrip_suffix (rev l1)) as (pre & E).
  set (l2 := lstrip (rev l1)) in *.
  apply andb_true_iff. split.
  - assert (E' : l1 = (rev l2 ++ rev pre)%list).
    { rewrite <- rev_app_distr, <- E. now rewrite rev_involutive. }
    destruct (rev l2) as [|c r]; [reflexivity|].
    rewrite E' in H1. simpl in H1. now rewrite H1.
  - destruct l2 as [|c r]; [reflexivity | now rewrite H2].
Qed.


(** White space around a core that starts and ends with other characters
    is what [strip] removes. *)
Lemma strip_list (ws1 ws2 mid : list ascii) (c1 c2 : ascii) :
  forallb isspace ws1 = true -> forallb isspace ws2 = true ->
  isspace c1 = false -> isspace c2 = false ->
  rev (lstrip (rev (lstrip (ws1 ++ ((c1 :: mid) ++ [c2]) ++ ws2))))
  = ((c1 :: mid) ++ [c2])%list.
Proof.
  intros H1 H2 N1 N2.
  rewrite (lstrip_spaces _ _ H1).
  cbn [app]. rewrite (lstrip_fixed c1 _ N1).
  change (c1 :: (mid ++ [c2]) ++ ws2)%list
    with (((c1 :: mid) ++ [c2]) ++ ws2)%list.
  rewrite rev_app_distr, lstrip_spaces.
  - rewrite rev_app_distr. cbn [rev app].
    rewrite (lstrip_fixed c2 _ N2).
    change (c2 :: (rev mid ++ [c1]))%list
      with ([c2] ++ (rev mid ++ [c1]))%list.
    rewrite rev_app_distr, rev_app_distr, rev_involutive. reflexivity.
  - rewrite forallb_forall in H2 |- *. intros x Hx.
    apply H2. now apply in_rev.
Qed.

Lemma strip_core (ws1 ws2 mid : string) (c1 c2 : ascii) :
  forallb isspace (chars ws1) = true ->
  forallb isspace (chars ws2) = true ->
  isspace c1 = false -> isspace c2 = false ->
  strip (ws1 ++ (String c1 mid ++ String c2 "") ++ ws2)
  = String c1 mid ++ String c2 "".
Proof.
  intros H1 H2 N1 N2. unfold strip.
  rewrite !chars_app.
  change (chars (String c1 mid)) with (c1 :: chars mid).
  change (chars (String c2 "")) with [c2].
  rewrite (strip_list _ _ _ _ _ H1 H2 N1 N2).
  rewrite str_app. simpl. now rewrite str_chars.
Qed.

(** *** [replace] and the code fences *)

Lemma prefix_fence (s : string) :
  prefix "```" s = true -> exists r, s = "```" ++ r.
Proof.
  destruct s as [|a [|b [|c r]]]; try discriminate;
    rewrite !prefix_cons;
    destruct (Ascii.eqb "`" a) eqn:Ea; try discriminate;
    destruct (Ascii.eqb "`" b) eqn:Eb; try discriminate;
    try (destruct (Ascii.eqb "`" c) eqn:Ec; try discriminate).
  intros _. apply Ascii.eqb_eq in Ea, Eb, Ec. subst. now exists r.
Qed.

Lemma replace_fence (r : string) :
  replace_from "```" "" 0 ("```" ++ r) = replace_from "```" "" 0 r.
Proof. cbn. now destruct r. Qed.

Lemma prefix_fence_leading (s : string) :
  (leading is_backtick s < 3)%nat -> prefix "```" s = false.
Proof.
  intros H. destruct (prefix "```" s) eqn:E; [|reflexivity].
  apply prefix_fence in E as (r & ->). simpl in H. lia.
Qed.

Lemma replace_from_cons (old new : string) (c : ascii) (r : string) :
  prefix old (String c r) = false ->
  replace_from old new 0 (String c r) = String c (replace_from old new 0 r).
Proof. intros H. cbn [replace_from]. now rewrite H. Qed.

(** Removing the fences leaves none: between two fences removed, and
    around them, fewer than three backticks stand in a row. *)
Lemma replace_fence_none (n : nat) :
  forall s, (String.length s <= n)%nat ->
    (leading is_backtick (replace "```" "" s) <= leading is_backtick s)%nat
    /\ str_contains "```" (replace "```" "" s) = false.
Proof.
  unfold replace.
  induction n as [|n IH]; intros s Hn.
  - destruct s; [|simpl in Hn; lia]. split; [apply Nat.le_refl | reflexivity].
  - destruct (prefix "```" s) eqn:E.
    + apply prefix_fence in E as (r & ->). rewrite replace_fence.
      simpl in Hn. destruct (IH r ltac:(lia)) as [H1 H2].
      split; [simpl; lia | exact H2].
    + destruct s as [|c r]; [split; [apply Nat.le_refl | reflexivity]|].
      rewrite (replace_from_cons _ _ _ _ E).
      simpl in Hn. destruct (IH r ltac:(lia)) as [H1 H2].
      assert (L : (leading is_backtick (String c r) < 3)%nat).
      { destruct (Nat.ltb_spec (leading is_backtick (String c r)) 3)
          as [L|L]; [exact L|].
        exfalso. clear - E L.
        destruct r as [|b [|a r]]; simpl in L;
          repeat match type of L with
                 | context [if ?x then _ else _] => destruct x eqn:?
                 end; try lia.
        unfold is_backtick in *.
        repeat match goal with
               | H : Ascii.eqb _ _ = true |- _ => apply Ascii.eqb_eq in H
               end.
        subst.
        change (String "`" (String "`" (String "`" r))) with ("```" ++ r) in E.
        rewrite prefix_app in E. discriminate E. }
      split.
      * cbn [leading]. destruct (is_backtick c); lia.
      * rewrite str_contains_cons, H2, orb_false_r.
        apply prefix_fence_leading.
        cbn [leading] in L |- *. destruct (is_backtick c); lia.
Qed.

(** A text without a backtick has nothing to replace, when what is looked
    for starts with one. *)
Lemma replace_no_backtick (old new s t : string) :
  prefix "`" old = true ->
  existsb is_backtick (chars s) = false ->
  replace_from old new 0 (s ++ t) = s ++ replace_from old new 0 t.
Proof.
  intros Ho Hs. induction s as [|c s IH]; [reflexivity|].
  simpl in Hs. apply orb_false_iff in Hs as [Hc Hs].
  change (String c s ++ t) with (String c (s ++ t)).
  rewrite replace_from_cons; [now rewrite IH|].
  destruct old as [|a old]; [discriminate Ho|].
  rewrite prefix_cons in Ho |- *.
  destruct (Ascii.eqb "`" a) eqn:Ea; [|discriminate Ho].
  apply Ascii.eqb_eq in Ea. subst a.
  unfold is_backtick in Hc. rewrite Ascii.eqb_sym in Hc. now rewrite Hc.
Qed.

Lemma append_assoc_str (a b c : string) : (a ++ b) ++ c = a ++ b ++ c.
Proof. induction a as [|x a IH]; simpl; [reflexivity | now rewrite IH]. Qed.

Lemma append_nil_r (a : string) : a ++ "" = a.
Proof. induction a as [|x a IH]; simpl; [reflexivity | now rewrite IH]. Qed.

(** ** The reply of the language model, cleaned *)

(** X7: whatever the model replies, the text that
    [generate_creative_content] returns for it holds no code fence: three
    backticks in a row do not occur in it.  The model is called once. *)
Theorem X7_reply_without_fences (w : World) (rt : Runtime)
  (artisan_note reply : string) :
  chain_invoke w artisan_note = Ok reply ->
  exists cleaned,
    generate_creative_content w rt artisan_note
    = ([LlmInvoked artisan_note], Ok cleaned)
    /\ str_contains "```" cleaned = false
    /\ str_contains "```json" cleaned = false.
Proof.
  intros H. unfold generate_creative_content. rewrite H.
  eexists. split; [reflexivity|].
  set (t := replace "```json" "" (strip reply)).
  destruct (replace_fence_none (String.length t) t (Nat.le_refl _))
    as [_ N].
  split; [exact N|].
  clear - N. induction (replace "```" "" t) as [|c s IH]; [reflexivity|].
  rewrite str_contains_cons in N |- *.
  apply orb_false_iff in N as [P N]. rewrite (IH N), orb_false_r.
  rewrite prefix_cons in P |- *.
  destruct (Ascii.eqb "`" c); [|reflexivity].
  destruct s as [|c1 s]; [reflexivity|].
  rewrite prefix_cons in P |- *.
  destruct (Ascii.eqb "`" c1); [|reflexivity].
  destruct s as [|c2 s]; [reflexivity|].
  rewrite prefix_cons in P |- *.
  destruct (Ascii.eqb "`" c2); [|reflexivity].
  destruct s; discriminate P.
Qed.

Lemma X7_witness :
  exists cleaned,
    generate_creative_content Reference.world_good Reference.runtime
      Reference.note
    = ([LlmInvoked Reference.note], Ok cleaned)
    /\ str_contains "```" cleaned = false
    /\ str_contains "```json" cleaned = false.
Proof.
  apply (X7_reply_without_fences Reference.world_good Reference.runtime
           Reference.note Reference.good_reply).
  reflexivity.
Defined.

(** X8: a reply that is a payload between a json fence and a closing
    fence, with white space around the whole, is returned as the payload
    itself, when the payload holds no backtick. *)
Theorem X8_fenced_reply_unwrapped (w : World) (rt : Runtime)
  (artisan_note ws1 body ws2 : string) :
  chain_invoke w artisan_note
  = Ok (ws1 ++ ("```json" ++ body ++ "```") ++ ws2) ->
  forallb isspace (chars ws1) = true ->
  forallb isspace (chars ws2) = true ->
  existsb is_backtick (chars body) = false ->
  snd (generate_creative_content w rt artisan_note) = Ok body.
Proof.
  intros H H1 H2 Hb. unfold generate_creative_content. rewrite H. cbn [snd].
  assert (E : "```json" ++ body ++ "```"
              = String "`" ("``json" ++ body ++ "``") ++ String "`" "").
  { cbn [append]. do 7 f_equal.
    change "```" with ("``" ++ "`").
    now rewrite <- append_assoc_str. }
  rewrite E, (strip_core ws1 ws2 _ "`" "`" H1 H2 eq_refl eq_refl), <- E.
  f_equal. unfold replace.
  assert (R1 : replace_from "```json" "" 0 ("```json" ++ body ++ "```")
               = body ++ "```").
  { transitivity (replace_from "```json" "" 0 (body ++ "```")).
    - cbn. now destruct (body ++ "```").
    - now rewrite (replace_no_backtick "```json" "" body "```" eq_refl Hb). }
  rewrite R1, (replace_no_backtick "```" "" body "```" eq_refl Hb).
  cbn. apply append_nil_r.
Qed.

Lemma X8_witness :
  snd (generate_creative_content Reference.world_good Reference.runtime
         Reference.note)
  = Ok (Reference.dq " {'description': 'A necklace', 'hashtags': ['#clay', '#warli'], 'price': 49} ").
Proof.
  apply (X8_fenced_reply_unwrapped Reference.world_good Reference.runtime
           Reference.note ""
           (Reference.dq " {'description': 'A necklace', 'hashtags': ['#clay', '#warli'], 'price': 49} ")
           ""); reflexivity.
Defined.

(** ** Paths *)

Lemma basename_from_spec (p : string) :
  forall pre x s,
    p = pre ++ x ++ s ->
    existsb (Ascii.eqb "/") (chars x) = false ->
    (pre = "" \/ endswith_slash pre = true) ->
    exists dir,
      p = dir ++ basename_from (x ++ s) s
      /\ existsb (Ascii.eqb "/") (chars (basename_from (x ++ s) s)) = false
      /\ (dir = "" \/ endswith_slash dir = true).
Proof.
  intros pre x s. revert pre x.
  induction s as [|c s IH]; intros pre x E Hx Hpre.
  - simpl. rewrite append_nil_r in *. exists pre. auto.
  - cbn [basename_from]. destruct (Ascii.eqb c "/") eqn:Ec.
    + apply Ascii.eqb_eq in Ec. subst c.
      apply (IH (pre ++ x ++ "/") ""); [| reflexivity |].
      * rewrite E. cbn [append]. now rewrite !append_assoc_str.
      * right. unfold endswith_slash.
        rewrite !chars_app, !rev_app_distr. reflexivity.
    + replace (x ++ String c s) with ((x ++ String c "") ++ s)
        by now rewrite append_assoc_str.
      apply (IH pre (x ++ String c "")); [| | exact Hpre].
      * rewrite E. now rewrite append_assoc_str.
      * rewrite chars_app, existsb_app, Hx.
        cbn [chars list_ascii_of_string existsb orb].
        now rewrite Ascii.eqb_sym, Ec.
Qed.

(** A path is a directory part, empty or ending in a slash, followed by
    its [basename], which holds no slash. *)
Lemma basename_spec (p : string) :
  exists dir,
    p = dir ++ basename p
    /\ str_contains "/" (basename p) = false
    /\ (dir = "" \/ endswith_slash dir = true).
Proof.
  destruct (basename_from_spec p "" "" p eq_refl eq_refl (or_introl eq_refl))
    as (dir & E & N & D).
  exists dir. rewrite str_contains_char. auto.
Qed.

(** ** The sidebar *)

Lemma setenv_get (w w' : World) (name value : string) :
  setenv w name value = Ok w' ->
  forall n,
    getenv w' n = if String.eqb n name then Some value else getenv w n.
Proof.
  unfold setenv. destruct (existsb _ _); [discriminate|].
  intros H n. injection H as <-. reflexivity.
Qed.

(** The environment that the sidebar leaves. *)
Lemma setup_api_keys_env (w w' : World)
  (google_api_key clipdrop_api_key : string) :
  setup_api_keys w google_api_key clipdrop_api_key = Ok w' ->
  forall n,
    getenv w' n
    = if negb (String.eqb clipdrop_api_key "")
         && String.eqb n "CLIPDROP_API_KEY"
      then Some (strip clipdrop_api_key)
      else if negb (String.eqb google_api_key "")
              && String.eqb n "GOOGLE_API_KEY"
           then Some (strip google_api_key)
           else getenv w n.
Proof.
  unfold setup_api_keys. intros H n.
  apply bind_Ok in H as (w1 & H1 & H2).
  assert (G1 : getenv w1 n
               = if negb (String.eqb google_api_key "")
                    && String.eqb n "GOOGLE_API_KEY"
                 then Some (strip google_api_key) else getenv w n).
  { destruct (String.eqb google_api_key ""); simpl in H1 |- *.
    - now injection H1 as <-.
    - apply (setenv_get _ _ _ _ H1). }
  destruct (String.eqb clipdrop_api_key ""); simpl in H2 |- *.
  - injection H2 as <-. exact G1.
  - rewrite (setenv_get _ _ _ _ H2 n), G1. reflexivity.
Qed.

(** X1: a key typed in the sidebar is stored without the white space
    around it: the stored text neither starts nor ends with a white-space
    character.  A field left empty leaves its variable as it was, and no
    other variable of the environment changes. *)
Theorem X1_keys_stored_stripped (w w' : World)
  (google_api_key clipdrop_api_key : string) :
  setup_api_keys w google_api_key clipdrop_api_key = Ok w' ->
  getenv w' "GOOGLE_API_KEY"
  = (if String.eqb google_api_key "" then getenv w "GOOGLE_API_KEY"
     else Some (strip google_api_key))
  /\ getenv w' "CLIPDROP_API_KEY"
     = (if String.eqb clipdrop_api_key "" then getenv w "CLIPDROP_API_KEY"
        else Some (strip clipdrop_api_key))
  /\ trimmed (strip google_api_key) = true
  /\ trimmed (strip clipdrop_api_key) = true
  /\ (forall n,
         n <> "GOOGLE_API_KEY" -> n <> "CLIPDROP_API_KEY" ->
         getenv w' n = getenv w n).
Proof.
  intros H. pose proof (setup_api_keys_env w w' _ _ H) as G.
  repeat split; try apply strip_trimmed.
  - rewrite G. simpl. rewrite andb_false_r.
    now destruct (String.eqb google_api_key "").
  - rewrite G. simpl. rewrite !andb_true_r, andb_false_r.
    now destruct (String.eqb clipdrop_api_key "").
  - intros n N1 N2. rewrite G.
    apply String.eqb_neq in N1, N2. now rewrite N1, N2, !andb_false_r.
Qed.

Lemma X1_witness :
  exists w',
    setup_api_keys Reference.world_good "  AIza-key " "" = Ok w'
    /\ getenv w' "GOOGLE_API_KEY" = Some "AIza-key"
    /\ getenv w' "CLIPDROP_API_KEY" = Some "secret".
Proof.
  eexists. split; [reflexivity|].
  destruct (X1_keys_stored_stripped Reference.world_good _
              "  AIza-key " "" eq_refl) as (G & C & _).
  split; [exact G | exact C].
Defined.



(** ** The upload block *)

(** X3: once an upload is stored, another upload under the same file name
    is not stored: nothing is written, whatever its bytes are, and the
    page goes on showing the file it stored first. *)
Theorem X3_same_name_not_stored_again (w : World)
  (makedirs : string -> result unit) (sess sess1 : session)
  (name buffer1 buffer2 : string) (evs1 : list disk_event) (picture : ui) :
  store_upload w makedirs sess name buffer1 = (sess1, evs1, Ok picture) ->
  store_upload w makedirs sess1 name buffer2 = (sess1, [], Ok picture).
Proof.
  unfold store_upload. intros H.
  assert (G : forall made : list disk_event * result unit,
             match made with
             | (evs, Raise e) => (sess, evs, Raise e)
             | (evs, Ok _) =>
                 match open_wb w (path_join "temp_uploads" name) with
                 | Raise e => (sess, evs, Raise e)
                 | Ok _ =>
                     match file_write w (path_join "temp_uploads" name)
                             buffer1 with
                     | Raise e =>
                         (sess,
                          (evs ++ [Opened (path_join "temp_uploads" name)])%list,
                          Raise e)
                     | Ok _ =>
                         ({| session_image_path :=
                               Some (path_join "temp_uploads" name);
                             session_filename := Some name |},
                          (evs ++ [Opened (path_join "temp_uploads" name);
                                   Saved (path_join "temp_uploads" name)
                                     buffer1])%list,
                          Ok (Image (VStr (path_join "temp_uploads" name))
                                "Your Uploaded Image"))
                     end
                 end
             end = (sess1, evs1, Ok picture) ->
             session_image_path sess1 = Some (path_join "temp_uploads" name)
             /\ session_filename sess1 = Some name
             /\ picture = Image (VStr (path_join "temp_uploads" name))
                            "Your Uploaded Image").
  { intros [evs [[]|e]] E; [|discriminate E].
    destruct (open_wb w _); [|discriminate E].
    destruct (file_write w _ _); [|discriminate E].
    injection E as <- _ <-. auto. }
  assert (K : session_image_path sess1 = Some (path_join "temp_uploads" name) ->
              session_filename sess1 = Some name ->
              picture = Image (VStr (path_join "temp_uploads" name))
                          "Your Uploaded Image" ->
              match session_image_path sess1,
                    match session_filename sess1 with
                    | Some n => String.eqb n name
                    | None => false
                    end
              with
              | Some p, true => (sess1, [], Ok (Image (VStr p) "Your Uploaded Image"))
              | _, _ => (sess1, evs1, Ok picture)
              end = (sess1, @nil disk_event, Ok picture)).
  { intros -> -> ->. now rewrite String.eqb_refl. }
  destruct (session_image_path sess) as [p|] eqn:Ep;
    destruct (session_filename sess) as [n|] eqn:En;
    try destruct (String.eqb n name) eqn:E;
    try (injection H as <- <- <-; now rewrite Ep, En, E);
    destruct (G _ H) as (A & B & C); rewrite A, B, String.eqb_refl, C;
    reflexivity.
Qed.

Lemma X3_witness :
  let stored :=
    {| session_image_path := Some "temp_uploads/necklace.png";
       session_filename := Some "necklace.png" |} in
  store_upload Reference.world_good Scenario.makedirs stored
    "necklace.png" "<other bytes>"
  = (stored, [], Ok (Image (VStr "temp_uploads/necklace.png")
                       "Your Uploaded Image")).
Proof.
  apply (X3_same_name_not_stored_again Reference.world_good
           Scenario.makedirs Scenario.fresh_session _ "necklace.png"
           "<first bytes>" "<other bytes>"
           [MadeDirs "temp_uploads";
            Opened "temp_uploads/necklace.png";
            Saved "temp_uploads/necklace.png" "<first bytes>"]).
  reflexivity.
Defined.

(** ** The photo tool *)

Lemma written_last (p body : string) (evs : list event) :
  written p (evs ++ [FileOpened p; FileWritten p body]) = true.
Proof.
  unfold written. rewrite existsb_app. simpl.
  rewrite String.eqb_refl. apply orb_true_r.
Qed.

(** X4: in a world whose HTTP errors carry the reply they were raised
    for, [remove_background] never raises and returns a JSON text that
    parses to a record with one entry: an error message, and then no file
    was written; or the path of the processed image, which is the file
    processed_ followed by the base name of the input, directly in
    temp_uploads, and then that file was created and written last. *)
Theorem X4_remove_background_contract (w : World) (rt : Runtime)
  (image_path : string) :
  errors_carry_response w ->
  let run := remove_background w rt image_path in
  let processed_path := "temp_uploads/processed_" ++ basename image_path in
  exists s,
    snd run = Ok s
    /\ ((exists msg,
            json_loads rt s = Ok (error_record msg)
            /\ forall q body, ~ In (FileWritten q body) (fst run))
        \/ (json_loads rt s = Ok (processed_record processed_path)
            /\ (exists evs body,
                   fst run
                   = (evs ++ [FileOpened processed_path;
                              FileWritten processed_path body])%list)
            /\ written processed_path (fst run) = true
            /\ str_contains "/" (basename image_path) = false)).
Proof.
  intros C run processed_path. subst run processed_path.
  destruct (remove_background_cases w rt image_path C)
    as [(evs & msg & -> & W)|(evs & body & ->)].
  - destruct (dumps_error_record rt msg) as (s & Ed & El).
    exists s. split; [exact Ed|]. left. exists msg. now split.
  - destruct (dumps_processed_record rt
                ("temp_uploads/processed_" ++ basename image_path))
      as (s & Ed & El).
    exists s. split; [exact Ed|]. right.
    split; [exact El|]. split; [now exists evs, body|].
    split; [apply written_last|].
    now destruct (basename_spec image_path) as (dir & _ & N & _).
Qed.

Lemma X4_witness :
  exists s,
    snd (remove_background Reference.world_good Reference.runtime
           Reference.upload) = Ok s
    /\ json_loads Reference.runtime s
       = Ok (processed_record "temp_uploads/processed_necklace.png").
Proof.
  destruct (X4_remove_background_contract Reference.world_good
              Reference.runtime Reference.upload
              (reference_world_carries (Some "secret") [Reference.upload]
                 Reference.processed (Ok Reference.good_reply)))
    as (s & E & H).
  exists s. split; [exact E|].
  injection E as <-. reflexivity.
Defined.

(** X5: what [remove_background] does to the world, in every world.  It
    causes nothing at all without a key, for a path that names no file, or
    when the image cannot be read.  Otherwise it sends one request, to the
    Clipdrop address, with the base name and the bytes of the image and the
    key of the environment, and nothing more unless the reply has a status
    that is not an error and the processed file can be created; then it
    creates processed_ and the base name directly in temp_uploads, and
    writes the body of the reply to it.  The events are one of these four
    lists, in this order, and the language model is never called. *)
Theorem X5_remove_background_effects (w : World) (rt : Runtime)
  (image_path : string) :
  let evs := fst (remove_background w rt image_path) in
  let p := "temp_uploads/processed_" ++ basename image_path in
  (evs = []
   /\ (env_set w "CLIPDROP_API_KEY" = false
       \/ path_exists w image_path = false
       \/ exists e, open_rb w image_path = Raise e))
  \/ exists image key,
       getenv w "CLIPDROP_API_KEY" = Some key /\ key <> ""
       /\ path_exists w image_path = true
       /\ open_rb w image_path = Ok image
       /\ let post := HttpPost clipdrop_url (basename image_path) image key in
          let sent := requests_post w clipdrop_url (basename image_path)
                        image key in
          (evs = [post]
           /\ ((exists e, sent = Raise e)
               \/ (exists resp e,
                      sent = Ok resp
                      /\ (raise_for_status resp = Raise e
                          \/ open_wb w p = Raise e))))
          \/ exists resp,
               sent = Ok resp /\ raise_for_status resp = Ok tt
               /\ open_wb w p = Ok tt
               /\ ((evs = [post; FileOpened p]
                    /\ exists e, file_write w p (content resp) = Raise e)
                   \/ (evs = [post; FileOpened p;
                              FileWritten p (content resp)]
                       /\ file_write w p (content resp) = Ok tt)).
Proof.
  cbv zeta. unfold remove_background, env_set.
  destruct (getenv w "CLIPDROP_API_KEY") as [[|c k]|] eqn:Ek;
    try (left; split; [reflexivity | now left]).
  unfold remove_background_try.
  destruct (path_exists w image_path) eqn:Ex; cbn [negb];
    [|left; split; [reflexivity | right; now left]].
  destruct (open_rb w image_path) as [f|e] eqn:Erb;
    [|left; split; [reflexivity | right; right; eauto]].
  right. exists f, (String c k).
  split; [reflexivity|]. split; [discriminate|].
  split; [reflexivity|]. split; [reflexivity|].
  destruct (requests_post w clipdrop_url (basename image_path) f
              (String c k)) as [resp|e] eqn:Ep;
    [|left; split; [reflexivity | left; eauto]].
  destruct (raise_for_status resp) as [[]|e] eqn:Es;
    [|left; split; [reflexivity | right; exists resp, e; auto]].
  rewrite processed_path_eq.
  destruct (open_wb w _) as [[]|e] eqn:Ew;
    [|left; split; [reflexivity | right; exists resp, e; auto]].
  right. exists resp.
  split; [first [reflexivity | assumption]|].
  split; [first [reflexivity | assumption]|].
  split; [first [reflexivity | assumption]|].
  destruct (file_write w _ (content resp)) as [[]|e] eqn:Ef.
  - right. now split.
  - left. split; [reflexivity | eauto].
Qed.

(** X6: once the service has replied, the status code decides.  A code
    from 400 to 599 gives an error record and no file: the invalid-key
    message for 401 and 403, the code and the text of the reply for the
    others.  Any other code counts as success, whatever it is: the body of
    the reply is written as the processed image and its path returned. *)
Theorem X6_status_decides (w : World) (rt : Runtime)
  (image_path key image : string) (resp : response) :
  getenv w "CLIPDROP_API_KEY" = Some key -> key <> "" ->
  path_exists w image_path = true ->
  open_rb w image_path = Ok image ->
  requests_post w clipdrop_url (basename image_path) image key = Ok resp ->
  let post := HttpPost clipdrop_url (basename image_path) image key in
  let processed_path := "temp_uploads/processed_" ++ basename image_path in
  let code := status_code resp in
  ((400 <= code < 600)%Z ->
   remove_background w rt image_path
   = ([post],
      json_dumps rt
        (error_record
           (if (code =? 401)%Z || (code =? 403)%Z then invalid_key_message
            else "Clipdrop API Error: " ++ str_of_Z code ++ " - "
                 ++ text resp))))
  /\ (~ (400 <= code < 600)%Z ->
      open_wb w processed_path = Ok tt ->
      file_write w processed_path (content resp) = Ok tt ->
      remove_background w rt image_path
      = ([post; FileOpened processed_path;
          FileWritten processed_path (content resp)],
         json_dumps rt (processed_record processed_path))).
Proof.
  intros Hk Hne Hx Hrb Hp post processed_path code.
  subst post processed_path code.
  unfold remove_background. rewrite Hk.
  destruct key as [|c k]; [contradiction|].
  unfold remove_background_try. rewrite Hx, Hrb, Hp. cbn [negb].
  unfold raise_for_status. split.
  - intros [L U].
    apply Z.leb_le in L. apply Z.ltb_lt in U. rewrite L, U. cbn [andb].
    unfold remove_background_except. cbn [exn_cls exn_response].
    cbn [issubclass exn_class_eqb orb].
    now destruct ((status_code resp =? 401)%Z || (status_code resp =? 403)%Z).
  - intros N Hw Hf.
    destruct ((400 <=? status_code resp)%Z && (status_code resp <? 600)%Z)
      eqn:E.
    + apply andb_true_iff in E as [L U].
      apply Z.leb_le in L. apply Z.ltb_lt in U. lia.
    + rewrite processed_path_eq, Hw, Hf. reflexivity.
Qed.

Lemma X6_witness :
  remove_background Reference.world_401 Reference.runtime Reference.upload
  = ([HttpPost clipdrop_url "necklace.png" "<image bytes>" "secret"],
     json_dumps Reference.runtime (error_record invalid_key_message)).
Proof.
  apply (X6_status_decides Reference.world_401 Reference.runtime
           Reference.upload "secret" "<image bytes>" Reference.unauthorized);
    try reflexivity; [discriminate | simpl; lia].
Defined.

(** ** The listing on the page *)

(** The pricing block returns unless the price on record is an [int] too
    large for a float; it draws no code block. *)
Lemma display_pricing_returns (results : dict) (user_price : float) :
  let ai_price := get_or_none "price" results in
  let formats :=
    match ai_price with
    | VInt z => (Z.abs z <? float_limit)%Z
    | _ => true
    end in
  exists priced r,
    (forall s,
        display_pricing results user_price s
        = ({| final_results := final_results s;
              screen := (screen s ++ Markdown "##### Pricing" :: priced)%list;
              effects := effects s |}, r))
    /\ (forall v, ~ In (Code v) priced)
    /\ (r = Ok tt <-> isinstance_int_float ai_price = false \/ formats = true)
    /\ (forall e, r = Raise e -> exn_cls e = OverflowError).
Proof.
  cbv zeta.
  pose proof (fun s' => display_pricing_run results user_price s') as R.
  cbv zeta in R.
  pose proof (format_2f_numeric "Rs" (get_or_none "price" results)) as F1.
  pose proof (format_2f_numeric "AI Suggestion: Rs "
                (get_or_none "price" results)) as F2.
  destruct (PrimFloat.ltb 0 user_price);
    destruct (isinstance_int_float (get_or_none "price" results));
    try (rewrite (F1 eq_refl) in R); try (rewrite (F2 eq_refl) in R);
    clear F1 F2;
    try (destruct (match get_or_none "price" results with
                   | VInt z => (Z.abs z <? float_limit)%Z
                   | _ => true
                   end));
    cbn [fst snd] in R;
    eexists _, _; (split; [exact R|]);
    (split; [intros v Hin; simpl in Hin; intuition discriminate|]);
    (split; [split; [try (intros H; discriminate H); auto
                    | try reflexivity; intros [H|H]; discriminate H]
            | intros e H; try discriminate H; now injection H as <-]).
Qed.

(** The right column once the pricing block has returned: what it draws
    up to the hashtags, and how it ends. *)
Lemma display_details_run (results : dict) (user_price : float)
  (s s3 : state) :
  display_pricing results user_price s = (s3, Ok tt) ->
  let before :=
    [Markdown "---";
     Write (get_default "description"
              (VStr "Creative content generation failed.") results)] in
  let last :=
    [Markdown "##### Mock URL";
     Code (get_default "mock_url" (VStr "N/A") results)] in
  let show (more : list ui) (r : result unit) :=
    ({| final_results := final_results s3;
        screen := (screen s3 ++ before ++ more)%list;
        effects := effects s3 |}, r) in
  display_details results user_price s
  = match get_or_none "hashtags" results with
    | VList (x :: l) =>
        match str_items (x :: l) with
        | Ok items =>
            show (Markdown "##### Social Media Hashtags"
                  :: Info (Lit (join " " items)) :: last) (Ok tt)
        | Raise e => show [Markdown "##### Social Media Hashtags"] (Raise e)
        end
    | _ => show last (Ok tt)
    end.
Proof.
  intros H. cbv zeta. unfold display_details.
  rewrite (bindM_ok _ _ s s3 tt H).
  destruct (get_or_none "hashtags" results) as
    [| | | | | |[|x l]| | | | |];
    try (unfold bindM, draw, ret; simpl;
         now rewrite <- !app_assoc).
  cbn [truthy]. unfold bindM, draw, lift.
  cbn [fst snd screen final_results effects].
  destruct (str_items (x :: l)) as [items|e]; simpl;
    now rewrite <- !app_assoc.
Qed.

(** X9: the right column of the listing is drawn to the end exactly when
    the price on record can be formatted and the hashtags on record, if
    they are a list, are texts only.  With a price that can be formatted, a
    list with an item that is not a text makes [display_results] raise a
    TypeError after the heading of the hashtags: the URL is not shown, and
    nothing on the page catches the exception. *)
Theorem X9_hashtags_must_be_texts (results : dict) (user_price : float)
  (s : state) :
  let run := display_details results user_price s in
  let ai_price := get_or_none "price" results in
  let priced :=
    isinstance_int_float ai_price = false
    \/ match ai_price with
       | VInt z => (Z.abs z <? float_limit)%Z
       | _ => true
       end = true in
  (snd run = Ok tt
   <-> priced
       /\ forall l, get_or_none "hashtags" results = VList l ->
                    forallb is_str l = true)
  /\ (priced ->
      forall l,
        get_or_none "hashtags" results = VList l ->
        forallb is_str l = false ->
        exists e,
          snd run = Raise e /\ exn_cls e = TypeError
          /\ In (Markdown "##### Social Media Hashtags")
               (drawn_since s (fst run))
          /\ forall v, ~ In (Code v) (drawn_since s (fst run))).
Proof.
  cbv zeta.
  destruct (display_pricing_returns results user_price)
    as (priced & r & R & NC & Hr & He).
  cbv zeta in Hr.
  destruct r as [[]|e0].
  2:{ assert (D : snd (display_details results user_price s) = Raise e0).
      { unfold display_details. now rewrite (bindM_raise _ _ s _ e0 (R s)). }
      rewrite D. split.
      - split; [discriminate|]. intros [P _]. apply Hr in P. discriminate P.
      - intros P. apply Hr in P. discriminate P. }
  rewrite (display_details_run results user_price s _ (R s)). cbv zeta.
  assert (P : isinstance_int_float (get_or_none "price" results) = false
              \/ match get_or_none "price" results with
                 | VInt z => (Z.abs z <? float_limit)%Z
                 | _ => true
                 end = true) by now apply Hr.
  destruct (get_or_none "hashtags" results) as
    [| | | | | |[|x l]| | | | |] eqn:E;
    try (split; [split; [intros _; split; [exact P|];
                         intros l0 H0; discriminate H0
                        | reflexivity]
                |intros _ l0 H0; discriminate H0]).
  - split; [split; [|reflexivity]|].
    + intros _. split; [exact P|]. intros l0 H0. injection H0 as <-.
      reflexivity.
    + intros _ l0 H0 F. injection H0 as <-. discriminate F.
  - destruct (forallb is_str (x :: l)) eqn:F.
    + destruct (str_items_ok _ F) as (items & ->).
      split; [split; [|reflexivity]|].
      * intros _. split; [exact P|]. intros l0 H0. now injection H0 as <-.
      * intros _ l0 H0 F0. injection H0 as <-. congruence.
    + destruct (str_items_raise _ F) as (e & -> & C).
      split; [split|].
      * discriminate.
      * intros [_ H]. specialize (H _ eq_refl). congruence.
      * intros _ l0 H0 _. exists e. cbn [fst snd].
        erewrite drawn_since_app
          by (cbn [screen]; rewrite <- app_assoc; reflexivity).
        repeat split; [exact C | |].
        -- apply in_or_app. right. simpl. auto.
        -- intros v Hin. apply in_app_or in Hin as [Hin|Hin].
           ++ destruct Hin as [Hin|Hin]; [discriminate Hin|].
              now apply (NC v).
           ++ simpl in Hin. intuition discriminate.
Qed.

Lemma X9_witness :
  exists e,
    snd (display_details
           [(VStr "hashtags", VList [VStr "#clay"; VInt 7])] 0 empty_state)
    = Raise e
    /\ exn_cls e = TypeError.
Proof.
  destruct (proj2 (X9_hashtags_must_be_texts
                     [(VStr "hashtags", VList [VStr "#clay"; VInt 7])]
                     0 empty_state)
              (or_introl eq_refl)
              [VStr "#clay"; VInt 7] eq_refl eq_refl)
    as (e & R & C & _).
  exists e. now split.
Defined.

(** X10: the photo panel, when it returns, has drawn exactly one picture
    and changed nothing but the screen.  The picture is the processed
    image only if no error of the photo stage is on record and its path is
    not empty and names a file that exists or was written in this run;
    otherwise it is the original upload. *)
Theorem X10_one_picture (w : World) (rt : Runtime)
  (original_image_path : string) (results : dict) (s : state) :
  let run := display_photo w rt original_image_path results s in
  final_results (fst run) = final_results s
  /\ effects (fst run) = effects s
  /\ (snd run = Ok tt ->
      exists picture caption,
        filter is_image (drawn_since s (fst run)) = [Image picture caption]
        /\ (picture = VStr original_image_path
            \/ (picture = get_or_none "processed_image_path" results
                /\ dict_has (VStr "error_bg_removal") results = false
                /\ truthy picture = true
                /\ os_path_exists w (effects s) picture = Ok true))).
Proof.
  intros run. subst run.
  destruct (read_only_display_photo w rt original_image_path results s)
    as [F E].
  split; [exact F|]. split; [exact E|].
  unfold display_photo, bindM, draw, lift.
  cbn [fst snd screen final_results effects].
  destruct (dict_has (VStr "error_bg_removal") results) eqn:B.
  - intros _. cbn [fst snd]. erewrite drawn_since_app
      by (cbn [screen]; rewrite <- !app_assoc; reflexivity).
    eexists _, _. split; [reflexivity | now left].
  - set (p := get_or_none "processed_image_path" results).
    destruct (truthy p) eqn:T.
    + match goal with
      | |- context [os_path_exists w ?evs p] =>
          change (os_path_exists w evs p)
            with (os_path_exists w (effects s) p)
      end.
      destruct (os_path_exists w (effects s) p) as [[]|e] eqn:X;
        cbn [fst snd]; [| |intros H; discriminate H].
      * intros _. erewrite drawn_since_app
          by (cbn [screen]; rewrite <- !app_assoc; reflexivity).
        exists p. eexists. split; [reflexivity|]. right. auto.
      * intros _. erewrite drawn_since_app
          by (cbn [screen]; rewrite <- !app_assoc; reflexivity).
        eexists _, _. split; [reflexivity | now left].
    + cbn [fst snd]. intros _. erewrite drawn_since_app
        by (cbn [screen]; rewrite <- !app_assoc; reflexivity).
      eexists _, _. split; [reflexivity | now left].
Qed.

Lemma X10_witness :
  exists picture caption,
    filter is_image
      (drawn_since empty_state
         (fst (display_photo Reference.world_good Reference.runtime
                 Reference.upload
                 [(VStr "processed_image_path", VStr "temp_uploads/gone.png")]
                 empty_state)))
    = [Image picture caption]
    /\ picture = VStr Reference.upload.
Proof.
  destruct (X10_one_picture Reference.world_good Reference.runtime
              Reference.upload
              [(VStr "processed_image_path", VStr "temp_uploads/gone.png")]
              empty_state) as (_ & _ & H).
  destruct (H eq_refl) as (picture & caption & E & _).
  exists picture, caption. split; [exact E|].
  vm_compute in E. now injection E as <- _.
Defined.

(** ** The three tasks in every world *)

Lemma monotone_display_photo (w : World) (rt : Runtime) (path : string)
  (results : dict) : monotone (display_photo w rt path results).
Proof.
  unfold display_photo.
  apply monotone_bind; [apply monotone_draw | intros _].
  destruct (dict_has _ results); [frame|].
  apply monotone_bind; [|intros []; frame].
  intros s. split; [exists []; simpl; now rewrite app_nil_r | auto].
Qed.

(** After the three tasks, in a world whose HTTP errors carry their
    reply: a path of the image is on record and the model was called. *)
Lemma orchestrate_leaves (w : World) (rt : Runtime) (path note : string)
  (s : state) :
  errors_carry_response w ->
  let s' := fst (orchestrate w rt path note s) in
  dict_has (VStr "processed_image_path") (final_results s') = true
  /\ In (LlmInvoked note) (effects s').
Proof.
  intros C. cbv zeta. rewrite orchestrate_run.
  destruct (task_photo_returns w rt path s C)
    as (s1 & -> & (p & K0) & _ & _).
  assert (K : dict_has (VStr "processed_image_path") (final_results s1)
              = true) by (unfold dict_has; now rewrite K0).
  destruct (task_content_frame w rt note s1) as (E & _).
  destruct (monotone_task_content w rt note s1) as [_ Hk].
  specialize (Hk _ K).
  destruct (task_content w rt note s1) as [s2 [[]|e]];
    cbn [fst] in E, Hk.
  - rewrite task_finalize_run. cbn [fst final_results effects].
    split; [now apply dict_set_has|].
    rewrite E. apply in_or_app. right. now left.
  - rewrite workflow_failed_run. cbn [fst final_results effects].
    split; [exact Hk|]. rewrite E. apply in_or_app. right. now left.
Qed.

(** X11: with both keys set and a note, in a world whose HTTP errors
    carry their reply, [main] always gets as far as the listing: Task 1
    cannot abort the run and leaves a path of the image on record, so that
    [final_results] is not empty; the language model is called whatever
    the photo stage did; and the listing is drawn, whether the run ended
    complete or failed. *)
Theorem X11_listing_always_shown (w : World) (rt : Runtime)
  (path note : string) (user_price : float) :
  errors_carry_response w ->
  env_set w "GOOGLE_API_KEY" = true ->
  env_set w "CLIPDROP_API_KEY" = true ->
  note <> "" ->
  let run := main w rt path note user_price in
  In (Subheader "Your Professional Listing is Ready!") (screen (fst run))
  /\ dict_has (VStr "processed_image_path") (final_results (fst run)) = true
  /\ In (LlmInvoked note) (effects (fst run)).
Proof.
  intros C Hg Hc Hn run. subst run.
  rewrite (main_run w rt path note user_price Hg Hc Hn). cbv zeta.
  set (s0 := fst (draw (Subheader "2. AI Co-pilot at Work") empty_state)).
  destruct (orchestrate_leaves w rt path note s0 C) as [K L].
  set (s1 := fst (orchestrate w rt path note s0)) in *.
  set (s2 := fst (draw (Markdown "---") s1)).
  change (final_results s2) with (final_results s1).
  destruct (final_results s1) as [|kv d] eqn:F; [discriminate K|].
  rewrite <- F.
  destruct (read_only_display_results w rt path (final_results s1)
              user_price s2) as [RF RE].
  rewrite RF, RE.
  split; [|split; [change (final_results s2) with (final_results s1);
                   now rewrite F
                  | exact L]].
  unfold display_results, bindM at 1.
  cbn [draw].
  match goal with
  | |- In _ (screen (fst (?m ?s))) =>
      assert (Mo : monotone m);
        [|destruct (Mo s) as [(more & E) _]; rewrite E]
  end.
  { apply monotone_bind; [apply monotone_display_photo | intros _].
    apply monotone_display_details. }
  cbn [screen]. apply in_or_app. left. apply in_or_app. right. now left.
Qed.

Lemma X11_witness :
  In (Subheader "Your Professional Listing is Ready!")
     (screen (fst (main Reference.world_prose Reference.runtime
                     Reference.upload Reference.note 0))).
Proof.
  assert (C : errors_carry_response Reference.world_prose)
    by exact (reference_world_carries (Some "secret") [Reference.upload]
                Reference.processed (Ok "Sorry, I cannot help with that.")).
  assert (N : Reference.note <> "") by discriminate.
  exact (proj1 (X11_listing_always_shown Reference.world_prose
                  Reference.runtime Reference.upload Reference.note 0
                  C eq_refl eq_refl N)).
Defined.

(** X12: the three tasks run inside one handler that catches every
    exception: from any state the run returns, and it has drawn exactly one
    verdict, complete or failed; when the verdict is complete the URL on
    record is the one made from the note, whatever the reply of the model
    held, a URL of its own included. *)
Theorem X12_one_verdict (w : World) (rt : Runtime) (path note : string)
  (s : state) :
  let run := orchestrate w rt path note s in
  let verdicts := filter is_verdict (drawn_since s (fst run)) in
  snd run = Ok tt
  /\ ((verdicts = [StatusUpdate "Orchestration Complete!" "complete"]
       /\ dict_get (VStr "mock_url") (final_results (fst run))
          = Some (VStr (mock_url rt note)))
      \/ verdicts = [StatusUpdate "Workflow Failed!" "error"]).
Proof.
  cbv zeta. split; [apply orchestrate_ok|].
  destruct (orchestrate_verdict w rt path note s) as (more & E & V).
  now rewrite (drawn_since_app _ _ _ E).
Qed.

(** X13: when the reply parses to an object without an error entry, the
    run ends complete and every entry of the reply is on record as the
    reply gave it, except the URL: the entries are merged without a check
    of their keys, so that an entry of the reply named
    processed_image_path or error_bg_removal replaces what Task 1
    recorded. *)
Theorem X13_reply_entries_on_record (w : World) (rt : Runtime)
  (path note reply : string) (d : dict) :
  errors_carry_response w ->
  chain_invoke w note = Ok reply ->
  json_loads rt (replace "```" "" (replace "```json" "" (strip reply)))
  = Ok (VDict d) ->
  dict_has (VStr "error") d = false ->
  let run := orchestrate w rt path note empty_state in
  In (StatusUpdate "Orchestration Complete!" "complete") (screen (fst run))
  /\ forall k v,
       dict_get (VStr k) d = Some v -> k <> "mock_url" ->
       dict_get (VStr k) (final_results (fst run)) = Some v.
Proof.
  intros C Hr Hl He run. subst run. rewrite orchestrate_run.
  destruct (task_photo_returns w rt path empty_state C)
    as (s1 & -> & _).
  rewrite (task_content_done w rt note reply d s1 Hr Hl He).
  rewrite task_finalize_run. cbn [fst final_results screen]. split.
  - apply in_or_app. right. now left.
  - intros k v Hk Hn. rewrite dict_get_set.
    apply String.eqb_neq in Hn. rewrite Hn.
    destruct (json_loads_distinct rt _ d Hl) as [Hd Hs].
    now rewrite (fold_set_get k d _ Hs Hd), Hk.
Qed.

Lemma X13_witness :
  dict_get (VStr "processed_image_path")
    (final_results
       (fst (orchestrate Scenario.world_overriding Reference.runtime
               Reference.upload Reference.note empty_state)))
  = Some (VStr "elsewhere.png").
Proof.
  assert (Hl : json_loads Reference.runtime
                 (replace "```" ""
                    (replace "```json" ""
                       (strip Scenario.overriding_reply)))
               = Ok (VDict
                       [(VStr "description", VStr "A necklace");
                        (VStr "processed_image_path",
                         VStr "elsewhere.png")]))
    by (vm_compute; reflexivity).
  apply (proj2 (X13_reply_entries_on_record Scenario.world_overriding
                  Reference.runtime Reference.upload Reference.note
                  Scenario.overriding_reply _
                  (reference_world_carries (Some "secret")
                     [Reference.upload] Reference.processed
                     (Ok Scenario.overriding_reply))
                  eq_refl Hl eq_refl)
           "processed_image_path" (VStr "elsewhere.png") eq_refl).
  discriminate.
Defined.

(** ** The tools of the agents *)

Lemma str_of_Z_digits (z : Z) :
  (0 <= z)%Z ->
  exists c ds, chars (str_of_Z z) = c :: ds
               /\ forallb is_digit (c :: ds) = true.
Proof.
  intros H. destruct z as [|p|p]; [| |lia].
  - now exists "0"%char, [].
  - rewrite str_of_Z_pos.
    destruct (pos_text p) as (c & ds & E & Hc & _ & Hd & _).
    exists c, ds. split; [exact E|]. simpl. now rewrite Hc, Hd.
Qed.

(** X14: [enhance_image] answers with a text that holds no slash: for a
    path that exists, processed_ followed by the base name of the path,
    so that the directory of the input is dropped; for any other path the
    error text, returned like a result. *)
Theorem X14_enhance_image_drops_directory (w : World) (image_path : string) :
  str_contains "/" (enhance_image w image_path) = false
  /\ (path_exists w image_path = true ->
      exists dir,
        image_path = dir ++ basename image_path
        /\ (dir = "" \/ endswith_slash dir = true)
        /\ enhance_image w image_path = "processed_" ++ basename image_path)
  /\ (path_exists w image_path = false ->
      enhance_image w image_path = "Error: Image path does not exist.").
Proof.
  destruct (basename_spec image_path) as (dir & E & N & D).
  unfold enhance_image.
  destruct (path_exists w image_path); cbn [negb].
  - split; [|split; [|discriminate]].
    + rewrite str_contains_char, chars_app, existsb_app.
      rewrite str_contains_char in N. now rewrite N.
    + intros _. exists dir. auto.
  - split; [reflexivity|]. split; [discriminate | reflexivity].
Qed.

Lemma X14_witness :
  enhance_image Reference.world_good Reference.upload
  = "processed_necklace.png".
Proof.
  destruct (proj1 (proj2 (X14_enhance_image_drops_directory
                            Reference.world_good Reference.upload))
              eq_refl) as (dir & _ & _ & E).
  exact E.
Defined.

(** *** The narrative *)

Lemma escape_char_printable (c : ascii) :
  forallb is_printable_ascii (escape_char c) = true.
Proof. destruct c as [[] [] [] [] [] [] [] []]; reflexivity. Qed.

Lemma encode_basestring_printable (s : string) :
  forallb is_printable_ascii (encode_basestring_ascii s) = true.
Proof.
  unfold encode_basestring_ascii.
  change (DQ :: flat_map escape_char (chars s) ++ [DQ])%list
    with ([DQ] ++ flat_map escape_char (chars s) ++ [DQ])%list.
  rewrite !forallb_app. simpl.
  rewrite andb_true_r.
  induction (chars s) as [|c l IH]; [reflexivity|].
  simpl. now rewrite forallb_app, escape_char_printable, IH.
Qed.

Lemma narrative_native (rt : Runtime) (artisan_note : string) :
  json_native rt (narrative_record artisan_note).
Proof. simpl. tauto. Qed.

(** X15: for every note [generate_narrative] returns a JSON text, made
    of printable ASCII characters only, that parses back to the record it
    was made from: the story, which quotes the note as it is, and the four
    hashtags. *)
Theorem X15_narrative_round_trip (rt : Runtime) (artisan_note : string) :
  exists s,
    generate_narrative rt artisan_note = Ok s
    /\ json_loads rt s = Ok (narrative_record artisan_note)
    /\ forallb is_printable_ascii (chars s) = true
    /\ str_contains artisan_note (narrative_story artisan_note) = true.
Proof.
  destruct (json_dumps_native rt _ (narrative_native rt artisan_note))
    as (s & E).
  exists s. unfold generate_narrative.
  split; [exact E|].
  split; [now apply json_loads_dumps; [apply narrative_native|]|].
  split.
  - unfold json_dumps, narrative_record in E.
    cbn [encode encode_members encode_items encode_key bind fst snd map
           narrative_hashtags] in E.
    match type of E with
    | Ok (str ?L) = _ => assert (Hs : s = str L) by congruence
    end.
    rewrite Hs, chars_str.
    cbn [forallb app]. rewrite !forallb_app.
    rewrite !encode_basestring_printable. reflexivity.
  - unfold narrative_story.
    apply str_contains_app_r, str_contains_prefix, prefix_app.
Qed.

(** ** The record prepared for the publishing agent *)

(** X16: the record that [prepare_for_publishing] makes from the answers
    of the first two agents, when the second is the text of
    [generate_narrative], is a JSON text that parses to four entries: the
    artisan, the image, the story and the hashtags.  It has no price: the
    consolidation step, given a text that evaluates to what this one
    parses to, answers with the error about the required keys. *)
Theorem X16_prepared_record_lacks_price (rt : Runtime)
  (decode : string -> result string)
  (image_path note artisan_id visual narrative : string) :
  generate_narrative rt note = Ok narrative ->
  exists input,
    prepare_for_publishing rt decode
      (workflow_results image_path note artisan_id visual narrative)
    = Ok (VDict [(VStr "input", VStr input)])
    /\ json_loads rt input
       = Ok (VDict [(VStr "artisan_id", VStr artisan_id);
                    (VStr "enhanced_image_path", VStr visual);
                    (VStr "description", VStr (narrative_story note));
                    (VStr "hashtags", VList (map VStr narrative_hashtags))])
    /\ (forall data_string,
           literal_eval rt data_string = json_loads rt input ->
           consolidate_data rt data_string = Ok (missing_keys_message rt)).
Proof.
  intros G.
  assert (L : json_loads rt narrative = Ok (narrative_record note)).
  { apply json_loads_dumps; [apply narrative_native | exact G]. }
  set (final := VDict [(VStr "artisan_id", VStr artisan_id);
                       (VStr "enhanced_image_path", VStr visual);
                       (VStr "description", VStr (narrative_story note));
                       (VStr "hashtags", VList (map VStr narrative_hashtags))]).
  assert (N : json_native rt final) by (simpl; tauto).
  destruct (json_dumps_native rt final N) as (input & D).
  exists input.
  assert (R : json_loads rt input = Ok final) by now apply json_loads_dumps.
  split; [|split; [exact R|]].
  - unfold prepare_for_publishing, workflow_results.
    cbn [app getitem_str dict_get key_eqb String.eqb Ascii.eqb Bool.eqb bind
           json_loads_value].
    rewrite L. unfold narrative_record.
    cbn [getitem_str dict_get key_eqb String.eqb Ascii.eqb Bool.eqb bind].
    fold final. now rewrite D.
  - intros data_string E. rewrite R in E.
    now rewrite (consolidate_data_dict rt data_string _ E).
Qed.

Lemma X16_witness :
  exists narrative input,
    generate_narrative Reference.runtime Reference.note = Ok narrative
    /\ prepare_for_publishing Reference.runtime Scenario.decode
         (workflow_results "sample_data/product_image.jpg" Reference.note
            ARTISAN_ID "processed_product_image.jpg" narrative)
       = Ok (VDict [(VStr "input", VStr input)]).
Proof.
  pose (narrative :=
          match generate_narrative Reference.runtime Reference.note with
          | Ok s => s
          | Raise _ => ""
          end).
  assert (G : generate_narrative Reference.runtime Reference.note
              = Ok narrative) by (vm_compute; reflexivity).
  destruct (X16_prepared_record_lacks_price Reference.runtime Scenario.decode
              "sample_data/product_image.jpg" Reference.note ARTISAN_ID
              "processed_product_image.jpg" narrative G)
    as (input & E & _).
  exists narrative, input. split; [exact G | exact E].
Defined.

(** ** The publish step and the assertions of the test *)

(** X17: whenever the publish step reports success for a record of the
    artisan of the test, the three assertions of the test on the final
    result hold; and when the input is not JSON, the first assertion fails
    (unless the message of the decoder itself holds the word). *)
Theorem X17_success_passes_test (rt : Runtime) (s : string) :
  (forall d h,
      json_loads rt s = Ok (VDict d) ->
      dict_get (VStr "artisan_id") d = Some (VStr ARTISAN_ID) ->
      py_hash rt (get_default "description" (VStr "") d) = Ok h ->
      test_assertions (publish_to_web_gallery rt s) = true)
  /\ (forall e,
         json_loads rt s = Raise e ->
         str_contains "SUCCESS" (exn_msg e) = false ->
         test_assertions (publish_to_web_gallery rt s) = false).
Proof.
  unfold publish_to_web_gallery, publish_try, test_assertions. split.
  - intros d h Hl Ha Hh.
    destruct (json_dumps_loaded rt s (VDict d) Hl) as (out & Hd).
    rewrite Hl. cbn [bind py_get]. rewrite Hh. cbn [bind]. rewrite Hd.
    cbn [bind]. unfold get_default. rewrite Ha. cbn [py_str].
    unfold gallery_url.
    rewrite (str_contains_prefix "SUCCESS") by reflexivity.
    rewrite (str_contains_app_r "https://www.kalasahayk.com"
               "SUCCESS: Product live at ")
      by (apply str_contains_prefix; reflexivity).
    rewrite (str_contains_app_r ARTISAN_ID "SUCCESS: Product live at ")
      by (apply (str_contains_app_r ARTISAN_ID
                   "https://www.kalasahayk.com/gallery/"),
            str_contains_prefix, prefix_app).
    reflexivity.
  - intros e Hl N. rewrite Hl.
    assert (E : str_contains "SUCCESS" ("Error publishing: " ++ exn_msg e)
                = str_contains "SUCCESS" (exn_msg e)) by reflexivity.
    cbn [bind]. now rewrite E, N.
Qed.

Lemma X17_witness :
  test_assertions
    (publish_to_web_gallery Reference.runtime
       (Reference.dq "{'artisan_id': 'artisan_lc8765', 'description': 'A necklace'}"))
  = true.
Proof.
  assert (H : json_loads Reference.runtime
                (Reference.dq "{'artisan_id': 'artisan_lc8765', 'description': 'A necklace'}")
              = Ok (VDict [(VStr "artisan_id", VStr "artisan_lc8765");
                           (VStr "description", VStr "A necklace")]))
    by (vm_compute; reflexivity).
  exact (proj1 (X17_success_passes_test Reference.runtime _) _ _ H eq_refl
           eq_refl).
Defined.

(** ** The tool of image_tools.py *)

Lemma digits_no_dash (l : list ascii) :
  forallb is_digit l = true -> existsb (Ascii.eqb "-") l = false.
Proof.
  induction l as [|c l IH]; [reflexivity|]. cbn [forallb existsb]. intros H.
  apply andb_true_iff in H as [Hc Hl]. rewrite (IH Hl), orb_false_r.
  destruct (Ascii.eqb "-" c) eqn:E; [|reflexivity].
  apply Ascii.eqb_eq in E. subst c. discriminate Hc.
Qed.

(** X18: the background removal tool of image_tools.py has no handler of
    its own.  It returns a path only after the picture was saved there, as
    the last of three steps: the download, the directory, the file; the
    path is bg_removed_, the digits of the absolute value of the hash of
    the address, and .png, directly in outputs, and holds no minus sign.
    When it raises, nothing was saved; a reply with a status from 400 to
    599 makes it raise an HTTPError right after the download. *)
Theorem X18_background_tool_trace (lib : ImageLib) (rt : Runtime)
  (image_url : string) :
  let run := BackgroundRemovalTool_run lib rt image_url in
  let file_path :=
    "outputs/bg_removed_" ++ str_of_Z (Z.abs (str_hash rt image_url))
    ++ ".png" in
  (forall p,
      snd run = Ok p ->
      p = file_path
      /\ exists picture,
           fst run = [HttpGet image_url; DirEnsured "outputs";
                      ImageSaved file_path picture])
  /\ (forall e,
         snd run = Raise e ->
         forall p picture, ~ In (ImageSaved p picture) (fst run))
  /\ (forall r,
         requests_get lib image_url = Ok r ->
         (400 <= status_code r < 600)%Z ->
         exists e,
           run = ([HttpGet image_url], Raise e) /\ exn_cls e = HTTPError)
  /\ str_contains "-" file_path = false.
Proof.
  cbv zeta. unfold BackgroundRemovalTool_run, bg_removed_path.
  assert (P : path_join "outputs"
                ("bg_removed_" ++ str_of_Z (Z.abs (str_hash rt image_url))
                 ++ ".png")
              = "outputs/bg_removed_"
                ++ str_of_Z (Z.abs (str_hash rt image_url)) ++ ".png")
    by reflexivity.
  rewrite P. clear P.
  set (file_path := "outputs/bg_removed_"
                    ++ str_of_Z (Z.abs (str_hash rt image_url)) ++ ".png").
  assert (N1 : forall p picture,
             ~ In (ImageSaved p picture) [HttpGet image_url])
    by (intros ? ? [H|[]]; discriminate H).
  assert (N2 : forall p picture,
             ~ In (ImageSaved p picture)
                 [HttpGet image_url; DirEnsured "outputs"])
    by (intros ? ? [H|[H|[]]]; discriminate H).
  split; [|split; [|split]].
  - destruct (requests_get lib image_url) as [r|e]; [|discriminate].
    destruct (raise_for_status r) as [[]|e]; [|discriminate].
    destruct (image_open_rgba lib (content r)) as [img|e]; [|discriminate].
    destruct (rembg_remove lib img) as [out|e]; [|discriminate].
    destruct (makedirs_exist_ok lib "outputs") as [[]|e]; [|discriminate].
    destruct (image_save lib out file_path) as [[]|e]; [|discriminate].
    cbn [fst snd]. intros p H. injection H as <-. split; [reflexivity|].
    now exists out.
  - destruct (requests_get lib image_url) as [r|e]; [|intros; apply N1].
    destruct (raise_for_status r) as [[]|e]; [|intros; apply N1].
    destruct (image_open_rgba lib (content r)) as [img|e];
      [|intros; apply N1].
    destruct (rembg_remove lib img) as [out|e]; [|intros; apply N1].
    destruct (makedirs_exist_ok lib "outputs") as [[]|e];
      [|intros; apply N1].
    destruct (image_save lib out file_path) as [[]|e];
      [discriminate | intros; apply N2].
  - intros r -> [L U]. unfold raise_for_status.
    apply Z.leb_le in L. apply Z.ltb_lt in U. rewrite L, U. cbn [andb].
    eexists. split; reflexivity.
  - unfold file_path.
    rewrite str_contains_char, !chars_app, !existsb_app.
    destruct (str_of_Z_digits (Z.abs (str_hash rt image_url))
                (Z.abs_nonneg _)) as (c & ds & -> & D).
    now rewrite (digits_no_dash _ D).
Qed.

Lemma X18_witness :
  exists e,
    BackgroundRemovalTool_run (Scenario.lib 404) Reference.runtime
      "https://example.org/necklace.jpg"
    = ([HttpGet "https://example.org/necklace.jpg"], Raise e)
    /\ exn_cls e = HTTPError.
Proof.
  assert (H : (400 <= 404 < 600)%Z) by lia.
  exact (proj1 (proj2 (proj2
           (X18_background_tool_trace (Scenario.lib 404) Reference.runtime
              "https://example.org/necklace.jpg"))) _ eq_refl H).
Defined.

(** ** The price of the pricing tool *)

Lemma price_by_length_checked :
  forallb
    (fun n =>
       PrimFloat.eqb
         (round2 (PrimFloat.add 75 (PrimFloat.div (float_of_len n) 25)))
         (PrimFloat.div (float_of_len (7500 + 4 * n)) 100))
    (seq 0 1000)
  = true.
Proof. vm_compute. reflexivity. Qed.

(** X19: for a description of fewer than 1000 characters the recommended
    price is 75 plus four hundredths for each character, exactly: the
    float nearest to the decimal with two digits, which is how the float of
    7500 + 4 n hundredths divides by 100.  The text of the description
    plays no part, only its length. *)
Theorem X19_price_by_length (product_description : string) :
  (String.length product_description < 1000)%nat ->
  let n := String.length product_description in
  PrimFloat.eqb (recommend_price product_description)
    (PrimFloat.div (float_of_len (7500 + 4 * n)) 100)
  = true.
Proof.
  intros H. cbv zeta. unfold recommend_price.
  pose proof price_by_length_checked as C.
  rewrite forallb_forall in C.
  apply (C (String.length product_description)).
  apply in_seq. lia.
Qed.

Lemma X19_witness :
  PrimFloat.eqb (recommend_price "A necklace") 0x1.2d9999999999ap+6 = true.
Proof.
  assert (H : (String.length "A necklace" < 1000)%nat) by (simpl; lia).
  exact (X19_price_by_length "A necklace" H).
Defined.
